(** * Agent session of the backend (backend/agentd/session.go)

    A shallow embedding of the server-side agent session: the pure
    subscription helpers ([diff], [removeEmptySubscriptions],
    [sortSubscriptions]) and the effectful session operations
    ([NewSession], [Start], [sender], [handleKeepalive], [subscribe],
    [unsubscribe]) over an explicit model of the collaborators (message
    bus, entity store, transport, ring pool, logger and metrics). *)

From Stdlib Require Import ZArith.
From Equations Require Import Equations.
From stdpp Require Import base gmap sets list strings sorting.

Local Open Scope string_scope.
Local Open Scope list_scope.
Local Open Scope stdpp_scope.

(** ** Go strings and their order

    Go compares strings byte by byte; [String.compare] does the same on
    the character codes, so it stands for [strings.Compare] and for the
    operator [<] on strings. *)

Module GoString.

Definition Compare (a b : string) : comparison := String.compare a b.

Definition slt (a b : string) : Prop := Compare a b = Lt.
Definition sle (a b : string) : Prop := Compare a b <> Gt.

(** [strings.HasPrefix] *)
Fixpoint HasPrefix (s prefix : string) : bool :=
  match prefix, s with
  | EmptyString, _ => true
  | String p prefix', String c s' =>
      if Ascii.eqb c p then HasPrefix s' prefix' else false
  | String _ _, EmptyString => false
  end.

End GoString.

Import GoString.

(** ** The pure helpers of the session *)

(** [diff]: the two-pointer loop over [old[i:]] and [new[j:]]; [added]
    and [removed] are the slices built so far by [append]. *)
Equations? diff_loop (old new added removed : list string)
  : list string * list string
  by wf (length old + length new)%nat Nat.lt :=
  diff_loop (o :: old') (n :: new') added removed with Compare o n => {
    | Eq => diff_loop old' new' added removed
    | Lt => diff_loop old' (n :: new') added (removed ++ [o])
    | Gt => diff_loop (o :: old') new' (added ++ [n]) removed };
  diff_loop old new added removed := (added ++ new, removed ++ old).
Proof. all: simpl; lia. Qed.

Definition diff (old new : list string) : list string * list string :=
  diff_loop old new [] [].

Fixpoint removeEmptySubscriptions (subscriptions : list string) : list string :=
  match subscriptions with
  | [] => []
  | subscription :: rest =>
      if decide (subscription <> "")
      then subscription :: removeEmptySubscriptions rest
      else removeEmptySubscriptions rest
  end.

(** [sort.StringsAreSorted]: no element is smaller than its predecessor. *)
Fixpoint StringsAreSorted (x : list string) : bool :=
  match x with
  | [] => true
  | a :: rest =>
      match rest with
      | [] => true
      | b :: _ => negb (String.ltb b a) && StringsAreSorted rest
      end
  end.

(** [sort.Strings] of Go's library sorts in increasing order.  A sorted
    permutation of a list of strings is unique ([sort_Strings_unique]
    below), so any sorting function is the same function; stdpp's merge
    sort is taken. *)
Definition sort_Strings (x : list string) : list string :=
  merge_sort String.le x.

Definition sortSubscriptions (subscriptions : list string) : list string :=
  let subscriptions := removeEmptySubscriptions subscriptions in
  if StringsAreSorted subscriptions then subscriptions
  else sort_Strings subscriptions.

(** Sorted lists, and sorted lists without duplicates. *)
Definition sorted (l : list string) : Prop := Sorted sle l.
Definition strictly_sorted (l : list string) : Prop := StronglySorted slt l.


(** ** Data model

    The records keep the fields the session reads or writes.  Pointers
    that the code dereferences become [option]s; a dereference of [nil]
    is a panic (see [Outcome]). *)

Definition bytes := list Byte.byte.

(** Go [error] values, by the dynamic types the session tells apart. *)
Inductive error : Type :=
| ErrNotFound (msg : string)        (* *store.ErrNotFound *)
| ErrInternal (msg : string)        (* *store.ErrInternal *)
| ConnectionError (msg : string)    (* transport.ConnectionError *)
| ClosedError (msg : string)        (* transport.ClosedError *)
| ErrorString (msg : string).       (* errors.New and every other error *)

Definition error_Error (e : error) : string :=
  match e with
  | ErrNotFound m | ErrInternal m | ConnectionError m | ClosedError m
  | ErrorString m => m
  end.

Definition errors_New (msg : string) : error := ErrorString msg.

Module corev2.

Record ObjectMeta := {
  Name : string;
  Namespace : string;
  Labels : gmap string string
}.

(** Modelled from the spec: [corev2.NewObjectMeta] is not part of the
    sources at hand.  The placeholder entity of the specification carries
    the name it is given, in the namespace it is given, and no label. *)
Definition NewObjectMeta (name namespace : string) : ObjectMeta :=
  {| Name := name; Namespace := namespace; Labels := ∅ |}.

Record Entity := {
  Entity_ObjectMeta : ObjectMeta;
  Subscriptions : list string;
  EntityClass : string
}.

Record Check := { Check_ObjectMeta : ObjectMeta }.

Record Event := {
  Event_ObjectMeta : ObjectMeta;
  Event_Entity : option Entity;     (* *Entity *)
  Event_Check : option Check;       (* *Check *)
  Timestamp : Z                     (* int64 *)
}.

(** A check request is forwarded as it is; the session reads none of
    its fields. *)
Record CheckRequest := { CheckRequest_Config : string }.

End corev2.

Module corev3.

Record EntityConfig := {
  Metadata : option corev2.ObjectMeta;   (* *ObjectMeta *)
  EntityClass : string;
  Subscriptions : list string;
  Deregister : bool
}.

End corev3.

Module store.

Inductive WatchActionType := WatchUnknown | WatchCreate | WatchUpdate | WatchDelete.

Record WatchEventEntityConfig := {
  Entity : option corev3.EntityConfig;   (* *EntityConfig *)
  Action : WatchActionType
}.

End store.

Module storev2.

(** A stored wrapper, by what [UnwrapInto] gives for it. *)
Record Wrapper := { UnwrapInto : error + corev3.EntityConfig }.

End storev2.

Module transport.

Record Message := { Type_ : string; Payload : bytes }.

Definition NewMessage (msgType : string) (payload : bytes) : Message :=
  {| Type_ := msgType; Payload := payload |}.

End transport.

(** The values that travel as [proto.Message] and as [interface{}]. *)
Inductive ProtoMessage :=
| PEntityConfig (e : corev3.EntityConfig)
| PCheckRequest (r : corev2.CheckRequest).

Inductive BusMessage :=
| MEvent (e : corev2.Event)
| MWatchEvent (w : store.WatchEventEntityConfig).

Inductive ChanValue :=
| VWatchEvent (w : store.WatchEventEntityConfig)
| VCheckRequest (r : corev2.CheckRequest)
| VOther.                                    (* a value of another type *)

(** A handle returned by [bus.Subscribe]. *)
Definition Subscription := N.

Inductive RingPool := RingPoolRef.

Record SessionConfig := {
  ContentType : string;
  Namespace : string;
  AgentAddr : string;
  AgentName : string;
  User : string;
  Subscriptions : list string;
  WriteTimeout : Z;
  RingPool_ : option RingPool;               (* *ringv2.RingPool *)
  Marshal : ProtoMessage -> error + bytes;
  Unmarshal : bytes -> error + corev2.Event
}.

(** The session: the fields that hold data.  The transport, the bus and
    the stores are collaborators (see [Collaborators]); the wait groups,
    the channels and the mutex belong to the scheduling, which the
    embedding does not model. *)
Record Session := {
  cfg : SessionConfig;
  ringPool : option RingPool;
  subscriptionsMap : gmap string Subscription;
  deregister : bool
}.

Definition set_Subscriptions (subs : list string) (s : Session) : Session :=
  {| cfg := {| ContentType := ContentType (cfg s);
               Namespace := Namespace (cfg s);
               AgentAddr := AgentAddr (cfg s);
               AgentName := AgentName (cfg s);
               User := User (cfg s);
               Subscriptions := subs;
               WriteTimeout := WriteTimeout (cfg s);
               RingPool_ := RingPool_ (cfg s);
               Marshal := Marshal (cfg s);
               Unmarshal := Unmarshal (cfg s) |};
     ringPool := ringPool s;
     subscriptionsMap := subscriptionsMap s;
     deregister := deregister s |}.

Definition set_subscriptionsMap (m : gmap string Subscription) (s : Session)
  : Session :=
  {| cfg := cfg s; ringPool := ringPool s; subscriptionsMap := m;
     deregister := deregister s |}.

Definition set_deregister (b : bool) (s : Session) : Session :=
  {| cfg := cfg s; ringPool := ringPool s;
     subscriptionsMap := subscriptionsMap s; deregister := b |}.

(** ** Constants and functions of the imported packages

    The packages [api/core/v2], [api/core/v3], [backend/messaging],
    [backend/ringv2], [backend/store/v2] and [transport] are not part of
    the sources at hand: what the session takes from them is a
    parameter. *)
Class Imports := {
  EntityAgentClass : string;                 (* corev2.EntityAgentClass *)
  KeepaliveCheckName : string;               (* corev2.KeepaliveCheckName *)
  ManagedByLabel : string;                   (* corev2.ManagedByLabel *)
  CheckRequestType : string;                 (* corev2.CheckRequestType *)
  Validate : corev2.Event -> option error;   (* Event.Validate *)
  EntityNotFound : string;                   (* corev3.EntityNotFound *)
  EntityConfig_StoreName : string;           (* EntityConfig.StoreName *)
  TopicKeepalive : string;                   (* messaging.TopicKeepalive *)
  EntityConfigTopic : string -> string -> string;
  SubscriptionTopic : string -> string -> string;
  MessageTypeEntityConfig : string;          (* transport.MessageTypeEntityConfig *)
  ringv2_Path : string -> string -> string;  (* ringv2.Path *)
  WrapResource : corev3.EntityConfig -> error + storev2.Wrapper
}.

(** Modelled from the spec: [corev2.AddEntitySubscription] is not part of
    the sources at hand.  By the specification the handlers attach an
    [entity:<name>] subscription to the subscription list of the entity. *)
Definition AddEntitySubscription (entityName : string)
  (subscriptions : list string) : list string :=
  subscriptions ++ ["entity:" +:+ entityName].

Definition deletedEventSentinel : Z := -1.
Definition sessionCounterName : string := "sensu_go_agent_sessions".
Definition sessionErrorCounterName : string := "sensu_go_session_errors".
Definition websocketErrorCounterName : string := "sensu_go_websocket_errors".

(** [time.Second], in nanoseconds as a [time.Duration]. *)
Definition time_Second : Z := 1000000000.

(** ** Effects and collaborators

    Every call the session makes on a collaborator is recorded, with
    what the collaborator answered, in a history.  A collaborator is an
    arbitrary function of the history so far and of the arguments of the
    call: it may fail at any call.  A log line is recorded by its level
    and its format string, a metric by its name and label values. *)

Inductive LogLevel := DebugLevel | InfoLevel | WarnLevel | ErrorLevel.

(** The receiver handed to [bus.Subscribe]: the entity-config receiver
    of the session, or the session itself (its check channel). *)
Inductive Receiver := EntityConfigReceiver | SessionReceiver.

Inductive Effect : Type :=
| ELog (level : LogLevel) (msg : string)
| EGaugeInc (name : string) (labels : list string)
| ECounterInc (name : string) (labels : list string)
| EUUID (u : string)
| EPublish (topic : string) (msg : BusMessage) (err : option error)
| ESubscribe (topic consumer : string) (r : Receiver)
    (res : error + Subscription)
| ECancel (sub : Subscription) (err : option error)
| EStoreGet (namespace name storeName : string)
    (res : error + storev2.Wrapper)
| EStoreCreateOrUpdate (entity : corev3.EntityConfig) (err : option error)
| ESend (msg : transport.Message) (err : option error)
| ERingRemove (path member : string) (timeout : Z) (err : option error)
    (expired : bool).

Record Collaborators := {
  bus_Publish : list Effect -> string -> BusMessage -> option error;
  bus_Subscribe :
    list Effect -> string -> string -> Receiver -> error + Subscription;
  subscription_Cancel : list Effect -> Subscription -> option error;
  storev2_Get :
    list Effect -> string -> string -> string -> error + storev2.Wrapper;
  storev2_CreateOrUpdate :
    list Effect -> corev3.EntityConfig -> storev2.Wrapper -> option error;
  conn_Send : list Effect -> transport.Message -> option error;
  (** [ring.Remove] under its bounded context: the error, and whether
      the context is expired when the call returns ([ctx.Err() != nil]) *)
  ring_Remove : list Effect -> string -> string -> Z -> option error * bool;
  uuid_New : list Effect -> string;
  (** whether the context of the session is cancelled *)
  ctx_Err : list Effect -> bool
}.

(** ** The monad of session code: state, history and panics *)

Inductive Outcome (A : Type) : Type :=
| Done (a : A)
| Panic.
Arguments Done {A} a.
Arguments Panic {A}.

Record State := { session : Session; history : list Effect }.

Definition M (A : Type) : Type := State -> Outcome A * State.

Definition ret {A} (a : A) : M A := fun st => (Done a, st).

Definition bind {A B} (c : M A) (k : A -> M B) : M B :=
  fun st =>
    match c st with
    | (Done a, st') => k a st'
    | (Panic, st') => (Panic, st')
    end.

Notation "'let*' x ':=' c 'in' k" := (bind c (fun x => k))
  (at level 10, x pattern, c at level 100, k at level 200).
Notation "c '>>' k" := (bind c (fun _ => k))
  (at level 100, k at level 200, right associativity).

Definition get : M Session := fun st => (Done (session st), st).

Definition modify (f : Session -> Session) : M unit :=
  fun st => (Done tt, {| session := f (session st); history := history st |}).

Definition emit (e : Effect) : M unit :=
  fun st =>
    (Done tt, {| session := session st; history := history st ++ [e] |}).

(** Asking a collaborator: the answer depends on the history. *)
Definition ask {A} (f : list Effect -> A) : M A :=
  fun st => (Done (f (history st)), st).

(** Dereferencing a pointer. *)
Definition deref {A} (p : option A) : M A :=
  fun st => match p with Some a => (Done a, st) | None => (Panic, st) end.

Definition when (b : bool) (c : M unit) : M unit := if b then c else ret tt.

Section SessionCode.

Context `{imports : Imports} (env : Collaborators).

Definition log (level : LogLevel) (msg : string) : M unit := emit (ELog level msg).

Definition counter_inc (name : string) (labels : list string) : M unit :=
  emit (ECounterInc name labels).

Definition publish (topic : string) (msg : BusMessage) : M (option error) :=
  let* err := ask (fun h => bus_Publish env h topic msg) in
  emit (EPublish topic msg err) >>
  ret err.

Definition bus_subscribe (topic consumer : string) (r : Receiver)
  : M (error + Subscription) :=
  let* res := ask (fun h => bus_Subscribe env h topic consumer r) in
  emit (ESubscribe topic consumer r res) >>
  ret res.

Definition cancel (sub : Subscription) : M (option error) :=
  let* err := ask (fun h => subscription_Cancel env h sub) in
  emit (ECancel sub err) >>
  ret err.

Definition store_get (namespace name storeName : string)
  : M (error + storev2.Wrapper) :=
  let* res := ask (fun h => storev2_Get env h namespace name storeName) in
  emit (EStoreGet namespace name storeName res) >>
  ret res.

Definition store_create_or_update (entity : corev3.EntityConfig)
  (wrapper : storev2.Wrapper) : M (option error) :=
  let* err := ask (fun h => storev2_CreateOrUpdate env h entity wrapper) in
  emit (EStoreCreateOrUpdate entity err) >>
  ret err.

Definition send (msg : transport.Message) : M (option error) :=
  let* err := ask (fun h => conn_Send env h msg) in
  emit (ESend msg err) >>
  ret err.

Definition ring_remove (path member : string) (timeout : Z)
  : M (option error * bool) :=
  let* res := ask (fun h => ring_Remove env h path member timeout) in
  emit (ERingRemove path member timeout res.1 res.2) >>
  ret res.

(** [agentUUID]: ["<namespace>:<name>-<fresh uuid>"] *)
Definition agentUUID (namespace name : string) : M string :=
  let* u := ask (uuid_New env) in
  emit (EUUID u) >>
  ret (namespace +:+ ":" +:+ name +:+ "-" +:+ u).


(** *** [NewSession] and the switch-burial event *)

Definition makeEntitySwitchBurialEvent (cfg : SessionConfig) : corev2.Event :=
  {| corev2.Event_ObjectMeta :=
       {| corev2.Name := ""; corev2.Namespace := Namespace cfg;
          corev2.Labels := ∅ |};
     corev2.Event_Entity := Some
       {| corev2.Entity_ObjectMeta :=
            {| corev2.Name := AgentName cfg;
               corev2.Namespace := Namespace cfg;
               corev2.Labels := ∅ |};
          corev2.Subscriptions := Subscriptions cfg;
          corev2.EntityClass := EntityAgentClass |};
     corev2.Event_Check := Some
       {| corev2.Check_ObjectMeta :=
            {| corev2.Name := KeepaliveCheckName;
               corev2.Namespace := Namespace cfg;
               corev2.Labels := ∅ |} |};
     corev2.Timestamp := deletedEventSentinel |}.

(** [NewSession] runs before there is a session: its state is the
    history alone.  The handler table built at the end is the dispatch
    of the receiver and holds no data. *)
Definition NewSession (cfg : SessionConfig) (h : list Effect)
  : (error + Session) * list Effect :=
  let h := h ++ [ELog InfoLevel "agent connected"] in
  let s := {| cfg := cfg;
              ringPool := RingPool_ cfg;
              subscriptionsMap := ∅;
              deregister := false |} in
  let msg := MEvent (makeEntitySwitchBurialEvent cfg) in
  let err := bus_Publish env h TopicKeepalive msg in
  let h := h ++ [EPublish TopicKeepalive msg err] in
  match err with
  | Some err => (inl err, h)
  | None => (inr s, h)
  end.

(** *** [subscribe] and [unsubscribe] *)

Fixpoint subscribe_loop (agent : string) (subscriptions : list string)
  : M (option error) :=
  match subscriptions with
  | [] => ret None
  | sub :: rest =>
      if decide (sub = "") then subscribe_loop agent rest
      else
        let* s := get in
        let topic := SubscriptionTopic (Namespace (cfg s)) sub in
        match subscriptionsMap s !! topic with
        | Some _ =>
            log DebugLevel
              "ignoring subscription %q because session is already subscribed" >>
            subscribe_loop agent rest
        | None =>
            log DebugLevel "subscribing to %q" >>
            let* res := bus_subscribe topic agent SessionReceiver in
            match res with
            | inl err =>
                log ErrorLevel "could not subscribe to %q" >>
                ret (Some err)
            | inr subscription =>
                modify (fun s =>
                  set_subscriptionsMap
                    (<[topic := subscription]> (subscriptionsMap s)) s) >>
                subscribe_loop agent rest
            end
        end
  end.

Definition subscribe (subscriptions : list string) : M (option error) :=
  let* s := get in
  let* agent := agentUUID (Namespace (cfg s)) (AgentName (cfg s)) in
  subscribe_loop agent subscriptions.

(** The first loop of [unsubscribe]: cancel and forget. *)
Fixpoint unsubscribe_cancel_loop (subscriptions : list string) : M unit :=
  match subscriptions with
  | [] => ret tt
  | subscriptionName :: rest =>
      let* s := get in
      let topic := SubscriptionTopic (Namespace (cfg s)) subscriptionName in
      match subscriptionsMap s !! topic with
      | Some subscription =>
          let* err := cancel subscription in
          match err with
          | Some _ =>
              log ErrorLevel "session shutdown: unable to unsubscribe from %q" >>
              unsubscribe_cancel_loop rest
          | None =>
              log DebugLevel
                "session shutdown: successfully unsubscribed from %q" >>
              modify (fun s =>
                set_subscriptionsMap (delete topic (subscriptionsMap s)) s) >>
              unsubscribe_cancel_loop rest
          end
      | None =>
          log ErrorLevel "session shutdown: session was not subscribed to %q" >>
          unsubscribe_cancel_loop rest
      end
  end.

(** The second loop of [unsubscribe]: leave the rings. *)
Fixpoint unsubscribe_ring_loop (subscriptions : list string) : M unit :=
  match subscriptions with
  | [] => ret tt
  | sub :: rest =>
      if HasPrefix sub "entity:" then unsubscribe_ring_loop rest
      else
        let* s := get in
        let* res :=
          ring_remove (ringv2_Path (Namespace (cfg s)) sub)
            (AgentName (cfg s)) time_Second in
        match res.1 with
        | Some _ =>
            counter_inc sessionErrorCounterName ["ring.Remove"] >>
            if res.2 then ret tt else unsubscribe_ring_loop rest
        | None => unsubscribe_ring_loop rest
        end
  end.

Definition unsubscribe (subscriptions : list string) : M unit :=
  unsubscribe_cancel_loop subscriptions >>
  let* s := get in
  match ringPool s with
  | None => ret tt
  | Some _ =>
      if negb (deregister s) then ret tt
      else unsubscribe_ring_loop subscriptions
  end.

(** *** [handleKeepalive] *)

Definition handleKeepalive (payload : bytes) : M (option error) :=
  let* s := get in
  match Unmarshal (cfg s) payload with
  | inl err => ret (Some err)
  | inr keepalive =>
      match Validate keepalive with
      | Some err => ret (Some err)
      | None =>
          if (corev2.Timestamp keepalive =? 0)%Z
          then ret (Some (errors_New "keepalive contains invalid timestamp"))
          else
            let* entity := deref (corev2.Event_Entity keepalive) in
            let entity :=
              {| corev2.Entity_ObjectMeta := corev2.Entity_ObjectMeta entity;
                 corev2.Subscriptions :=
                   AddEntitySubscription
                     (corev2.Name (corev2.Entity_ObjectMeta entity))
                     (corev2.Subscriptions entity);
                 corev2.EntityClass := corev2.EntityClass entity |} in
            publish TopicKeepalive
              (MEvent
                 {| corev2.Event_ObjectMeta := corev2.Event_ObjectMeta keepalive;
                    corev2.Event_Entity := Some entity;
                    corev2.Event_Check := corev2.Event_Check keepalive;
                    corev2.Timestamp := corev2.Timestamp keepalive |})
      end
  end.

(** *** The sender *)

(** The reconciliation of the sender (the block under the mutex and the
    two calls after it): sort both lists, compare, keep the new list,
    subscribe to the added names and unsubscribe from the removed ones.
    The error of [subscribe] is dropped, as in the source. *)
Definition reconcile (subscriptions : list string) : M unit :=
  let* s := get in
  let oldSubscriptions := sortSubscriptions (Subscriptions (cfg s)) in
  let newSubscriptions := sortSubscriptions subscriptions in
  let '(added, removed) := diff oldSubscriptions newSubscriptions in
  modify (set_Subscriptions newSubscriptions) >>
  when (bool_decide (0 < length added)%nat)
    (log DebugLevel "found %d new subscription(s): %v" >>
     subscribe added >>
     ret tt) >>
  when (bool_decide (0 < length removed)%nat)
    (log DebugLevel "found %d subscription(s) to unsubscribe from: %v" >>
     unsubscribe removed).

(** What one turn of the loop of [sender] chooses before the send. *)
Inductive Turn :=
| Continue
| Return
| Frame (msg : transport.Message).

(** What the [select] of the sender received: a value or the closing of
    one of the two channels, or the end of the context. *)
Inductive Select :=
| EntityUpdate (e : option ChanValue)
| CheckChannel (c : option ChanValue)
| CtxDone.

Definition set_EntityClass (class : string) (e : corev3.EntityConfig)
  : corev3.EntityConfig :=
  {| corev3.Metadata := corev3.Metadata e;
     corev3.EntityClass := class;
     corev3.Subscriptions := corev3.Subscriptions e;
     corev3.Deregister := corev3.Deregister e |}.

Definition sender_entity_update (watchEvent : store.WatchEventEntityConfig)
  : M Turn :=
  match store.Action watchEvent with
  | store.WatchDelete => ret Return
  | store.WatchUnknown =>
      log ErrorLevel "session received unknown watch event" >>
      ret Continue
  | _ =>
      match store.Entity watchEvent with
      | None =>
          log ErrorLevel "session received nil entity in watch event" >>
          ret Continue
      | Some entity =>
          let* metadata := deref (corev3.Metadata entity) in
          log DebugLevel "entity update received" >>
          if decide (corev3.EntityClass entity <> EntityAgentClass) then
            let entity := set_EntityClass EntityAgentClass entity in
            log WarnLevel
              "misconfigured entity class %q, updating entity to be a %s" >>
            match WrapResource entity with
            | inl _ =>
                log ErrorLevel "could not wrap the entity config" >>
                ret Continue
            | inr wrapper =>
                let* err := store_create_or_update entity wrapper in
                match err with
                | Some err =>
                    counter_inc sessionErrorCounterName [error_Error err] >>
                    log ErrorLevel "could not update the entity config"
                | None => ret tt
                end >>
                ret Continue
            end
          else
            modify (set_deregister (corev3.Deregister entity)) >>
            let* s := get in
            match Marshal (cfg s) (PEntityConfig entity) with
            | inl _ =>
                log ErrorLevel "session failed to serialize entity config" >>
                ret Continue
            | inr bytes =>
                reconcile (corev3.Subscriptions entity) >>
                when (bool_decide
                        (default "" (corev2.Labels metadata !! ManagedByLabel)
                         = "sensu-agent"))
                  (log DebugLevel
                     "not sending entity update because entity is managed by its agent") >>
                ret (Frame (transport.NewMessage MessageTypeEntityConfig bytes))
            end
      end
  end.

Definition sender_select (sel : Select) : M Turn :=
  match sel with
  | EntityUpdate None =>
      let* cancelled := ask (ctx_Err env) in
      when (negb cancelled)
        (log ErrorLevel "entity updates chan closed, terminating session") >>
      ret Return
  | EntityUpdate (Some (VWatchEvent watchEvent)) =>
      sender_entity_update watchEvent
  | EntityUpdate (Some _) =>
      log ErrorLevel "session received unexpected type: %T" >>
      ret Continue
  | CheckChannel None =>
      let* cancelled := ask (ctx_Err env) in
      when (negb cancelled)
        (log ErrorLevel "check channel closed, terminating session") >>
      ret Return
  | CheckChannel (Some (VCheckRequest request)) =>
      let* s := get in
      match Marshal (cfg s) (PCheckRequest request) with
      | inl _ =>
          log ErrorLevel "session failed to serialize check request" >>
          ret Continue
      | inr configBytes =>
          ret (Frame (transport.NewMessage CheckRequestType configBytes))
      end
  | CheckChannel (Some _) =>
      log ErrorLevel "session received non-config over check channel" >>
      ret Continue
  | CtxDone => ret Return
  end.

(** One turn of the loop: [true] when the loop goes on. *)
Definition sender_turn (sel : Select) : M bool :=
  let* turn := sender_select sel in
  match turn with
  | Continue => ret true
  | Return => ret false
  | Frame msg =>
      log DebugLevel "session - sending message" >>
      let* err := send msg in
      match err with
      | None => ret true
      | Some err =>
          let* cancelled := ask (ctx_Err env) in
          if cancelled then ret false
          else
            match err with
            | ConnectionError _ =>
                counter_inc websocketErrorCounterName
                  ["send"; "ConnectionError"]
            | ClosedError _ =>
                counter_inc websocketErrorCounterName ["send"; "ClosedError"]
            | _ =>
                counter_inc websocketErrorCounterName
                  ["send"; "UnknownError"] >>
                log ErrorLevel "send error"
            end >>
            ret false
      end
  end.

(** The loop of [sender] over what its [select] receives, in order.  The
    deferred function runs when the loop returns; when the list is used
    up the sender waits in its [select]. *)
Fixpoint sender (sels : list Select) : M unit :=
  match sels with
  | [] => ret tt
  | sel :: rest =>
      let* continue := sender_turn sel in
      if continue then sender rest
      else log InfoLevel "shutting down agent session: stopping sender"
  end.

(** *** [Start]

    The body of [Start] after the three goroutines are launched; the
    goroutines run beside it and are not part of it. *)

Definition strip_managed_by (e : corev3.EntityConfig) (meta : corev2.ObjectMeta)
  : corev3.EntityConfig :=
  {| corev3.Metadata := Some
       {| corev2.Name := corev2.Name meta;
          corev2.Namespace := corev2.Namespace meta;
          corev2.Labels := delete ManagedByLabel (corev2.Labels meta) |};
     corev3.EntityClass := corev3.EntityClass e;
     corev3.Subscriptions := corev3.Subscriptions e;
     corev3.Deregister := corev3.Deregister e |}.

Definition Start_entity_config : M (option error) :=
  let* s := get in
  let namespace := Namespace (cfg s) in
  let name := AgentName (cfg s) in
  let* res := store_get namespace name EntityConfig_StoreName in
  match res with
  | inl err =>
      match err with
      | ErrNotFound _ =>
          log DebugLevel "no entity config found" >>
          let meta := corev2.NewObjectMeta EntityNotFound namespace in
          let watchEvent :=
            {| store.Action := store.WatchCreate;
               store.Entity := Some
                 {| corev3.Metadata := Some meta;
                    corev3.EntityClass := EntityAgentClass;
                    corev3.Subscriptions := [];
                    corev3.Deregister := false |} |} in
          let* err :=
            publish (EntityConfigTopic namespace name) (MWatchEvent watchEvent) in
          match err with
          | Some err =>
              log ErrorLevel "error publishing entity config" >>
              ret (Some err)
          | None => ret None
          end
      | _ =>
          log ErrorLevel "error querying the entity config" >>
          ret (Some err)
      end
  | inr wrapper =>
      log DebugLevel "an entity config was found" >>
      match storev2.UnwrapInto wrapper with
      | inl err =>
          log ErrorLevel "error unwrapping entity config" >>
          ret (Some err)
      | inr storedEntityConfig =>
          let* metadata := deref (corev3.Metadata storedEntityConfig) in
          let storedEntityConfig :=
            if bool_decide
                 (default "" (corev2.Labels metadata !! ManagedByLabel)
                  = "sensu-agent")
            then strip_managed_by storedEntityConfig metadata
            else storedEntityConfig in
          let watchEvent :=
            {| store.Action := store.WatchUpdate;
               store.Entity := Some storedEntityConfig |} in
          let* err :=
            publish (EntityConfigTopic namespace name) (MWatchEvent watchEvent) in
          match err with
          | Some err =>
              log ErrorLevel "error publishing entity config" >>
              ret (Some err)
          | None =>
              modify (set_Subscriptions
                        (corev3.Subscriptions storedEntityConfig)) >>
              ret None
          end
      end
  end.

Definition Start_body : M (option error) :=
  let* s := get in
  let namespace := Namespace (cfg s) in
  let name := AgentName (cfg s) in
  let topic := EntityConfigTopic namespace name in
  log DebugLevel "subscribing to topic" >>
  let* agentName := agentUUID namespace name in
  let* res := bus_subscribe topic agentName EntityConfigReceiver in
  match res with
  | inl err =>
      log ErrorLevel "error starting subscription" >>
      ret (Some err)
  | inr _ =>
      let* err := Start_entity_config in
      match err with
      | Some err => ret (Some err)
      | None =>
          let* s := get in
          let subs := Subscriptions (cfg s) in
          subscribe subs
      end
  end.

Definition Start : M (option error) :=
  let* s := get in
  emit (EGaugeInc sessionCounterName [Namespace (cfg s)]) >>
  let* err := Start_body in
  match err with
  | Some _ => counter_inc sessionErrorCounterName ["ErrStart"]
  | None => ret tt
  end >>
  ret err.

(** *** The reconciliation of a sequence of subscription lists *)

Fixpoint reconcile_all (lists : list (list string)) : M unit :=
  match lists with
  | [] => ret tt
  | subscriptions :: rest => reconcile subscriptions >> reconcile_all rest
  end.

(** ** Notions used by the statements *)

(** The bus topics of a list of subscription names. *)
Definition topics (namespace : string) (l : list string) : gset string :=
  list_to_set (SubscriptionTopic namespace <$> l).

(** The session is subscribed to exactly the topics of [l]. *)
Definition subscribed_to (s : Session) (l : list string) : Prop :=
  dom (subscriptionsMap s) = topics (Namespace (cfg s)) l.

(** Two sessions differ at most in their subscription map. *)
Definition same_frame (s s' : Session) : Prop :=
  cfg s' = cfg s /\ ringPool s' = ringPool s /\ deregister s' = deregister s.

(** The effects of the ring clean-up of [unsubscribe] for a list of
    names, in the words of the specification: a name with the prefix
    ["entity:"] has no ring; for every other name [Remove] is called for
    the agent on the ring of the name, under a context of one second; a
    failed removal is counted and nothing else; and a failed removal
    whose context has expired ends the clean-up. *)
Inductive ring_cleanup (namespace agent : string)
  : list string -> list Effect -> Prop :=
| ring_cleanup_done :
    ring_cleanup namespace agent [] []
| ring_cleanup_entity sub rest effects :
    HasPrefix sub "entity:" = true ->
    ring_cleanup namespace agent rest effects ->
    ring_cleanup namespace agent (sub :: rest) effects
| ring_cleanup_removed sub rest effects expired :
    HasPrefix sub "entity:" = false ->
    ring_cleanup namespace agent rest effects ->
    ring_cleanup namespace agent (sub :: rest)
      (ERingRemove (ringv2_Path namespace sub) agent time_Second None expired
       :: effects)
| ring_cleanup_failed sub rest effects err :
    HasPrefix sub "entity:" = false ->
    ring_cleanup namespace agent rest effects ->
    ring_cleanup namespace agent (sub :: rest)
      (ERingRemove (ringv2_Path namespace sub) agent time_Second (Some err)
         false
       :: ECounterInc sessionErrorCounterName ["ring.Remove"]
       :: effects)
| ring_cleanup_abandoned sub rest err :
    HasPrefix sub "entity:" = false ->
    ring_cleanup namespace agent (sub :: rest)
      [ERingRemove (ringv2_Path namespace sub) agent time_Second (Some err)
         true;
       ECounterInc sessionErrorCounterName ["ring.Remove"]].

(** The placeholder that [Start] publishes when the store holds no
    entity config for the agent. *)
Definition not_found_event (namespace : string) : store.WatchEventEntityConfig :=
  {| store.Entity := Some
       {| corev3.Metadata := Some (corev2.NewObjectMeta EntityNotFound namespace);
          corev3.EntityClass := EntityAgentClass;
          corev3.Subscriptions := [];
          corev3.Deregister := false |};
     store.Action := store.WatchCreate |}.

(** How [Start] goes on after the publication of the entity config
    event: a failed publication is its result and leaves the session as
    it was; otherwise the session [s] subscribes to [subs], from some
    history, and the result of that is the result of [Start]. *)
Definition Start_continues (perr : option error) (subs : list string)
    (s : Session) (st : State) (o : Outcome (option error)) (st' : State)
  : Prop :=
  match perr with
  | Some err => o = Done (Some err) /\ session st' = session st
  | None =>
      exists before o1 st1,
        subscribe subs {| session := s; history := before |} = (Done o1, st1) /\
        o = Done o1 /\ session st' = session st1
  end.

Definition subscribe_never_fails : Prop :=
  forall h topic consumer r,
    exists sub, bus_Subscribe env h topic consumer r = inr sub.

Definition cancel_never_fails : Prop :=
  forall h sub, subscription_Cancel env h sub = None.

End SessionCode.

(** The kinds of effects of [subscribe]: log lines, the fresh
    identifier and the subscriptions themselves. *)
Definition subscribe_effect (e : Effect) : bool :=
  match e with
  | ELog _ _ | EUUID _ | ESubscribe _ _ _ _ => true
  | _ => false
  end.

Definition is_store_get (e : Effect) : bool :=
  match e with EStoreGet _ _ _ _ => true | _ => false end.

Definition is_cancel (e : Effect) : bool :=
  match e with ECancel _ _ => true | _ => false end.

Definition is_log (e : Effect) : bool :=
  match e with ELog _ _ => true | _ => false end.

Definition is_publish (e : Effect) : bool :=
  match e with EPublish _ _ _ => true | _ => false end.

Definition is_send (e : Effect) : bool :=
  match e with ESend _ _ => true | _ => false end.

Definition is_ring_remove (e : Effect) : bool :=
  match e with ERingRemove _ _ _ _ _ => true | _ => false end.

(** The effects a computation added to the history. *)
Definition effects_since (st st' : State) : list Effect :=
  drop (length (history st)) (history st').

(** ** A sample deployment

    Values for the imported constants and collaborators that answer
    every call, for the examples below.  The topic and path functions
    join their parts with colons. *)

Module Sample.

Definition validate (e : corev2.Event) : option error :=
  match corev2.Event_Entity e with
  | None => Some (errors_New "event must contain an entity")
  | Some _ => None
  end.

#[export] Instance imports : Imports := {|
  EntityAgentClass := "agent";
  KeepaliveCheckName := "keepalive";
  ManagedByLabel := "sensu.io/managed_by";
  CheckRequestType := "check_request";
  Validate := validate;
  EntityNotFound := "entity-not-found";
  EntityConfig_StoreName := "entity_configs";
  TopicKeepalive := "sensu:keepalive";
  EntityConfigTopic := fun namespace name =>
    "sensu:entity-config:" +:+ namespace +:+ ":" +:+ name;
  SubscriptionTopic := fun namespace sub =>
    "sensu:check:" +:+ namespace +:+ ":" +:+ sub;
  MessageTypeEntityConfig := "entity_config";
  ringv2_Path := fun namespace sub => namespace +:+ "/" +:+ sub;
  WrapResource := fun e => inr {| storev2.UnwrapInto := inr e |}
|}.

(** Collaborators that never fail; the store holds no entity config. *)
Definition reliable : Collaborators := {|
  bus_Publish := fun _ _ _ => None;
  bus_Subscribe := fun h _ _ _ => inr (N.of_nat (length h));
  subscription_Cancel := fun _ _ => None;
  storev2_Get := fun _ _ _ _ => inl (ErrNotFound "key not found");
  storev2_CreateOrUpdate := fun _ _ _ => None;
  conn_Send := fun _ _ => None;
  ring_Remove := fun _ _ _ _ => (None, false);
  uuid_New := fun _ => "0000";
  ctx_Err := fun _ => false
|}.

Definition marshal (m : ProtoMessage) : error + bytes :=
  match m with
  | PEntityConfig _ => inr [Byte.x65]
  | PCheckRequest _ => inr [Byte.x63]
  end.

(** A toy decoding: the byte [0x00] gives an event with timestamp 0, the
    byte [0xff] an event without entity, any other byte an event with
    timestamp 1. *)
Definition unmarshal (payload : bytes) : error + corev2.Event :=
  match payload with
  | [] => inl (ErrorString "unexpected end of input")
  | b :: _ =>
      inr {| corev2.Event_ObjectMeta := corev2.NewObjectMeta "" "default";
             corev2.Event_Entity :=
               match b with
               | Byte.xff => None
               | _ => Some
                 {| corev2.Entity_ObjectMeta :=
                      corev2.NewObjectMeta "node-1" "default";
                    corev2.Subscriptions := ["disk"];
                    corev2.EntityClass := "agent" |}
               end;
             corev2.Event_Check := None;
             corev2.Timestamp := match b with Byte.x00 => 0 | _ => 1 end |}
  end.

Definition config (subscriptions : list string) : SessionConfig := {|
  ContentType := "application/json";
  Namespace := "default";
  AgentAddr := "127.0.0.1:3001";
  AgentName := "node-1";
  User := "agent";
  Subscriptions := subscriptions;
  WriteTimeout := 15;
  RingPool_ := Some RingPoolRef;
  Marshal := marshal;
  Unmarshal := unmarshal
|}.

(** The session as [NewSession] leaves it. *)
Definition new_session (subscriptions : list string) : Session := {|
  cfg := config subscriptions;
  ringPool := Some RingPoolRef;
  subscriptionsMap := ∅;
  deregister := false
|}.

Definition start (s : Session) : State := {| session := s; history := [] |}.

(** An update of the entity config of the agent, with the given labels. *)
Definition update (labels : gmap string string) (subscriptions : list string)
  : store.WatchEventEntityConfig :=
  {| store.Entity := Some
       {| corev3.Metadata := Some
            {| corev2.Name := "node-1"; corev2.Namespace := "default";
               corev2.Labels := labels |};
          corev3.EntityClass := "agent";
          corev3.Subscriptions := subscriptions;
          corev3.Deregister := false |};
     store.Action := store.WatchUpdate |}.

(** A bus that refuses the subscriptions to one topic. *)
Definition refusing (topic : string) : Collaborators := {|
  bus_Publish := bus_Publish reliable;
  bus_Subscribe := fun h t _ _ =>
    if String.eqb t topic then inl (ErrorString "subscription refused")
    else inr (N.of_nat (length h));
  subscription_Cancel := subscription_Cancel reliable;
  storev2_Get := storev2_Get reliable;
  storev2_CreateOrUpdate := storev2_CreateOrUpdate reliable;
  conn_Send := conn_Send reliable;
  ring_Remove := ring_Remove reliable;
  uuid_New := uuid_New reliable;
  ctx_Err := ctx_Err reliable
|}.

(** A bus whose subscriptions cannot be cancelled. *)
Definition uncancellable : Collaborators := {|
  bus_Publish := bus_Publish reliable;
  bus_Subscribe := bus_Subscribe reliable;
  subscription_Cancel := fun _ _ => Some (ErrorString "subscription busy");
  storev2_Get := storev2_Get reliable;
  storev2_CreateOrUpdate := storev2_CreateOrUpdate reliable;
  conn_Send := conn_Send reliable;
  ring_Remove := ring_Remove reliable;
  uuid_New := uuid_New reliable;
  ctx_Err := ctx_Err reliable
|}.

(** A store that answers every [Get] with the same result. *)
Definition store_answering (res : error + storev2.Wrapper) : Collaborators := {|
  bus_Publish := bus_Publish reliable;
  bus_Subscribe := bus_Subscribe reliable;
  subscription_Cancel := subscription_Cancel reliable;
  storev2_Get := fun _ _ _ _ => res;
  storev2_CreateOrUpdate := storev2_CreateOrUpdate reliable;
  conn_Send := conn_Send reliable;
  ring_Remove := ring_Remove reliable;
  uuid_New := uuid_New reliable;
  ctx_Err := ctx_Err reliable
|}.

(** A store that answers every [Get] with the same result, and a bus
    that refuses every publication. *)
Definition publish_failing (res : error + storev2.Wrapper) : Collaborators := {|
  bus_Publish := fun _ _ _ => Some (ErrorString "bus closed");
  bus_Subscribe := bus_Subscribe reliable;
  subscription_Cancel := subscription_Cancel reliable;
  storev2_Get := fun _ _ _ _ => res;
  storev2_CreateOrUpdate := storev2_CreateOrUpdate reliable;
  conn_Send := conn_Send reliable;
  ring_Remove := ring_Remove reliable;
  uuid_New := uuid_New reliable;
  ctx_Err := ctx_Err reliable
|}.

(** The stored entity config of the second scenario of the
    specification: subscriptions [net] and [ram], managed by the agent. *)
Definition stored_config : corev3.EntityConfig :=
  {| corev3.Metadata := Some
       {| corev2.Name := "node-1"; corev2.Namespace := "default";
          corev2.Labels := {[ "sensu.io/managed_by" := "sensu-agent" ]} |};
     corev3.EntityClass := "agent";
     corev3.Subscriptions := ["net"; "ram"];
     corev3.Deregister := false |}.

(** Rings that cannot be reached: every removal fails, and from the
    second removal on the bounded context has expired. *)
Definition unreachable_rings : Collaborators := {|
  bus_Publish := bus_Publish reliable;
  bus_Subscribe := bus_Subscribe reliable;
  subscription_Cancel := subscription_Cancel reliable;
  storev2_Get := storev2_Get reliable;
  storev2_CreateOrUpdate := storev2_CreateOrUpdate reliable;
  conn_Send := conn_Send reliable;
  ring_Remove := fun h _ _ _ =>
    (Some (ErrorString "etcdserver: request timed out"),
     bool_decide (filter is_ring_remove h <> []));
  uuid_New := uuid_New reliable;
  ctx_Err := ctx_Err reliable
|}.

End Sample.

(** ** Further notions used by the statements *)

Definition is_subscribe (e : Effect) : bool :=
  match e with ESubscribe _ _ _ _ => true | _ => false end.

(** The kinds of effects of the reconciliation: those of [subscribe],
    the cancellations, the ring removals and their error counter. *)
Definition reconcile_effect (e : Effect) : bool :=
  match e with
  | ELog _ _ | EUUID _ | ESubscribe _ _ _ _ | ECancel _ _
  | ERingRemove _ _ _ _ _ | ECounterInc _ _ => true
  | _ => false
  end.

(** Where a frame of the sender comes from: a watch event that is not a
    deletion and carries an entity of the agent class, or a check
    request; the payload is what [Marshal] gives for it. *)
Definition frame_source `{imports : Imports} (sel : Select) (s : Session)
    (msg : transport.Message) : Prop :=
  match sel with
  | EntityUpdate (Some (VWatchEvent w)) =>
      exists entity,
        store.Entity w = Some entity /\
        store.Action w <> store.WatchDelete /\
        store.Action w <> store.WatchUnknown /\
        corev3.EntityClass entity = EntityAgentClass /\
        Marshal (cfg s) (PEntityConfig entity) = inr (transport.Payload msg) /\
        transport.Type_ msg = MessageTypeEntityConfig
  | CheckChannel (Some (VCheckRequest r)) =>
      Marshal (cfg s) (PCheckRequest r) = inr (transport.Payload msg) /\
      transport.Type_ msg = CheckRequestType
  | _ => False
  end.

(** The kinds of effects of [Start] between the increment of the gauge
    and the error counter: log lines, the fresh identifiers, the
    subscriptions, the question to the store and the publication. *)
Definition start_effect (e : Effect) : bool :=
  match e with
  | ELog _ _ | EUUID _ | ESubscribe _ _ _ _ | EStoreGet _ _ _ _
  | EPublish _ _ _ => true
  | _ => false
  end.

Definition is_store_update (e : Effect) : bool :=
  match e with EStoreCreateOrUpdate _ _ => true | _ => false end.

(** ** The receiver, the event handler and the stop of the session

    These parts of the session use more of the transport (receive,
    close), the event size summary and the gauge decrement.  Their
    effects extend those above: an effect of the first kind is kept as
    it is under [Base]. *)

(** Constants and functions of the imported packages that only these
    parts use; like [Imports], parameters. *)
Class EventImports := {
  TopicKeepaliveRaw : string;               (* messaging.TopicKeepaliveRaw *)
  TopicEventRaw : string;                   (* messaging.TopicEventRaw *)
  HasCheck : corev2.Event -> bool;          (* Event.HasCheck *)
  HasMetrics : corev2.Event -> bool;        (* Event.HasMetrics *)
  EventTypeLabelCheck : string;             (* metrics.EventTypeLabelCheck *)
  EventTypeLabelMetrics : string;           (* metrics.EventTypeLabelMetrics *)
  EventTypeLabelCheckAndMetrics : string;   (* metrics.EventTypeLabelCheckAndMetrics *)
  MessageTypeKeepalive : string;            (* transport.MessageTypeKeepalive *)
  MessageTypeEvent : string;                (* transport.MessageTypeEvent *)
  (** the error of [MessageHandler.Handle] for a type without handler *)
  handler_missing : string -> error
}.

Definition EventBytesSummaryName : string := "sensu_go_agentd_event_bytes".

Inductive SessionEffect : Type :=
| Base (e : Effect)
(** [eventBytesSummary.WithLabelValues(label).Observe(float64(size))] *)
| EObserve (summary label : string) (size : nat)
| EGaugeDec (name : string) (labels : list string)
| EClosed (closed : bool)
| ESendCloseMessage (err : option error)
| EClose (err : option error)
(** [go s.Stop()] *)
| EGoStop.

(** The surroundings of a whole session: the transport calls that the
    collaborators above do not have, the contexts, and the collaborators
    themselves, all as functions of the trace so far. *)
Record Surroundings := {
  collaborators : list SessionEffect -> Collaborators;
  conn_Closed : list SessionEffect -> bool;
  conn_SendCloseMessage : list SessionEffect -> option error;
  conn_Close : list SessionEffect -> option error;
  (** whether the context of the session is cancelled *)
  session_ctx_Err : list SessionEffect -> bool;
  (** whether the context of the handler (the context of the session
      with the write timeout) is done *)
  handler_ctx_Err : list SessionEffect -> bool
}.

Record Whole := { session_of : Session; trace : list SessionEffect }.

Definition W (A : Type) : Type := Whole -> Outcome A * Whole.

Definition wret {A} (a : A) : W A := fun st => (Done a, st).

Definition wbind {A B} (c : W A) (k : A -> W B) : W B :=
  fun st =>
    match c st with
    | (Done a, st') => k a st'
    | (Panic, st') => (Panic, st')
    end.

Notation "'let**' x ':=' c 'in' k" := (wbind c (fun x => k))
  (at level 10, x pattern, c at level 100, k at level 200).
Notation "c '>>>' k" := (wbind c (fun _ => k))
  (at level 100, k at level 200, right associativity).

Definition wget : W Session := fun st => (Done (session_of st), st).

Definition wemit (e : SessionEffect) : W unit :=
  fun st =>
    (Done tt, {| session_of := session_of st; trace := trace st ++ [e] |}).

Definition wask {A} (f : list SessionEffect -> A) : W A :=
  fun st => (Done (f (trace st)), st).

Definition wderef {A} (p : option A) : W A :=
  fun st => match p with Some a => (Done a, st) | None => (Panic, st) end.

(** Running code of the first kind inside the whole session: it meets
    the collaborators that the trace so far gives, and its effects are
    appended to the trace. *)
Definition lift {A} (sur : Surroundings) (c : Collaborators -> M A) : W A :=
  fun st =>
    let '(o, st') :=
      c (collaborators sur (trace st))
        {| session := session_of st; history := [] |} in
    (o, {| session_of := session st';
           trace := trace st ++ (Base <$> history st') |}).

Section WholeSession.

Context `{imports : Imports} `{event_imports : EventImports}
        (sur : Surroundings).

Definition wlog (level : LogLevel) (msg : string) : W unit :=
  wemit (Base (ELog level msg)).

Definition wcounter_inc (name : string) (labels : list string) : W unit :=
  wemit (Base (ECounterInc name labels)).

Definition observe (label : string) (size : nat) : W unit :=
  wemit (EObserve EventBytesSummaryName label size).

(** *** [handleEvent] *)

Definition handleEvent (payload : bytes) : W (option error) :=
  let** s := wget in
  match Unmarshal (cfg s) payload with
  | inl err => wret (Some err)
  | inr event =>
      match Validate event with
      | Some err => wret (Some err)
      | None =>
          let** entity := wderef (corev2.Event_Entity event) in
          let event :=
            {| corev2.Event_ObjectMeta := corev2.Event_ObjectMeta event;
               corev2.Event_Entity := Some
                 {| corev2.Entity_ObjectMeta := corev2.Entity_ObjectMeta entity;
                    corev2.Subscriptions :=
                      AddEntitySubscription
                        (corev2.Name (corev2.Entity_ObjectMeta entity))
                        (corev2.Subscriptions entity);
                    corev2.EntityClass := corev2.EntityClass entity |};
               corev2.Event_Check := corev2.Event_Check event;
               corev2.Timestamp := corev2.Timestamp event |} in
          if HasCheck event then
            (if HasMetrics event
             then observe EventTypeLabelCheckAndMetrics (length payload)
             else observe EventTypeLabelCheck (length payload)) >>>
            let** check := wderef (corev2.Event_Check event) in
            if decide (corev2.Name (corev2.Check_ObjectMeta check)
                       = KeepaliveCheckName)
            then lift sur (fun env => publish env TopicKeepaliveRaw (MEvent event))
            else lift sur (fun env => publish env TopicEventRaw (MEvent event))
          else
            (if HasMetrics event
             then observe EventTypeLabelMetrics (length payload)
             else wret tt) >>>
            lift sur (fun env => publish env TopicEventRaw (MEvent event))
      end
  end.

(** *** [newSessionHandler] and the dispatch of a message *)

(** The table of [newSessionHandler]; [AddHandler] on a type that has a
    handler replaces it. *)
Definition newSessionHandler : gmap string (bytes -> W (option error)) :=
  <[MessageTypeEvent := handleEvent]>
    (<[MessageTypeKeepalive :=
         fun payload => lift sur (fun env => handleKeepalive env payload)]> ∅).

(** Modelled from the spec: [handler.MessageHandler] is not part of the
    sources at hand.  [Handle] dispatches on the type of the message
    through the table; a type without handler is an error. *)
Definition Handle (handlers : gmap string (bytes -> W (option error)))
    (msgType : string) (payload : bytes) : W (option error) :=
  match handlers !! msgType with
  | Some handle => handle payload
  | None => wret (Some (handler_missing msgType))
  end.

(** *** The receiver *)

(** One turn of the loop of [receiver], for what [conn.Receive] returns:
    [true] when the loop goes on. *)
Definition receiver_turn (received : error + transport.Message) : W bool :=
  let** cancelled := wask (session_ctx_Err sur) in
  if cancelled then wret false
  else
    match received with
    | inl err =>
        let** cancelled := wask (session_ctx_Err sur) in
        if cancelled then wret false
        else
          match err with
          | ConnectionError _ =>
              wcounter_inc websocketErrorCounterName ["recv"; "ConnectionError"] >>>
              wlog WarnLevel "stopping session"
          | ClosedError _ =>
              wcounter_inc websocketErrorCounterName ["recv"; "ClosedError"] >>>
              wlog WarnLevel "stopping session"
          | _ =>
              wcounter_inc websocketErrorCounterName ["recv"; "UnknownError"] >>>
              wlog ErrorLevel "recv error"
          end >>>
          wret false
    | inr msg =>
        let** err :=
          Handle newSessionHandler (transport.Type_ msg) (transport.Payload msg) in
        match err with
        | None => wret true
        | Some err =>
            let** done := wask (handler_ctx_Err sur) in
            if done then wret false
            else
              wlog ErrorLevel "error handling message" >>>
              match err with
              | ErrInternal _ =>
                  let** done := wask (handler_ctx_Err sur) in
                  if done then wret tt
                  else
                    wcounter_inc sessionErrorCounterName ["store.ErrInternal"] >>>
                    wlog ErrorLevel "internal error - stopping session" >>>
                    wemit EGoStop
              | _ => wret tt
              end >>>
              wret true
        end
    end.

(** The loop of [receiver] over what [conn.Receive] returns, in order:
    [false] when the loop has returned, [true] when the list is used up
    and the receiver waits in [conn.Receive]. *)
Fixpoint receiver_loop (received : list (error + transport.Message)) : W bool :=
  match received with
  | [] => wret true
  | r :: rest =>
      let** continue := receiver_turn r in
      if continue then receiver_loop rest else wret false
  end.

(** [receiver]: the deferred function logs when the loop returns, also
    when it panics. *)
Definition receiver (received : list (error + transport.Message)) : W bool :=
  fun st =>
    match receiver_loop received st with
    | (Done true, st') => (Done true, st')
    | (Done false, st') =>
        (Done false,
         (wlog InfoLevel "shutting down agent session: stopping receiver" st').2)
    | (Panic, st') =>
        (Panic,
         (wlog InfoLevel "shutting down agent session: stopping receiver" st').2)
    end.

(** *** [stop] *)

(** The loop of [stop] over the entity config subscriptions that the
    channel of the session delivers. *)
Fixpoint stop_cancel_loop (subscriptions : list Subscription) : W unit :=
  match subscriptions with
  | [] => wret tt
  | sub :: rest =>
      let** err := lift sur (fun env => cancel env sub) in
      match err with
      | Some _ => wlog ErrorLevel "unable to unsubscribe from message bus"
      | None => wret tt
      end >>>
      stop_cancel_loop rest
  end.

(** The deferred closing of the transport. *)
Definition stop_close : W unit :=
  let** err := wask (conn_Close sur) in
  wemit (EClose err) >>>
  match err with
  | Some _ =>
      wcounter_inc websocketErrorCounterName ["close"; "CloseSession"] >>>
      wlog ErrorLevel "error closing session"
  | None => wret tt
  end.

(** The body of [stop], before the deferred closing;
    [entitySubscriptions] is what the channel of the entity config
    subscriptions delivers until it is closed.  The closing of the two
    channels of the sender at the end belongs to the scheduling. *)
Definition stop_body (entitySubscriptions : list Subscription) : W unit :=
  let** closed := wask (conn_Closed sur) in
  wemit (EClosed closed) >>>
  (if negb closed then
     let** err := wask (conn_SendCloseMessage sur) in
     wemit (ESendCloseMessage err) >>>
     match err with
     | Some _ =>
         wcounter_inc websocketErrorCounterName ["send"; "SendCloseMessage"] >>>
         wlog WarnLevel
           "unexpected error while sending a close message to the agent"
     | None => wret tt
     end
   else wret tt) >>>
  let** s := wget in
  wemit (EGaugeDec sessionCounterName [Namespace (cfg s)]) >>>
  stop_cancel_loop entitySubscriptions >>>
  let** s := wget in
  let subs := Subscriptions (cfg s) in
  lift sur (fun env => unsubscribe env subs).

(** [stop]: the body, then the deferred closing, which runs also when
    the body panics. *)
Definition stop (entitySubscriptions : list Subscription) : W unit :=
  fun st =>
    let '(o, st') := stop_body entitySubscriptions st in
    match stop_close st' with
    | (Done _, st'') => (o, st'')
    | (Panic, st'') => (Panic, st'')
    end.

End WholeSession.

(** The publications in a trace, as topic and message. *)
Definition publications (t : list SessionEffect) : list (string * BusMessage) :=
  omap (fun e => match e with
                 | Base (EPublish topic msg _) => Some (topic, msg)
                 | _ => None
                 end) t.

(** The effects a computation of the whole session added to the trace. *)
Definition trace_since (st st' : Whole) : list SessionEffect :=
  drop (length (trace st)) (trace st').

(** The kinds of effects of the receiver and of the handlers: log
    lines, error counters, publications, observations of the size of an
    event, and the start of [Stop]. *)
Definition receiver_effect (e : SessionEffect) : bool :=
  match e with
  | Base (ELog _ _) | Base (ECounterInc _ _) | Base (EPublish _ _ _)
  | EObserve _ _ _ | EGoStop => true
  | _ => false
  end.

(** The messages that have a handler. *)
Definition handled `{event_imports : EventImports}
    (r : error + transport.Message) : bool :=
  match r with
  | inr msg =>
      bool_decide (transport.Type_ msg = MessageTypeKeepalive)
      || bool_decide (transport.Type_ msg = MessageTypeEvent)
  | inl _ => false
  end.

(** The handles on which [Cancel] was called, in order. *)
Definition cancelled (t : list SessionEffect) : list Subscription :=
  omap (fun e => match e with
                 | Base (ECancel sub _) => Some sub
                 | _ => None
                 end) t.

Definition is_cancel_loop_effect (e : SessionEffect) : bool :=
  match e with Base (ELog _ _) | Base (ECancel _ _) => true | _ => false end.

(** The changes of the session gauge in a trace. *)
Definition is_gauge (e : SessionEffect) : bool :=
  match e with Base (EGaugeInc _ _) | EGaugeDec _ _ => true | _ => false end.

(** The calls on the transport in a trace. *)
Definition is_transport (e : SessionEffect) : bool :=
  match e with
  | Base (ESend _ _) | EClosed _ | ESendCloseMessage _ | EClose _ => true
  | _ => false
  end.

(** An effect of the receiver that is no publication. *)
Definition quiet (e : SessionEffect) : Prop :=
  receiver_effect e = true /\
  match e with Base (EPublish _ _ _) => False | _ => True end.

(** What a handler leaves: the session as it was, and at most [n]
    publications, on the given topics. *)
Definition handler_run {A} (n : nat) (tops : list string) (c : W A)
    (st : Whole) : Prop :=
  exists o st' evs,
    c st = (o, st') /\ session_of st' = session_of st /\
    trace st' = trace st ++ evs /\
    Forall (fun e => receiver_effect e = true) evs /\
    (length (publications evs) <= n)%nat /\
    Forall (fun p => p.1 ∈ tops) (publications evs).


(** * The command [init] of the backend (package [cmd])

    The flags come from [viper], the answers of the questionnaire from
    [survey], the client and the seeding from the packages [backend] and
    [seeds]: they are inputs here, and the calls are recorded. *)

Module cmd.

(** Go errors with wrapping: [errors.New] and [fmt.Errorf] without [%w]
    give [New], [fmt.Errorf] with [%w] gives [Wrap]. *)
Inductive goerror : Type :=
| ErrAlreadyInitialized                     (* seeds.ErrAlreadyInitialized *)
| New (msg : string)
| Wrap (msg : string) (err : goerror).

#[export] Instance goerror_eq_dec : EqDecision goerror.
Proof. solve_decision. Defined.

(** [errors.Is]: the chain of [Unwrap] holds the target. *)
Fixpoint errors_Is (err target : goerror) : bool :=
  if decide (err = target) then true
  else match err with
       | Wrap _ inner => errors_Is inner target
       | _ => false
       end.

(** [time.Duration] is a signed 64-bit count of nanoseconds; its
    product wraps around. *)
Definition wrap64 (z : Z) : Z :=
  ((z + 2 ^ 63) mod 2 ^ 64 - 2 ^ 63)%Z.

Definition Duration_mul (a b : Z) : Z := wrap64 (a * b).

(** What [viper] holds for the flags that [RunE] reads. *)
Record Flags := {
  flagDevMode : bool;
  flagPGConfigStoreDSN : string;
  flagPGStateStoreDSN : string;
  flagTimeout : Z;
  flagInitAdminUsername : string;
  flagInitAdminPassword : string;
  flagInitAdminAPIKey : string;
  flagInteractive : bool;
  flagIgnoreAlreadyInitialized : bool
}.

Record postgres_Config := { DSN : string }.

Record etcdstorev1_Config := { UseEmbeddedClient : bool }.

(** [backend.StoreConfig] and [backend.Config], with the fields that
    the command reads or writes. *)
Record StoreConfig := {
  ConfigurationStore : string;
  PostgresConfigurationStore : postgres_Config;
  PostgresStateStore : postgres_Config;
  EtcdConfigurationStore : etcdstorev1_Config
}.

Record backend_Config := { DevMode : bool; Store : StoreConfig }.

Record seeds_Config := {
  AdminUsername : string;
  AdminPassword : string;
  AdminAPIKey : string
}.

Record initConfig := {
  Config : backend_Config;
  SeedConfig : seeds_Config;
  Timeout : Z
}.

Record initOpts := {
  opts_AdminUsername : string;
  opts_AdminPassword : string;
  opts_AdminPasswordConfirmation : string;
  opts_AdminAPIKey : string
}.

(** The surroundings of the command. *)
Record Outside := {
  (** [anyConfig], of another file of the package *)
  anyConfig : etcdstorev1_Config -> bool;
  (** the result of [handleConfig] *)
  setupErr : option goerror;
  (** [survey.Ask]: an error, or the answers *)
  survey_Ask : goerror + initOpts;
  (** [devModeClient] under a context with the timeout: an error, or a
      client *)
  devModeClient : Z -> backend_Config -> option goerror;
  (** [seeds.SeedCluster] under the same context *)
  SeedCluster : Z -> seeds_Config -> option goerror
}.

Inductive InitEffect : Type :=
| ESurveyAsk
| EDevModeClient (timeout : Z) (c : backend_Config) (err : option goerror)
| ESeedCluster (timeout : Z) (c : seeds_Config) (err : option goerror)
| EClientClose
| ELoggerError (err : goerror).

Definition initConfig_Validate (c : initConfig) : option goerror :=
  if bool_decide (AdminUsername (SeedConfig c) = "")
     || bool_decide (AdminPassword (SeedConfig c) = "")
  then Some (New
    "both cluster-admin-username and cluster-admin-password are required to be set (or an API key)")
  else None.

Definition initializeDevModeStore (out : Outside) (ctx : Z)
    (initConfig : initConfig) : option goerror * list InitEffect :=
  match devModeClient out ctx (Config initConfig) with
  | Some err => (Some err, [EDevModeClient ctx (Config initConfig) (Some err)])
  | None =>
      let opened := EDevModeClient ctx (Config initConfig) None in
      let err := SeedCluster out ctx (SeedConfig initConfig) in
      let seeded := ESeedCluster ctx (SeedConfig initConfig) err in
      (* the deferred [client.Close] runs on every return *)
      match err with
      | Some err =>
          if errors_Is err ErrAlreadyInitialized
          then (Some err, [opened; seeded; EClientClose])
          else (Some (Wrap "error seeding cluster, is cluster healthy? " err),
                [opened; seeded; EClientClose])
      | None => (None, [opened; seeded; EClientClose])
      end
  end.

Definition initializeStore (out : Outside) (initConfig : initConfig)
    : option goerror * list InitEffect :=
  let ctx := Timeout initConfig in
  if DevMode (Config initConfig)
  then initializeDevModeStore out ctx initConfig
  else (None, []).

(** The function [RunE] of [InitCommand]. *)
Definition RunE (out : Outside) (viper : Flags)
    : option goerror * list InitEffect :=
  match setupErr out with
  | Some err => (Some err, [])
  | None =>
      let devMode := flagDevMode viper in
      let cfg :=
        {| DevMode := devMode;
           Store :=
             {| ConfigurationStore := "";
                PostgresConfigurationStore :=
                  {| DSN := flagPGConfigStoreDSN viper |};
                PostgresStateStore := {| DSN := flagPGStateStoreDSN viper |};
                EtcdConfigurationStore :=
                  {| UseEmbeddedClient := flagDevMode viper |} |} |} in
      if negb (bool_decide (ConfigurationStore (Store cfg) = "etcd"))
         && anyConfig out (EtcdConfigurationStore (Store cfg))
      then (Some (New
              "etcd configuration specified, but config-store is not etcd"),
            [])
      else
        let timeout := flagTimeout viper in
        let timeout :=
          if (timeout <? 1 * time_Second)%Z
          then Duration_mul timeout time_Second
          else timeout in
        let initCfg :=
          {| Config := cfg;
             SeedConfig :=
               {| AdminUsername := flagInitAdminUsername viper;
                  AdminPassword := flagInitAdminPassword viper;
                  AdminAPIKey := flagInitAdminAPIKey viper |};
             Timeout := timeout |} in
        let asked : (goerror + initConfig) * list InitEffect :=
          if flagInteractive viper then
            match survey_Ask out with
            | inl err => (inl err, [ESurveyAsk])
            | inr opts =>
                if negb (bool_decide (opts_AdminPassword opts
                                      = opts_AdminPasswordConfirmation opts))
                then (inl (New
                        "Password confirmation doesn't match the password"),
                      [ESurveyAsk])
                else
                  (inr {| Config := Config initCfg;
                          SeedConfig :=
                            {| AdminUsername := opts_AdminUsername opts;
                               AdminPassword := opts_AdminPassword opts;
                               AdminAPIKey := opts_AdminAPIKey opts |};
                          Timeout := Timeout initCfg |},
                   [ESurveyAsk])
            end
          else (inr initCfg, []) in
        match asked with
        | (inl err, effects) => (Some err, effects)
        | (inr initCfg, effects) =>
            match initConfig_Validate initCfg with
            | Some err => (Some err, effects)
            | None =>
                let '(err, stored) := initializeStore out initCfg in
                match err with
                | Some err =>
                    if errors_Is err ErrAlreadyInitialized then
                      if flagIgnoreAlreadyInitialized viper
                      then (None, effects ++ stored)
                      else (Some err, effects ++ stored)
                    else (Some err, effects ++ stored ++ [ELoggerError err])
                | None => (None, effects ++ stored)
                end
            end
        end
  end.

Definition is_store_effect (e : InitEffect) : bool :=
  match e with
  | EDevModeClient _ _ _ | ESeedCluster _ _ _ | EClientClose => true
  | _ => false
  end.

End cmd.

(** ** More sample data: a whole session and a run of the command *)

Module SampleSession.

#[export] Instance event_imports : EventImports := {|
  TopicKeepaliveRaw := "sensu:keepalive-raw";
  TopicEventRaw := "sensu:event-raw";
  HasCheck := fun e =>
    match corev2.Event_Check e with Some _ => true | None => false end;
  HasMetrics := fun _ => false;
  EventTypeLabelCheck := "check";
  EventTypeLabelMetrics := "metrics";
  EventTypeLabelCheckAndMetrics := "check_and_metrics";
  MessageTypeKeepalive := "keepalive";
  MessageTypeEvent := "event";
  handler_missing := fun _ => ErrorString "no handler available"
|}.

(** Surroundings in which nothing fails and no context is done. *)
Definition surroundings : Surroundings := {|
  collaborators := fun _ => Sample.reliable;
  conn_Closed := fun _ => false;
  conn_SendCloseMessage := fun _ => None;
  conn_Close := fun _ => None;
  session_ctx_Err := fun _ => false;
  handler_ctx_Err := fun _ => false
|}.

Definition whole (s : Session) : Whole := {| session_of := s; trace := [] |}.

(** An entity config of the agent with the class of a proxy entity,
    and its update. *)
Definition proxy_meta : corev2.ObjectMeta :=
  {| corev2.Name := "node-1"; corev2.Namespace := "default";
     corev2.Labels := ∅ |}.

Definition proxy_entity : corev3.EntityConfig :=
  {| corev3.Metadata := Some proxy_meta;
     corev3.EntityClass := "proxy";
     corev3.Subscriptions := ["cpu"];
     corev3.Deregister := false |}.

Definition proxy_update : store.WatchEventEntityConfig :=
  {| store.Entity := Some proxy_entity; store.Action := store.WatchUpdate |}.

(** A store in dev mode that is already initialized. *)
Definition initialized : cmd.Outside := {|
  cmd.anyConfig := fun _ => false;
  cmd.setupErr := None;
  cmd.survey_Ask := inl (cmd.New "interrupt");
  cmd.devModeClient := fun _ _ => None;
  cmd.SeedCluster := fun _ _ => Some cmd.ErrAlreadyInitialized
|}.

Definition flags (devMode : bool) (timeout : Z) (password : string)
  : cmd.Flags := {|
  cmd.flagDevMode := devMode;
  cmd.flagPGConfigStoreDSN := "";
  cmd.flagPGStateStoreDSN := "";
  cmd.flagTimeout := timeout;
  cmd.flagInitAdminUsername := "admin";
  cmd.flagInitAdminPassword := password;
  cmd.flagInitAdminAPIKey := "00000000-0000-0000-0000-000000000000";
  cmd.flagInteractive := false;
  cmd.flagIgnoreAlreadyInitialized := false
|}.

End SampleSession.
(** * Proofs *)

(** ** The order of Go strings *)

Section GoStringFacts.

Lemma Compare_refl a : Compare a a = Eq.
Proof.
  unfold Compare. induction a as [|c a IH]; simpl; [done|].
  unfold Ascii.compare. by rewrite N.compare_refl.
Qed.

Lemma Compare_eq a b : Compare a b = Eq <-> a = b.
Proof.
  split; [apply String.compare_eq_iff|intros ->; apply Compare_refl].
Qed.

Lemma Compare_Gt_Lt a b : Compare a b = Gt <-> Compare b a = Lt.
Proof.
  unfold Compare. rewrite (String.compare_antisym b a).
  destruct (String.compare a b); simpl; split; congruence.
Qed.

Lemma sle_stdpp a b : sle a b <-> String.le a b.
Proof.
  unfold sle, String.le, Compare, String.leb.
  destruct (String.compare a b); simpl; split; (congruence || done).
Qed.

Lemma slt_sle a b : slt a b -> sle a b.
Proof. unfold slt, sle. congruence. Qed.

Lemma slt_irrefl a : ~ slt a a.
Proof. unfold slt. rewrite Compare_refl. congruence. Qed.

Lemma sle_slt_or_eq a b : sle a b -> slt a b \/ a = b.
Proof.
  unfold sle, slt. destruct (Compare a b) eqn:E; try congruence; auto.
  apply Compare_eq in E. auto.
Qed.

#[global] Instance sle_trans : Transitive sle.
Proof.
  intros a b c Hab Hbc. apply sle_stdpp. apply sle_stdpp in Hab, Hbc.
  by etrans.
Qed.

#[global] Instance slt_trans : Transitive slt.
Proof.
  intros a b c Hab Hbc.
  assert (Hac : sle a c) by (etrans; apply slt_sle; eassumption).
  destruct (sle_slt_or_eq _ _ Hac) as [Hlt | ->]; [done|].
  exfalso. apply Compare_Gt_Lt in Hab. apply slt_sle in Hbc. by apply Hbc.
Qed.

End GoStringFacts.

Example diff_example :
  diff ["a"; "b"] ["b"; "c"; "d"] = (["c"; "d"], ["a"]).
Proof. reflexivity. Qed.

Example sortSubscriptions_example :
  sortSubscriptions ["ram"; ""; "net"; "cpu"] = ["cpu"; "net"; "ram"].
Proof. vm_compute. reflexivity. Qed.


(** ** Facts on sorted lists of strings *)

Section SortedFacts.

Lemma Sorted_sle_stdpp (l : list string) : Sorted sle l <-> Sorted String.le l.
Proof.
  split; induction 1 as [|x l Hl IH Hhd]; constructor; auto;
    destruct Hhd; constructor; by apply sle_stdpp.
Qed.

Lemma sorted_NoDup_strictly (l : list string) :
  sorted l -> NoDup l -> strictly_sorted l.
Proof.
  unfold sorted, strictly_sorted. intros Hs Hnd.
  apply (Sorted_StronglySorted sle) in Hs.
  induction Hs as [|x l Hl IH Hall]; [constructor|].
  apply NoDup_cons in Hnd as [Hx Hnd]. constructor; [auto|].
  apply Forall_forall. intros y Hy.
  rewrite Forall_forall in Hall.
  destruct (sle_slt_or_eq x y (Hall y Hy)) as [Hlt | ->]; [done|].
  by destruct Hx.
Qed.

Lemma strictly_sorted_sorted (l : list string) : strictly_sorted l -> sorted l.
Proof.
  unfold sorted, strictly_sorted. intros Hs.
  apply StronglySorted_Sorted.
  induction Hs as [|x l Hl IH Hall]; constructor; [done|].
  eapply Forall_impl; [exact Hall|]. apply slt_sle.
Qed.

Lemma strictly_sorted_NoDup (l : list string) : strictly_sorted l -> NoDup l.
Proof.
  induction 1 as [|x l Hl IH Hall]; constructor; [|done].
  intros Hin. rewrite Forall_forall in Hall.
  by apply (slt_irrefl x), Hall.
Qed.

Lemma strictly_sorted_tail x (l : list string) :
  strictly_sorted (x :: l) -> strictly_sorted l.
Proof. by inversion 1. Qed.

Lemma strictly_sorted_head_notin x (l : list string) :
  strictly_sorted (x :: l) -> x ∉ l.
Proof.
  intros Hs. apply strictly_sorted_NoDup in Hs.
  by apply NoDup_cons in Hs as [? _].
Qed.

(** An element below the head of a strictly sorted list is not in it. *)
Lemma slt_head_notin x y (l : list string) :
  slt x y -> strictly_sorted (y :: l) -> x ∉ y :: l.
Proof.
  intros Hxy Hs Hin. inversion Hs as [|? ? Hl Hall]; subst.
  apply elem_of_cons in Hin as [-> | Hin].
  - by apply (slt_irrefl y).
  - rewrite Forall_forall in Hall.
    apply (slt_irrefl x). etrans; [exact Hxy|]. by apply Hall.
Qed.

Lemma StringsAreSorted_sorted (l : list string) :
  StringsAreSorted l = true <-> sorted l.
Proof.
  unfold sorted. induction l as [|a [|b l] IH]; simpl.
  - split; [constructor|done].
  - split; [repeat constructor|done].
  - rewrite andb_true_iff, negb_true_iff, IH. unfold String.ltb.
    split.
    + intros [Hba Hs]. constructor; [done|]. constructor.
      unfold sle. intros Hgt. apply Compare_Gt_Lt in Hgt.
      unfold Compare in Hgt. by rewrite Hgt in Hba.
    + intros Hs. inversion Hs as [|? ? Hs' Hhd]; subst.
      inversion Hhd as [|? ? Hab]; subst. split; [|done].
      destruct (String.compare b a) eqn:E; try done.
      exfalso. apply Hab. by apply Compare_Gt_Lt.
Qed.

Lemma sort_Strings_sorted (l : list string) : sorted (sort_Strings l).
Proof. apply Sorted_sle_stdpp, Sorted_merge_sort, _. Qed.

Lemma sort_Strings_perm (l : list string) : sort_Strings l ≡ₚ l.
Proof. apply merge_sort_Permutation. Qed.

(** Whatever algorithm [sort.Strings] runs, its result is this list. *)
Lemma sort_Strings_unique (l l' : list string) :
  l' ≡ₚ l -> sorted l' -> l' = sort_Strings l.
Proof.
  intros Hp Hs. apply (Sorted_unique String.le).
  - by apply Sorted_sle_stdpp.
  - apply Sorted_merge_sort, _.
  - by rewrite Hp, sort_Strings_perm.
Qed.

Lemma removeEmptySubscriptions_elem x (l : list string) :
  x ∈ removeEmptySubscriptions l <-> x ∈ l /\ x <> "".
Proof.
  induction l as [|y l IH]; simpl.
  - rewrite elem_of_nil. tauto.
  - destruct (decide (y <> "")) as [Hy|Hy].
    + rewrite !elem_of_cons, IH. intuition congruence.
    + apply dec_stable in Hy. rewrite elem_of_cons, IH. intuition congruence.
Qed.

Lemma removeEmptySubscriptions_id (l : list string) :
  "" ∉ l -> removeEmptySubscriptions l = l.
Proof.
  induction l as [|y l IH]; simpl; [done|].
  rewrite not_elem_of_cons. intros [Hy Hl].
  destruct (decide (y <> "")) as [|Hn]; [by rewrite IH|].
  destruct Hn. congruence.
Qed.

End SortedFacts.

(** ** [diff] on strictly sorted lists *)

Section DiffFacts.

(** What the loop returns, element by element: the names of [new] that
    are not in [old] are appended to [added], those of [old] that are
    not in [new] to [removed]. *)
Lemma diff_loop_elem (old new added removed : list string) :
  strictly_sorted old -> strictly_sorted new ->
  forall x,
    (x ∈ (diff_loop old new added removed).1 <->
       x ∈ added \/ (x ∈ new /\ x ∉ old)) /\
    (x ∈ (diff_loop old new added removed).2 <->
       x ∈ removed \/ (x ∈ old /\ x ∉ new)).
Proof.
  funelim (diff_loop old new added removed); intros Hold Hnew x; simpl.
  - rewrite !elem_of_app, !elem_of_nil. tauto.
  - rewrite !elem_of_app, !elem_of_nil. tauto.
  - (* old[i] = new[j] *)
    apply Compare_eq in Heq as ->.
    pose proof (strictly_sorted_head_notin _ _ Hold) as Ho.
    pose proof (strictly_sorted_head_notin _ _ Hnew) as Hn.
    destruct (H (strictly_sorted_tail _ _ Hold)
                (strictly_sorted_tail _ _ Hnew) x) as [-> ->].
    rewrite !elem_of_cons.
    destruct (decide (x = n)) as [->|Hne]; tauto.
  - (* old[i] < new[j] *)
    pose proof (slt_head_notin _ _ _ Heq Hnew) as Hn.
    pose proof (strictly_sorted_head_notin _ _ Hold) as Ho.
    destruct (H (strictly_sorted_tail _ _ Hold) Hnew x) as [-> ->].
    rewrite !elem_of_app, !elem_of_cons, elem_of_nil.
    rewrite !elem_of_cons in Hn.
    destruct (decide (x = o)) as [->|Hne]; [|tauto].
    split; [tauto|]. split; [intros _; right|]; tauto.
  - (* old[i] > new[j] *)
    apply Compare_Gt_Lt in Heq.
    pose proof (slt_head_notin _ _ _ Heq Hold) as Ho.
    pose proof (strictly_sorted_head_notin _ _ Hnew) as Hn.
    destruct (H Hold (strictly_sorted_tail _ _ Hnew) x) as [-> ->].
    rewrite !elem_of_app, !elem_of_cons, elem_of_nil.
    rewrite !elem_of_cons in Ho.
    destruct (decide (x = n)) as [->|Hne]; [|tauto].
    split; [|tauto]. split; [intros _; right|]; tauto.
Qed.

Lemma diff_added_elem (old new : list string) x :
  strictly_sorted old -> strictly_sorted new ->
  x ∈ (diff old new).1 <-> x ∈ new /\ x ∉ old.
Proof.
  intros Ho Hn. unfold diff.
  destruct (diff_loop_elem old new [] [] Ho Hn x) as [-> _].
  rewrite elem_of_nil. tauto.
Qed.

Lemma diff_removed_elem (old new : list string) x :
  strictly_sorted old -> strictly_sorted new ->
  x ∈ (diff old new).2 <-> x ∈ old /\ x ∉ new.
Proof.
  intros Ho Hn. unfold diff.
  destruct (diff_loop_elem old new [] [] Ho Hn x) as [_ ->].
  rewrite elem_of_nil. tauto.
Qed.

End DiffFacts.

(** C2: on sorted, duplicate-free lists [A] and [B], [diff A B] returns
    [(added, removed)] with [(set A ∪ set added) ∖ set removed = set B],
    no added name in [A] and no removed name in [B]. *)
Theorem diff_sets (A B added removed : list string) :
  sorted A -> NoDup A -> sorted B -> NoDup B ->
  diff A B = (added, removed) ->
  ((list_to_set A ∪ list_to_set added) ∖ list_to_set removed
     = (list_to_set B : gset string)) /\
  (list_to_set added ∩ list_to_set A = (∅ : gset string)) /\
  (list_to_set removed ∩ list_to_set B = (∅ : gset string)).
Proof.
  intros HsA HnA HsB HnB Hd.
  pose proof (sorted_NoDup_strictly _ HsA HnA) as HA.
  pose proof (sorted_NoDup_strictly _ HsB HnB) as HB.
  pose proof (fun x => diff_added_elem A B x HA HB) as Hadd.
  pose proof (fun x => diff_removed_elem A B x HA HB) as Hrem.
  rewrite Hd in Hadd, Hrem. simpl in Hadd, Hrem.
  repeat split; apply set_eq; intros x;
    rewrite ?elem_of_difference, ?elem_of_intersection, ?elem_of_union,
      ?elem_of_list_to_set, ?Hadd, ?Hrem, ?elem_of_empty;
    destruct (decide (x ∈ A)), (decide (x ∈ B)); tauto.
Qed.

Lemma diff_sets_witness :
  ((list_to_set ["a"; "b"] ∪ list_to_set ["c"; "d"]) ∖ list_to_set ["a"]
     = (list_to_set ["b"; "c"; "d"] : gset string)) /\
  (list_to_set ["c"; "d"] ∩ list_to_set ["a"; "b"] = (∅ : gset string)) /\
  (list_to_set ["a"] ∩ list_to_set ["b"; "c"; "d"] = (∅ : gset string)).
Proof.
  apply (diff_sets ["a"; "b"] ["b"; "c"; "d"] ["c"; "d"] ["a"]).
  - repeat constructor; unfold sle; vm_compute; congruence.
  - apply (bool_decide_unpack _). vm_compute. reflexivity.
  - repeat constructor; unfold sle; vm_compute; congruence.
  - apply (bool_decide_unpack _). vm_compute. reflexivity.
  - reflexivity.
Defined.

(** ** [sortSubscriptions] *)

Lemma sortSubscriptions_sorted (L : list string) : sorted (sortSubscriptions L).
Proof.
  unfold sortSubscriptions.
  destruct (StringsAreSorted (removeEmptySubscriptions L)) eqn:E.
  - by apply StringsAreSorted_sorted.
  - apply sort_Strings_sorted.
Qed.

Lemma sortSubscriptions_elem (L : list string) x :
  x ∈ sortSubscriptions L <-> x ∈ L /\ x <> "".
Proof.
  unfold sortSubscriptions.
  destruct (StringsAreSorted (removeEmptySubscriptions L)).
  - apply removeEmptySubscriptions_elem.
  - rewrite sort_Strings_perm. apply removeEmptySubscriptions_elem.
Qed.

Lemma sortSubscriptions_fixed (L : list string) :
  sorted L -> "" ∉ L -> sortSubscriptions L = L.
Proof.
  intros Hs He. unfold sortSubscriptions.
  rewrite (removeEmptySubscriptions_id L He).
  apply StringsAreSorted_sorted in Hs. by rewrite Hs.
Qed.

(** C4: [sortSubscriptions L] is sorted, holds no empty string, and
    sorting it again changes nothing. *)
Theorem sortSubscriptions_sorted_nonempty_idempotent (L : list string) :
  sorted (sortSubscriptions L) /\
  ("" ∉ sortSubscriptions L) /\
  sortSubscriptions (sortSubscriptions L) = sortSubscriptions L.
Proof.
  assert (He : "" ∉ sortSubscriptions L).
  { rewrite sortSubscriptions_elem. tauto. }
  split; [apply sortSubscriptions_sorted|]. split; [done|].
  apply sortSubscriptions_fixed; [apply sortSubscriptions_sorted|done].
Qed.

(** ** The loops of [subscribe] and [unsubscribe] *)

(** One step of symbolic execution of monadic code. *)
Ltac mstep :=
  unfold bind, ret, get, modify, emit, ask, when, log, counter_inc, publish,
    bus_subscribe, cancel, store_get, store_create_or_update, send,
    ring_remove, agentUUID, deref; simpl.

Lemma bind_Done {A B} (c : M A) (k : A -> M B) st a st' :
  c st = (Done a, st') -> bind c k st = k a st'.
Proof. unfold bind. by intros ->. Qed.

Section SessionFacts.

Context `{imports : Imports} (env : Collaborators).


Lemma same_frame_refl s : same_frame s s.
Proof. by repeat split. Qed.

Lemma topics_cons ns x l : topics ns (x :: l) = {[SubscriptionTopic ns x]} ∪ topics ns l.
Proof. reflexivity. Qed.

Lemma elem_of_topics ns t l :
  t ∈ topics ns l <-> exists x, x ∈ l /\ t = SubscriptionTopic ns x.
Proof.
  unfold topics. rewrite elem_of_list_to_set, list_elem_of_fmap.
  split; intros (x & ? & ?); eauto.
Qed.

Lemma subscribe_loop_spec agent subs st :
  exists o st',
    subscribe_loop env agent subs st = (Done o, st') /\
    same_frame (session st) (session st') /\
    (exists evs, history st' = history st ++ evs /\
                 Forall (fun e => subscribe_effect e = true) evs) /\
    (o = None ->
       dom (subscriptionsMap (session st')) =
         dom (subscriptionsMap (session st))
           ∪ topics (Namespace (cfg (session st))) (removeEmptySubscriptions subs)) /\
    (subscribe_never_fails env -> o = None).
Proof.
  revert st. induction subs as [|sub rest IH]; intros st.
  - exists None, st. simpl. mstep. repeat split; auto.
    + exists []. by rewrite app_nil_r.
    + intros _. unfold topics. simpl. set_solver.
  - simpl. destruct (decide (sub = "")) as [->|Hne].
    + simpl. apply IH.
    + destruct (decide (sub <> "")) as [_|Hn]; [|by destruct Hn].
      mstep.
      destruct (subscriptionsMap (session st)
                  !! SubscriptionTopic (Namespace (cfg (session st))) sub)
        as [known|] eqn:Hl.
      * mstep.
        match goal with |- context [subscribe_loop env agent rest ?st1] =>
          destruct (IH st1) as (o & st' & Hrun & Hfr & (evs & Hh & Hev) & Hdom & Hok)
        end.
        simpl in *. exists o, st'. split; [done|]. split; [done|].
        split; [|split; [|done]].
        -- eexists. rewrite Hh, <- app_assoc. split; [done|].
           constructor; done.
        -- intros Ho. rewrite (Hdom Ho), topics_cons.
           apply (elem_of_dom_2 (D:=gset string)) in Hl. set_solver.
      * mstep.
        destruct (bus_Subscribe env _ _ agent SessionReceiver) as [err|sub'] eqn:Hs.
        -- mstep. eexists _, _. split; [done|]. simpl.
           split; [apply same_frame_refl|]. split; [|split; [done|]].
           ++ eexists. rewrite <- !app_assoc. split; [done|].
              repeat constructor.
           ++ intros Hnf.
              destruct (Hnf (history st ++ [ELog DebugLevel "subscribing to %q"])
                          (SubscriptionTopic (Namespace (cfg (session st))) sub)
                          agent SessionReceiver) as [? Hnf'].
              congruence.
        -- mstep.
           match goal with |- context [subscribe_loop env agent rest ?st1] =>
             destruct (IH st1) as (o & st' & Hrun & Hfr & (evs & Hh & Hev) & Hdom & Hok)
           end.
           simpl in *. exists o, st'. split; [done|]. split; [done|].
           split; [|split; [|done]].
           ++ eexists. rewrite Hh, <- !app_assoc. split; [done|].
              repeat constructor; done.
           ++ intros Ho. rewrite (Hdom Ho), topics_cons, dom_insert_L.
              set_solver.
Qed.

Lemma subscribe_loop_app agent pre rest st st1 :
  subscribe_loop env agent pre st = (Done None, st1) ->
  subscribe_loop env agent (pre ++ rest) st = subscribe_loop env agent rest st1.
Proof.
  revert st. induction pre as [|sub pre IH]; intros st; simpl.
  - mstep. by intros [= <-].
  - destruct (decide (sub = "")); [apply IH|].
    mstep.
    destruct (subscriptionsMap (session st) !! _); mstep; [apply IH|].
    destruct (bus_Subscribe env _ _ agent SessionReceiver); mstep; [done|apply IH].
Qed.

Lemma unsubscribe_cancel_loop_spec subs st :
  exists st',
    unsubscribe_cancel_loop env subs st = (Done tt, st') /\
    same_frame (session st) (session st') /\
    (cancel_never_fails env ->
       dom (subscriptionsMap (session st')) =
         dom (subscriptionsMap (session st))
           ∖ topics (Namespace (cfg (session st))) subs).
Proof.
  revert st. induction subs as [|sub rest IH]; intros st; simpl.
  - exists st. mstep. repeat split; auto. intros _. unfold topics. simpl. set_solver.
  - mstep.
    destruct (subscriptionsMap (session st)
                !! SubscriptionTopic (Namespace (cfg (session st))) sub)
      as [known|] eqn:Hl.
    + mstep. destruct (subscription_Cancel env (history st) known) as [err|] eqn:Hc; mstep.
      * match goal with |- context [unsubscribe_cancel_loop env rest ?st1] =>
          destruct (IH st1) as (st' & Hrun & Hfr & Hdom)
        end.
        simpl in *. exists st'. repeat split; try apply Hfr; [done|].
        intros Hnf. by rewrite Hnf in Hc.
      * match goal with |- context [unsubscribe_cancel_loop env rest ?st1] =>
          destruct (IH st1) as (st' & Hrun & Hfr & Hdom)
        end.
        simpl in *. exists st'. repeat split; try apply Hfr; [done|].
        intros Hnf. rewrite (Hdom Hnf), topics_cons, dom_delete_L. set_solver.
    + mstep.
      match goal with |- context [unsubscribe_cancel_loop env rest ?st1] =>
        destruct (IH st1) as (st' & Hrun & Hfr & Hdom)
      end.
      simpl in *. exists st'. repeat split; try apply Hfr; [done|].
      intros Hnf. rewrite (Hdom Hnf), topics_cons.
      apply (not_elem_of_dom (D:=gset string)) in Hl. set_solver.
Qed.

Lemma unsubscribe_ring_loop_spec subs st :
  exists st',
    unsubscribe_ring_loop env subs st = (Done tt, st') /\
    session st' = session st.
Proof.
  revert st. induction subs as [|sub rest IH]; intros st; simpl.
  - by exists st.
  - destruct (HasPrefix sub "entity:"); [apply IH|].
    mstep. destruct (ring_Remove env _ _ _ _) as [[err|] expired]; mstep.
    + destruct expired; [by eexists|].
      match goal with |- context [unsubscribe_ring_loop env rest ?st1] =>
        destruct (IH st1) as (st' & Hrun & Hs) end.
      by exists st'.
    + match goal with |- context [unsubscribe_ring_loop env rest ?st1] =>
        destruct (IH st1) as (st' & Hrun & Hs) end.
      by exists st'.
Qed.


Lemma subscribe_spec subs st :
  exists o st',
    subscribe env subs st = (Done o, st') /\
    same_frame (session st) (session st') /\
    (exists evs, history st' = history st ++ evs /\
                 Forall (fun e => subscribe_effect e = true) evs) /\
    (o = None ->
       dom (subscriptionsMap (session st')) =
         dom (subscriptionsMap (session st))
           ∪ topics (Namespace (cfg (session st)))
               (removeEmptySubscriptions subs)) /\
    (subscribe_never_fails env -> o = None).
Proof.
  unfold subscribe. mstep.
  match goal with |- context [subscribe_loop env ?agent subs ?st1] =>
    destruct (subscribe_loop_spec agent subs st1)
      as (o & st' & Hrun & Hfr & (evs & Hh & Hev) & Hdom & Hok)
  end.
  simpl in *. exists o, st'. repeat split; try apply Hfr; try done.
  eexists. rewrite Hh, <- app_assoc. split; [done|]. by constructor.
Qed.

Lemma unsubscribe_spec subs st :
  exists st',
    unsubscribe env subs st = (Done tt, st') /\
    same_frame (session st) (session st') /\
    (cancel_never_fails env ->
       dom (subscriptionsMap (session st')) =
         dom (subscriptionsMap (session st))
           ∖ topics (Namespace (cfg (session st))) subs).
Proof.
  unfold unsubscribe.
  destruct (unsubscribe_cancel_loop_spec subs st) as (st1 & Hrun & Hfr & Hdom).
  unfold bind at 1. rewrite Hrun. mstep.
  destruct (ringPool (session st1)); [|by exists st1].
  destruct (deregister (session st1)); simpl; [|by exists st1].
  destruct (unsubscribe_ring_loop_spec subs st1) as (st2 & Hrun2 & Hs).
  exists st2. rewrite Hs. done.
Qed.

End SessionFacts.

(** ** Reconciliation *)

Section ReconcileFacts.

Context `{imports : Imports} (env : Collaborators).

Lemma reconcile_added_spec (added : list string) st :
  exists st1,
    when (bool_decide (0 < length added)%nat)
      (log DebugLevel "found %d new subscription(s): %v" >>
       subscribe env added >>
       ret tt) st = (Done tt, st1) /\
    same_frame (session st) (session st1) /\
    (subscribe_never_fails env -> "" ∉ added ->
     dom (subscriptionsMap (session st1)) =
       dom (subscriptionsMap (session st))
         ∪ topics (Namespace (cfg (session st))) added).
Proof.
  destruct added as [|a added'].
  - exists st. repeat split. intros _ _. unfold topics. simpl. set_solver.
  - rewrite bool_decide_eq_true_2 by (simpl; lia). unfold when.
    erewrite bind_Done by reflexivity.
    match goal with |- context [bind (subscribe env ?l) _ ?stx] =>
      destruct (subscribe_spec env l stx) as (o & st1 & Hrun & Hfr & _ & Hdom & Hok)
    end.
    erewrite bind_Done by exact Hrun.
    exists st1. split; [done|]. split; [apply Hfr|].
    intros Hsub He. rewrite (Hdom (Hok Hsub)).
    by rewrite removeEmptySubscriptions_id.
Qed.

Lemma reconcile_removed_spec (removed : list string) st :
  exists st1,
    when (bool_decide (0 < length removed)%nat)
      (log DebugLevel "found %d subscription(s) to unsubscribe from: %v" >>
       unsubscribe env removed) st = (Done tt, st1) /\
    same_frame (session st) (session st1) /\
    (cancel_never_fails env ->
     dom (subscriptionsMap (session st1)) =
       dom (subscriptionsMap (session st))
         ∖ topics (Namespace (cfg (session st))) removed).
Proof.
  destruct removed as [|a removed'].
  - exists st. repeat split. intros _. unfold topics. simpl. set_solver.
  - rewrite bool_decide_eq_true_2 by (simpl; lia). unfold when.
    erewrite bind_Done by reflexivity.
    match goal with |- context [unsubscribe env ?l ?stx] =>
      destruct (unsubscribe_spec env l stx) as (st1 & Hrun & Hfr & Hdom)
    end.
    exists st1. split; [done|]. split; [apply Hfr|done].
Qed.

(** One reconciliation keeps the session subscribed to exactly its list. *)
Lemma reconcile_spec (new : list string) st :
  subscribe_never_fails env -> cancel_never_fails env ->
  Inj (=) (=) (SubscriptionTopic (Namespace (cfg (session st)))) ->
  strictly_sorted (Subscriptions (cfg (session st))) ->
  "" ∉ Subscriptions (cfg (session st)) ->
  subscribed_to (session st) (Subscriptions (cfg (session st))) ->
  strictly_sorted new -> "" ∉ new ->
  exists st',
    reconcile env new st = (Done tt, st') /\
    Subscriptions (cfg (session st')) = new /\
    Namespace (cfg (session st')) = Namespace (cfg (session st)) /\
    subscribed_to (session st') new.
Proof.
  intros Hsub Hcan Hinj Hold Hold0 Hinv Hnew Hnew0.
  unfold reconcile. erewrite bind_Done by reflexivity.
  rewrite (sortSubscriptions_fixed _ (strictly_sorted_sorted _ Hold) Hold0).
  rewrite (sortSubscriptions_fixed _ (strictly_sorted_sorted _ Hnew) Hnew0).
  pose proof (fun x => diff_added_elem _ new x Hold Hnew) as Hadd.
  pose proof (fun x => diff_removed_elem _ new x Hold Hnew) as Hrem.
  destruct (diff (Subscriptions (cfg (session st))) new) as [added removed].
  simpl in Hadd, Hrem.
  erewrite bind_Done by reflexivity.
  match goal with |- context [bind (when _ _) _ ?st0] =>
    destruct (reconcile_added_spec added st0) as (st1 & Hrun1 & Hfr1 & Hdom1)
  end.
  erewrite bind_Done by exact Hrun1.
  destruct (reconcile_removed_spec removed st1) as (st2 & Hrun2 & Hfr2 & Hdom2).
  exists st2. split; [exact Hrun2|].
  destruct Hfr1 as (Hc1 & _), Hfr2 as (Hc2 & _). simpl in *.
  rewrite Hc2, Hc1. simpl. repeat split.
  unfold subscribed_to in *. rewrite Hc2, Hc1. simpl.
  rewrite (Hdom2 Hcan), Hdom1, Hc1, Hinv; simpl; [|done|].
  2:{ intros Hin. apply Hadd in Hin as [Hin _]. contradiction. }
  apply set_eq. intros t.
  rewrite elem_of_difference, elem_of_union, !elem_of_topics.
  split.
  - intros [[(x & Hx & ->)|(x & Hx & ->)] Hnr].
    + exists x. split; [|done].
      destruct (decide (x ∈ new)) as [|Hn]; [done|].
      destruct Hnr. exists x. split; [|done]. apply Hrem. done.
    + exists x. split; [|done]. by apply Hadd in Hx as [? _].
  - intros (x & Hx & ->). split.
    + destruct (decide (x ∈ Subscriptions (cfg (session st)))) as [Ho|Ho].
      * left. by exists x.
      * right. exists x. split; [|done]. by apply Hadd.
    + intros (y & Hy & Hxy). apply Hinj in Hxy as <-.
      apply Hrem in Hy as [_ Hy]. contradiction.
Qed.

Lemma reconcile_all_spec (lists : list (list string)) st :
  subscribe_never_fails env -> cancel_never_fails env ->
  Inj (=) (=) (SubscriptionTopic (Namespace (cfg (session st)))) ->
  strictly_sorted (Subscriptions (cfg (session st))) ->
  "" ∉ Subscriptions (cfg (session st)) ->
  subscribed_to (session st) (Subscriptions (cfg (session st))) ->
  Forall (fun S => strictly_sorted S /\ "" ∉ S) lists ->
  forall i S, lists !! i = Some S ->
    exists st',
      reconcile_all env (take (Datatypes.S i) lists) st = (Done tt, st') /\
      Namespace (cfg (session st')) = Namespace (cfg (session st)) /\
      subscribed_to (session st') S.
Proof.
  intros Hsub Hcan. revert st.
  induction lists as [|S0 lists IH]; intros st Hinj Hold Hold0 Hinv Hall i S Hi.
  - done.
  - apply Forall_cons in Hall as [[HS0 HS00] Hall].
    destruct (reconcile_spec S0 st Hsub Hcan Hinj Hold Hold0 Hinv HS0 HS00)
      as (st1 & Hrun & Hsubs & Hns & Hinv1).
    simpl. erewrite bind_Done by exact Hrun.
    destruct i as [|i]; simpl in Hi.
    + injection Hi as <-. rewrite take_0. simpl. by exists st1.
    + rewrite <- Hsubs in Hinv1.
      rewrite <- Hns in Hinj.
      destruct (IH st1 Hinj) with (i := i) (S := S) as (st' & Hrun' & Hns' & Hinv');
        try done; try (by rewrite Hsubs).
      exists st'. split; [done|]. split; [congruence|done].
Qed.

End ReconcileFacts.
(** C3, as amended: starting from an empty subscription map, for every
    sequence of sorted, duplicate-free lists of non-empty names fed to
    the reconciliation, with a bus whose [Subscribe] and [Cancel] succeed
    and topics that tell the names apart, after step [i] the keys of the
    subscription map are the topics of the names of the [i]-th list. *)
Theorem reconcile_sequence_topics `{imports : Imports} (env : Collaborators)
    (s0 : Session) (h0 : list Effect) (lists : list (list string)) :
  subscribe_never_fails env -> cancel_never_fails env ->
  Inj (=) (=) (SubscriptionTopic (Namespace (cfg s0))) ->
  subscriptionsMap s0 = ∅ -> Subscriptions (cfg s0) = [] ->
  Forall (fun S => sorted S /\ NoDup S /\ "" ∉ S) lists ->
  forall i S, lists !! i = Some S ->
    exists st',
      reconcile_all env (take (Datatypes.S i) lists)
        {| session := s0; history := h0 |} = (Done tt, st') /\
      dom (subscriptionsMap (session st')) = topics (Namespace (cfg s0)) S.
Proof.
  intros Hsub Hcan Hinj Hmap Hsubs Hall i S Hi.
  destruct (reconcile_all_spec env lists {| session := s0; history := h0 |}
              Hsub Hcan Hinj) with (i := i) (S := S)
    as (st' & Hrun & Hns & Hdom); simpl; try done.
  - rewrite Hsubs. constructor.
  - rewrite Hsubs. apply not_elem_of_nil.
  - unfold subscribed_to. rewrite Hmap, Hsubs. unfold topics. simpl.
    apply dom_empty_L.
  - eapply Forall_impl; [exact Hall|]. intros l (Hs & Hn & He).
    split; [by apply sorted_NoDup_strictly|done].
  - exists st'. split; [done|]. unfold subscribed_to in Hdom.
    by rewrite Hns in Hdom.
Qed.

Section ReconcileExamples.
Import Sample.

Lemma SubscriptionTopic_inj namespace :
  Inj (=) (=) (SubscriptionTopic namespace).
Proof.
  intros x y Hxy. simpl in Hxy.
  by repeat apply String.app_inj in Hxy.
Qed.

Lemma reconcile_sequence_topics_witness :
  exists st',
    reconcile_all reliable (take 2 [["a"; "b"]; ["b"; "c"; "d"]])
      (start (new_session [])) = (Done tt, st') /\
    dom (subscriptionsMap (session st')) = topics "default" ["b"; "c"; "d"].
Proof.
  apply (reconcile_sequence_topics reliable (new_session []) []
           [["a"; "b"]; ["b"; "c"; "d"]]) with (i := 1%nat).
  - intros h topic consumer r. eexists. reflexivity.
  - intros h sub. reflexivity.
  - apply SubscriptionTopic_inj.
  - reflexivity.
  - reflexivity.
  - repeat constructor; try (unfold sle; vm_compute; congruence);
      try (apply (bool_decide_unpack _); vm_compute; reflexivity).
  - reflexivity.
Defined.

(** Two equal names in a sorted list: when the list shrinks to one of
    them, [diff] reports the other as removed and the session leaves the
    topic, although the name is still listed. *)
Lemma reconcile_sequence_duplicates_counterexample :
  let run := reconcile_all reliable [["a"; "a"]; ["a"]] (start (new_session [])) in
  Forall sorted [["a"; "a"]; ["a"]] /\
  run.1 = Done tt /\
  dom (subscriptionsMap (session run.2)) = ∅ /\
  dom (subscriptionsMap (session run.2)) <> topics "default" ["a"].
Proof.
  split; [|split; [|split]].
  - repeat constructor; unfold sle; vm_compute; congruence.
  - vm_compute. reflexivity.
  - apply (bool_decide_unpack _). vm_compute. reflexivity.
  - apply (bool_decide_unpack _). vm_compute. reflexivity.
Qed.

(** An empty name in a list is never subscribed to. *)
Example reconcile_empty_name :
  let run := reconcile_all reliable [[""; "a"]] (start (new_session [])) in
  run.1 = Done tt /\
  dom (subscriptionsMap (session run.2)) = topics "default" ["a"] /\
  dom (subscriptionsMap (session run.2)) <> topics "default" [""; "a"].
Proof.
  split; [|split].
  - vm_compute. reflexivity.
  - apply (bool_decide_unpack _). vm_compute. reflexivity.
  - apply (bool_decide_unpack _). vm_compute. reflexivity.
Qed.

End ReconcileExamples.

Lemma effects_since_app st st' evs :
  history st' = history st ++ evs -> effects_since st st' = evs.
Proof. unfold effects_since. intros ->. by rewrite drop_app_length. Qed.

(** C10: when the bus refuses a name of the list (a non-empty name the
    session is not yet subscribed to), [subscribe] returns that error at
    once: the names after it are not looked at, nothing is cancelled, and
    the session is exactly as the names before it left it, with their
    handles still in the subscription map. *)
Theorem subscribe_failure_keeps_partial `{imports : Imports}
    (env : Collaborators) (pre post : list string) (x : string)
    (st st1 : State) (err : error) :
  let namespace := Namespace (cfg (session st)) in
  let topic := SubscriptionTopic namespace x in
  let agent :=
    namespace +:+ ":" +:+ AgentName (cfg (session st)) +:+ "-"
      +:+ uuid_New env (history st) in
  subscribe env pre st = (Done None, st1) ->
  x <> "" ->
  subscriptionsMap (session st1) !! topic = None ->
  bus_Subscribe env (history st1 ++ [ELog DebugLevel "subscribing to %q"])
    topic agent SessionReceiver = inl err ->
  exists st2,
    subscribe env (pre ++ x :: post) st = (Done (Some err), st2) /\
    session st2 = session st1 /\
    history st2 =
      history st1 ++
        [ELog DebugLevel "subscribing to %q";
         ESubscribe topic agent SessionReceiver (inl err);
         ELog ErrorLevel "could not subscribe to %q"] /\
    Forall (fun e => is_cancel e = false) (effects_since st st2) /\
    (forall y, y ∈ pre -> y <> "" ->
       is_Some (subscriptionsMap (session st2) !! SubscriptionTopic namespace y)).
Proof.
  intros namespace topic agent Hpre Hx Hnew Hfail.
  destruct (subscribe_spec env pre st)
    as (o & st1' & Hrun & Hfr & (evs & Hh & Hev) & Hdom & _).
  rewrite Hpre in Hrun. injection Hrun as <- <-.
  destruct Hfr as (Hcfg & _).
  unfold subscribe in *. revert Hpre. mstep. intros Hpre.
  rewrite (subscribe_loop_app env _ pre (x :: post) _ st1 Hpre).
  simpl. destruct (decide (x = "")) as [|_]; [done|].
  mstep. rewrite Hcfg. fold namespace topic. rewrite Hnew. mstep.
  fold agent. rewrite Hfail. mstep.
  eexists. split; [reflexivity|]. simpl. split; [done|].
  split; [by rewrite <- !app_assoc|]. split.
  - erewrite effects_since_app.
    2:{ simpl. rewrite Hh, <- !app_assoc. reflexivity. }
    apply Forall_app. split; [|repeat constructor].
    eapply Forall_impl; [exact Hev|]. by intros [].
  - intros y Hy Hy0. apply (elem_of_dom (D:=gset string)).
    rewrite (Hdom eq_refl). apply elem_of_union_r, elem_of_topics.
    exists y. split; [|done]. by apply removeEmptySubscriptions_elem.
Qed.

Section SubscribeExamples.
Import Sample.

Lemma subscribe_failure_keeps_partial_witness :
  let env := refusing "sensu:check:default:c" in
  let st := start (new_session []) in
  let st1 := (subscribe env ["a"; "b"] st).2 in
  exists st2,
    subscribe env (["a"; "b"] ++ "c" :: ["d"]) st
      = (Done (Some (ErrorString "subscription refused")), st2) /\
    session st2 = session st1 /\
    history st2 =
      history st1 ++
        [ELog DebugLevel "subscribing to %q";
         ESubscribe "sensu:check:default:c" "default:node-1-0000"
           SessionReceiver (inl (ErrorString "subscription refused"));
         ELog ErrorLevel "could not subscribe to %q"] /\
    Forall (fun e => is_cancel e = false) (effects_since st st2) /\
    (forall y, y ∈ ["a"; "b"] -> y <> "" ->
       is_Some (subscriptionsMap (session st2)
                  !! SubscriptionTopic "default" y)).
Proof.
  intros env st st1.
  refine (subscribe_failure_keeps_partial env ["a"; "b"] ["d"] "c" st st1
            (ErrorString "subscription refused") _ _ _ _).
  - vm_compute. reflexivity.
  - done.
  - vm_compute. reflexivity.
  - vm_compute. reflexivity.
Defined.

(** With a bus that refuses a topic, the reconciliation leaves the
    session without it. *)
Example reconcile_refused_topic :
  let run := reconcile_all (refusing "sensu:check:default:c") [["a"; "c"]]
               (start (new_session [])) in
  run.1 = Done tt /\
  dom (subscriptionsMap (session run.2)) = topics "default" ["a"].
Proof.
  split.
  - vm_compute. reflexivity.
  - apply (bool_decide_unpack _). vm_compute. reflexivity.
Qed.

(** With subscriptions that cannot be cancelled, the session stays on
    the topic of a name that left its list. *)
Example reconcile_cancel_fails :
  let run := reconcile_all uncancellable [["a"; "b"]; ["b"]]
               (start (new_session [])) in
  run.1 = Done tt /\
  dom (subscriptionsMap (session run.2)) = topics "default" ["a"; "b"].
Proof.
  split.
  - vm_compute. reflexivity.
  - apply (bool_decide_unpack _). vm_compute. reflexivity.
Qed.

End SubscribeExamples.

Section RingFacts.
Context `{imports : Imports} (env : Collaborators).

Lemma unsubscribe_ring_loop_cleanup subs st :
  exists st' effects,
    unsubscribe_ring_loop env subs st = (Done tt, st') /\
    session st' = session st /\
    history st' = history st ++ effects /\
    ring_cleanup (Namespace (cfg (session st))) (AgentName (cfg (session st)))
      subs effects.
Proof.
  revert st. induction subs as [|sub rest IH]; intros st; simpl.
  - exists st, []. rewrite app_nil_r. repeat split. constructor.
  - destruct (HasPrefix sub "entity:") eqn:Hp.
    + destruct (IH st) as (st' & effects & Hrun & Hs & Hh & Hc).
      exists st', effects. repeat split; try done. by constructor.
    + mstep. destruct (ring_Remove env _ _ _ _) as [[err|] expired]; mstep.
      * destruct expired.
        -- eexists _, _. split; [reflexivity|]. simpl. split; [done|].
           split; [by rewrite <- app_assoc|]. by constructor.
        -- match goal with |- context [unsubscribe_ring_loop env rest ?st1] =>
             destruct (IH st1) as (st' & effects & Hrun & Hs & Hh & Hc) end.
           simpl in *. exists st'. eexists. split; [done|]. split; [done|].
           split; [by rewrite Hh, <- !app_assoc|]. by constructor.
      * match goal with |- context [unsubscribe_ring_loop env rest ?st1] =>
          destruct (IH st1) as (st' & effects & Hrun & Hs & Hh & Hc) end.
        simpl in *. exists st'. eexists. split; [done|]. split; [done|].
        split; [by rewrite Hh, <- !app_assoc|]. by constructor.
Qed.

(** The clean-up writes no log line: its effects are ring removals and
    increments of the session error counter. *)
Lemma ring_cleanup_effects namespace agent subs effects :
  ring_cleanup namespace agent subs effects ->
  Forall (fun e =>
    is_ring_remove e = true \/
    e = ECounterInc sessionErrorCounterName ["ring.Remove"]) effects.
Proof.
  induction 1; repeat (apply Forall_cons; split); auto.
Qed.

End RingFacts.

(** C7: [unsubscribe] touches the rings only when the ring pool is there
    and the session is set to deregister.  Then, after the first loop,
    its effects are those of the ring clean-up of the given names: one
    [Remove] of the agent, under a context of one second, for every name
    without the prefix ["entity:"], a failed removal counted in the
    session error counter and not logged, and nothing after a failed
    removal whose context has expired. *)
Theorem unsubscribe_ring_removal `{imports : Imports} (env : Collaborators)
    (subs : list string) (st : State) :
  exists st1 st' effects,
    unsubscribe_cancel_loop env subs st = (Done tt, st1) /\
    unsubscribe env subs st = (Done tt, st') /\
    session st' = session st1 /\
    history st' = history st1 ++ effects /\
    match ringPool (session st), deregister (session st) with
    | Some _, true =>
        ring_cleanup (Namespace (cfg (session st)))
          (AgentName (cfg (session st))) subs effects
    | _, _ => effects = []
    end /\
    Forall (fun e => is_log e = false) effects.
Proof.
  destruct (unsubscribe_cancel_loop_spec env subs st) as (st1 & Hrun & Hfr & _).
  destruct Hfr as (Hcfg & Hring & Hdereg).
  unfold unsubscribe. erewrite bind_Done by exact Hrun.
  erewrite bind_Done by reflexivity. rewrite Hring, Hdereg.
  destruct (ringPool (session st)) as [pool|].
  - destruct (deregister (session st)); simpl.
    + destruct (unsubscribe_ring_loop_cleanup env subs st1)
        as (st' & effects & Hrun' & Hs & Hh & Hc).
      rewrite Hcfg in Hc.
      exists st1, st', effects. repeat split; try done.
      eapply Forall_impl; [exact (ring_cleanup_effects _ _ _ _ Hc)|].
      intros e [He | ->]; [by destruct e|done].
    + exists st1, st1, []. rewrite app_nil_r. repeat split; done.
  - exists st1, st1, []. rewrite app_nil_r. repeat split; done.
Qed.

Section RingExamples.
Import Sample.

(** Three names, one of them an entity subscription, on rings that
    cannot be reached: the second removal finds its context expired and
    the third name is not tried. *)
Example unsubscribe_abandons :
  let s := set_deregister true (new_session []) in
  history (unsubscribe unreachable_rings ["cpu"; "entity:node-1"; "disk"; "net"]
             (start s)).2 =
    [ELog ErrorLevel "session shutdown: session was not subscribed to %q";
     ELog ErrorLevel "session shutdown: session was not subscribed to %q";
     ELog ErrorLevel "session shutdown: session was not subscribed to %q";
     ELog ErrorLevel "session shutdown: session was not subscribed to %q";
     ERingRemove "default/cpu" "node-1" 1000000000
       (Some (ErrorString "etcdserver: request timed out")) false;
     ECounterInc "sensu_go_session_errors" ["ring.Remove"];
     ERingRemove "default/disk" "node-1" 1000000000
       (Some (ErrorString "etcdserver: request timed out")) true;
     ECounterInc "sensu_go_session_errors" ["ring.Remove"]].
Proof. vm_compute. reflexivity. Qed.

End RingExamples.

(** C8: [NewSession] publishes one event, on the keepalive topic: its
    timestamp is -1, its check is named by the keepalive check name, and
    its entity carries the namespace, the name of the agent, the
    subscriptions the agent reported and the agent class.  It returns an
    error exactly when that publication fails, and apart from its log
    line it does nothing else to its collaborators. *)
Theorem NewSession_publishes_burial `{imports : Imports} (env : Collaborators)
    (config : SessionConfig) (h : list Effect) :
  let event := makeEntitySwitchBurialEvent config in
  let before := h ++ [ELog InfoLevel "agent connected"] in
  let err := bus_Publish env before TopicKeepalive (MEvent event) in
  corev2.Timestamp event = (-1)%Z /\
  (corev2.Check_ObjectMeta <$> corev2.Event_Check event) =
    Some {| corev2.Name := KeepaliveCheckName;
            corev2.Namespace := Namespace config;
            corev2.Labels := ∅ |} /\
  corev2.Event_Entity event =
    Some {| corev2.Entity_ObjectMeta :=
              {| corev2.Name := AgentName config;
                 corev2.Namespace := Namespace config;
                 corev2.Labels := ∅ |};
            corev2.Subscriptions := Subscriptions config;
            corev2.EntityClass := EntityAgentClass |} /\
  (NewSession env config h).2 =
    before ++ [EPublish TopicKeepalive (MEvent event) err] /\
  filter (fun e => is_log e = false) (drop (length h) (NewSession env config h).2) =
    [EPublish TopicKeepalive (MEvent event) err] /\
  (forall e, (NewSession env config h).1 = inl e <-> err = Some e) /\
  (err = None <->
   (NewSession env config h).1 =
     inr {| cfg := config; ringPool := RingPool_ config;
            subscriptionsMap := ∅; deregister := false |}).
Proof.
  intros event before err.
  assert (Hrun : NewSession env config h =
    (match err with
     | Some e => inl e
     | None => inr {| cfg := config; ringPool := RingPool_ config;
                      subscriptionsMap := ∅; deregister := false |}
     end, before ++ [EPublish TopicKeepalive (MEvent event) err])).
  { unfold NewSession. fold event before err. by destruct err. }
  rewrite Hrun. simpl.
  split; [reflexivity|]. split; [reflexivity|]. split; [reflexivity|].
  split; [reflexivity|]. split; [|split].
  - unfold before. rewrite <- app_assoc, drop_app_length. reflexivity.
  - intros e. destruct err; split; congruence.
  - destruct err; split; congruence.
Qed.

(** C9: [handleKeepalive] returns an error, and publishes nothing, when
    the payload does not decode, when the event is not valid and when its
    timestamp is 0; otherwise it appends the entity subscription
    ["entity:<name>"] to the subscriptions of the entity of the event,
    publishes the event on the keepalive topic and returns what the
    publication returns. *)
Theorem handleKeepalive_spec `{imports : Imports} (env : Collaborators)
    (payload : bytes) (st : State) :
  let unmarshal := Unmarshal (cfg (session st)) in
  (forall err, unmarshal payload = inl err ->
     handleKeepalive env payload st = (Done (Some err), st)) /\
  (forall keepalive err,
     unmarshal payload = inr keepalive -> Validate keepalive = Some err ->
     handleKeepalive env payload st = (Done (Some err), st)) /\
  (forall keepalive,
     unmarshal payload = inr keepalive -> Validate keepalive = None ->
     corev2.Timestamp keepalive = 0%Z ->
     handleKeepalive env payload st =
       (Done (Some (errors_New "keepalive contains invalid timestamp")), st)) /\
  (forall keepalive entity,
     unmarshal payload = inr keepalive -> Validate keepalive = None ->
     corev2.Timestamp keepalive <> 0%Z ->
     corev2.Event_Entity keepalive = Some entity ->
     let name := corev2.Name (corev2.Entity_ObjectMeta entity) in
     let published :=
       MEvent
         {| corev2.Event_ObjectMeta := corev2.Event_ObjectMeta keepalive;
            corev2.Event_Entity := Some
              {| corev2.Entity_ObjectMeta := corev2.Entity_ObjectMeta entity;
                 corev2.Subscriptions :=
                   corev2.Subscriptions entity ++ ["entity:" +:+ name];
                 corev2.EntityClass := corev2.EntityClass entity |};
            corev2.Event_Check := corev2.Event_Check keepalive;
            corev2.Timestamp := corev2.Timestamp keepalive |} in
     let result := bus_Publish env (history st) TopicKeepalive published in
     handleKeepalive env payload st =
       (Done result,
        {| session := session st;
           history :=
             history st ++ [EPublish TopicKeepalive published result] |})).
Proof.
  intros unmarshal. unfold handleKeepalive. split; [|split; [|split]].
  - intros err Hu. erewrite bind_Done by reflexivity. fold unmarshal.
    by rewrite Hu.
  - intros keepalive err Hu Hv. erewrite bind_Done by reflexivity.
    fold unmarshal. by rewrite Hu, Hv.
  - intros keepalive Hu Hv Ht. erewrite bind_Done by reflexivity.
    fold unmarshal. by rewrite Hu, Hv, Ht.
  - intros keepalive entity Hu Hv Ht He. intros.
    erewrite bind_Done by reflexivity. fold unmarshal. rewrite Hu, Hv.
    apply Z.eqb_neq in Ht. rewrite Ht, He. reflexivity.
Qed.

Section KeepaliveExamples.
Import Sample.

Lemma handleKeepalive_spec_witness :
  let st := start (new_session ["disk"]) in
  handleKeepalive reliable [] st
    = (Done (Some (ErrorString "unexpected end of input")), st) /\
  handleKeepalive reliable [Byte.xff] st
    = (Done (Some (ErrorString "event must contain an entity")), st) /\
  handleKeepalive reliable [Byte.x00] st
    = (Done (Some (ErrorString "keepalive contains invalid timestamp")), st) /\
  exists published,
    handleKeepalive reliable [Byte.x01] st =
      (Done None,
       {| session := session st;
          history := [EPublish "sensu:keepalive" (MEvent published) None] |}) /\
    (corev2.Subscriptions <$> corev2.Event_Entity published)
      = Some ["disk"; "entity:node-1"].
Proof.
  intros st.
  destruct (handleKeepalive_spec reliable [] st) as (H1 & _).
  destruct (handleKeepalive_spec reliable [Byte.xff] st) as (_ & H2 & _).
  destruct (handleKeepalive_spec reliable [Byte.x00] st) as (_ & _ & H3 & _).
  destruct (handleKeepalive_spec reliable [Byte.x01] st) as (_ & _ & _ & H4).
  split; [|split; [|split]].
  - apply H1. reflexivity.
  - eapply H2; reflexivity.
  - eapply H3; reflexivity.
  - eexists. split.
    + eapply H4; [reflexivity|reflexivity|simpl; lia|reflexivity].
    + reflexivity.
Defined.

End KeepaliveExamples.

(** ** The sender and the entities managed by their agent *)

Section SenderFacts.
Context `{imports : Imports} (env : Collaborators).

Lemma reconcile_total (new : list string) st :
  exists st', reconcile env new st = (Done tt, st').
Proof.
  unfold reconcile. erewrite bind_Done by reflexivity.
  destruct (diff _ _) as [added removed].
  erewrite bind_Done by reflexivity.
  match goal with |- context [bind (when _ _) _ ?st0] =>
    destruct (reconcile_added_spec env added st0) as (st1 & Hrun1 & _)
  end.
  erewrite bind_Done by exact Hrun1.
  destruct (reconcile_removed_spec env removed st1) as (st2 & Hrun2 & _).
  by exists st2.
Qed.

(** For an entity of the agent class that carries the label
    [managed_by = "sensu-agent"], the turn of the sender reconciles the
    subscriptions, writes the debug line, and then sends the frame all
    the same. *)
Lemma sender_turn_managed (w : store.WatchEventEntityConfig)
    (entity : corev3.EntityConfig) (meta : corev2.ObjectMeta)
    (payload : bytes) (st : State) :
  store.Action w <> store.WatchDelete ->
  store.Action w <> store.WatchUnknown ->
  store.Entity w = Some entity ->
  corev3.Metadata entity = Some meta ->
  corev3.EntityClass entity = EntityAgentClass ->
  default "" (corev2.Labels meta !! ManagedByLabel) = "sensu-agent" ->
  Marshal (cfg (session st)) (PEntityConfig entity) = inr payload ->
  exists st1 continue st' before rest,
    reconcile env (corev3.Subscriptions entity)
      {| session := set_deregister (corev3.Deregister entity) (session st);
         history := history st ++ [ELog DebugLevel "entity update received"] |}
      = (Done tt, st1) /\
    sender_turn env (EntityUpdate (Some (VWatchEvent w))) st
      = (Done continue, st') /\
    before =
      history st1 ++
        [ELog DebugLevel
           "not sending entity update because entity is managed by its agent";
         ELog DebugLevel "session - sending message"] /\
    history st' =
      before ++
        ESend (transport.NewMessage MessageTypeEntityConfig payload)
          (conn_Send env before
             (transport.NewMessage MessageTypeEntityConfig payload))
        :: rest.
Proof.
  intros Hdel Hunk Hent Hmeta Hclass Hlabel Hmarshal.
  match goal with |- context [reconcile env ?l ?s0] =>
    destruct (reconcile_total l s0) as (st1 & Hrec) end.
  exists st1.
  assert (Hsel : sender_select env (EntityUpdate (Some (VWatchEvent w))) st =
    (Done (Frame (transport.NewMessage MessageTypeEntityConfig payload)),
     {| session := session st1;
        history := history st1 ++
          [ELog DebugLevel
             "not sending entity update because entity is managed by its agent"] |})).
  { simpl. unfold sender_entity_update. rewrite Hent, Hmeta.
    destruct (store.Action w); try done.
    all: unfold deref, log, emit, bind at 1 2;
      destruct (decide (corev3.EntityClass entity <> EntityAgentClass));
        [done|];
      unfold modify, get, bind at 1 2; cbn [session history cfg set_deregister];
      rewrite Hmarshal; unfold bind at 1; rewrite Hrec;
      rewrite bool_decide_eq_true_2 by done;
      reflexivity. }
  unfold sender_turn. erewrite bind_Done by exact Hsel.
  cbv beta iota. mstep.
  set (before := (history st1 ++ _) ++ _).
  assert (Hbefore : before =
    history st1 ++
      [ELog DebugLevel
         "not sending entity update because entity is managed by its agent";
       ELog DebugLevel "session - sending message"]).
  { unfold before. by rewrite <- app_assoc. }
  destruct (conn_Send env before _) as [err|] eqn:Hsend.
  - destruct (ctx_Err env _).
    + exists false. eexists _, before, [].
      split; [done|]. split; [reflexivity|]. split; [done|]. simpl. by rewrite Hsend.
    + destruct err; mstep; exists false; eexists _, before, _;
        (split; [done|]); (split; [reflexivity|]); (split; [done|]);
        simpl; rewrite Hsend, <- ?app_assoc; reflexivity.
  - exists true. eexists _, before, [].
    split; [done|]. split; [reflexivity|]. split; [done|]. simpl. by rewrite Hsend.
Qed.

End SenderFacts.

Section SenderExamples.
Import Sample.

(** C1, on the code: the session is subscribed to [a] and [b]; an update
    of its entity arrives with the subscriptions [b] and [c] and the
    label [managed_by = "sensu-agent"].  The sender subscribes to [c],
    cancels [a], writes that it does not send the update, and sends the
    frame of type [EntityConfig]. *)
Theorem sender_managed_by_agent_sends_frame :
  let st := (subscribe reliable ["a"; "b"] (start (new_session ["a"; "b"]))).2 in
  let w := update {[ "sensu.io/managed_by" := "sensu-agent" ]} ["b"; "c"] in
  let run := sender_turn reliable (EntityUpdate (Some (VWatchEvent w))) st in
  run.1 = Done true /\
  effects_since st run.2 =
    [ELog DebugLevel "entity update received";
     ELog DebugLevel "found %d new subscription(s): %v";
     EUUID "0000";
     ELog DebugLevel "subscribing to %q";
     ESubscribe "sensu:check:default:c" "default:node-1-0000"
       SessionReceiver (inr 9%N);
     ELog DebugLevel "found %d subscription(s) to unsubscribe from: %v";
     ECancel 2%N None;
     ELog DebugLevel "session shutdown: successfully unsubscribed from %q";
     ELog DebugLevel
       "not sending entity update because entity is managed by its agent";
     ELog DebugLevel "session - sending message";
     ESend {| transport.Type_ := "entity_config";
              transport.Payload := [Byte.x65] |} None] /\
  filter (fun e => is_send e = true) (effects_since st run.2) <> [].
Proof.
  split; [|split].
  - vm_compute. reflexivity.
  - vm_compute. reflexivity.
  - vm_compute. discriminate.
Qed.

Lemma sender_turn_managed_witness :
  let st := (subscribe reliable ["a"; "b"] (start (new_session ["a"; "b"]))).2 in
  let w := update {[ "sensu.io/managed_by" := "sensu-agent" ]} ["b"; "c"] in
  exists st' continue,
    sender_turn reliable (EntityUpdate (Some (VWatchEvent w))) st
      = (Done continue, st') /\
    ESend (transport.NewMessage "entity_config" [Byte.x65]) None ∈ history st'.
Proof.
  intros st w.
  destruct (sender_turn_managed reliable w
              {| corev3.Metadata := Some
                   {| corev2.Name := "node-1"; corev2.Namespace := "default";
                      corev2.Labels := {[ "sensu.io/managed_by" := "sensu-agent" ]} |};
                 corev3.EntityClass := "agent";
                 corev3.Subscriptions := ["b"; "c"];
                 corev3.Deregister := false |}
              {| corev2.Name := "node-1"; corev2.Namespace := "default";
                 corev2.Labels := {[ "sensu.io/managed_by" := "sensu-agent" ]} |}
              [Byte.x65] st)
    as (st1 & continue & st' & before & rest & _ & Hrun & _ & Hh);
    try done.
  exists st', continue. split; [exact Hrun|].
  rewrite Hh. apply elem_of_app. right. apply list_elem_of_here.
Defined.

End SenderExamples.

(** ** [Start] *)

Section StartFacts.
Context `{imports : Imports} (env : Collaborators).

Lemma subscribe_effect_filters evs :
  Forall (fun e => subscribe_effect e = true) evs ->
  filter is_store_get evs = [] /\ filter is_publish evs = [].
Proof.
  induction 1 as [|e evs He _ [IH1 IH2]]; [done|].
  rewrite !filter_cons, IH1, IH2. by destruct e.
Qed.

(** The entity config of [Start]: what is asked of the store, what is
    published, and the session afterwards. *)
Lemma Start_entity_config_cases st :
  let namespace := Namespace (cfg (session st)) in
  let name := AgentName (cfg (session st)) in
  let topic := EntityConfigTopic namespace name in
  let res := storev2_Get env (history st) namespace name EntityConfig_StoreName in
  exists o st' effects,
    Start_entity_config env st = (o, st') /\
    history st' =
      history st ++
        EStoreGet namespace name EntityConfig_StoreName res :: effects /\
    filter is_store_get effects = [] /\
    match res with
    | inl (ErrNotFound m) =>
        exists perr,
          filter is_publish effects =
            [EPublish topic (MWatchEvent (not_found_event namespace)) perr] /\
          o = Done perr /\ session st' = session st
    | inl err =>
        filter is_publish effects = [] /\ o = Done (Some err) /\
        session st' = session st
    | inr wrapper =>
        match storev2.UnwrapInto wrapper with
        | inl err =>
            filter is_publish effects = [] /\ o = Done (Some err) /\
            session st' = session st
        | inr stored =>
            match corev3.Metadata stored with
            | None => o = Panic
            | Some meta =>
                let adopted :=
                  if bool_decide
                       (default "" (corev2.Labels meta !! ManagedByLabel)
                        = "sensu-agent")
                  then strip_managed_by stored meta else stored in
                exists perr,
                  filter is_publish effects =
                    [EPublish topic
                       (MWatchEvent
                          {| store.Entity := Some adopted;
                             store.Action := store.WatchUpdate |}) perr] /\
                  o = Done perr /\
                  session st' =
                    match perr with
                    | Some _ => session st
                    | None =>
                        set_Subscriptions (corev3.Subscriptions adopted)
                          (session st)
                    end
            end
        end
    end.
Proof.
  intros namespace name topic res. unfold Start_entity_config. mstep.
  fold namespace name topic res.
  destruct res as [err|wrapper].
  - destruct err; mstep;
      try (eexists _, _, _; split; [reflexivity|]; simpl;
           split; [by rewrite <- !app_assoc|]; by repeat split).
    unfold not_found_event.
    destruct (bus_Publish env _ topic _) as [perr|] eqn:Hp; mstep;
      eexists _, _, _; (split; [reflexivity|]); simpl;
      (split; [by rewrite <- !app_assoc|]); (split; [done|]);
      eexists; (split; [reflexivity|]); done.
  - mstep. destruct (storev2.UnwrapInto wrapper) as [err|stored]; mstep.
    { eexists _, _, _. split; [reflexivity|]. simpl.
      split; [by rewrite <- !app_assoc|]. by repeat split. }
    destruct (corev3.Metadata stored) as [meta|]; mstep.
    2:{ eexists _, _, _. split; [reflexivity|]. simpl.
        split; [by rewrite <- !app_assoc|]. by repeat split. }
    destruct (bus_Publish env _ topic _) as [perr|] eqn:Hp; mstep;
      eexists _, _, _; (split; [reflexivity|]); simpl;
      (split; [by rewrite <- !app_assoc|]); (split; [done|]);
      eexists; (split; [reflexivity|]); done.
Qed.

Ltac filt Hsg Hpub :=
  repeat (rewrite filter_cons; simpl);
  rewrite ?filter_app, ?Hsg, ?Hpub; repeat (rewrite filter_cons; simpl);
  rewrite ?filter_nil, ?app_nil_r; try reflexivity.

#[local] Arguments subscribe : simpl never.
#[local] Arguments Start_entity_config : simpl never.

Lemma Start_cases st :
  let namespace := Namespace (cfg (session st)) in
  let name := AgentName (cfg (session st)) in
  let topic := EntityConfigTopic namespace name in
  exists o st' effects,
    Start env st = (o, st') /\ history st' = history st ++ effects /\
    ((filter is_store_get effects = [] /\ filter is_publish effects = [] /\
      exists err, o = Done (Some err))
     \/
     exists res,
       filter is_store_get effects =
         [EStoreGet namespace name EntityConfig_StoreName res] /\
       match res with
       | inl (ErrNotFound m) =>
           exists perr,
             filter is_publish effects =
               [EPublish topic (MWatchEvent (not_found_event namespace)) perr] /\
             Start_continues env perr (Subscriptions (cfg (session st)))
               (session st) st o st'
       | inl err => filter is_publish effects = [] /\ o = Done (Some err)
       | inr wrapper =>
           match storev2.UnwrapInto wrapper with
           | inl err => filter is_publish effects = [] /\ o = Done (Some err)
           | inr stored =>
               match corev3.Metadata stored with
               | None => o = Panic
               | Some meta =>
                   let adopted :=
                     if bool_decide
                          (default "" (corev2.Labels meta !! ManagedByLabel)
                           = "sensu-agent")
                     then strip_managed_by stored meta else stored in
                   exists perr,
                     filter is_publish effects =
                       [EPublish topic
                          (MWatchEvent
                             {| store.Entity := Some adopted;
                                store.Action := store.WatchUpdate |}) perr] /\
                     Start_continues env perr (corev3.Subscriptions adopted)
                       (set_Subscriptions (corev3.Subscriptions adopted)
                          (session st)) st o st'
               end
           end
       end).
Proof.
  intros namespace name topic. unfold Start, Start_body. mstep.
  fold namespace name topic.
  destruct (bus_Subscribe env _ topic _ EntityConfigReceiver) as [err|sub]; mstep.
  { eexists _, _, _. split; [reflexivity|]. simpl.
    split; [by rewrite <- !app_assoc|]. left. simpl. eauto. }
  match goal with |- context [Start_entity_config env ?st0] =>
    destruct (Start_entity_config_cases st0)
      as (o1 & st1 & eff1 & Hrun & Hh & Hsg & Hcase);
    rewrite Hrun
  end.
  simpl in Hh, Hcase. fold namespace name topic in Hh, Hcase.
  destruct (storev2_Get env _ namespace name EntityConfig_StoreName)
    as [gerr|wrapper].
  - (* the store answers with an error *)
    destruct gerr as [m| | | |].
    2-5: destruct Hcase as (Hpub & -> & Hs); simpl;
      eexists _, _, _; (split; [reflexivity|]); simpl;
      (split; [rewrite Hh, <- !app_assoc; simpl; reflexivity|]);
      right; eexists; (split; [filt Hsg Hpub|]); simpl;
      split; [filt Hsg Hpub|done].
    destruct Hcase as (perr & Hpub & -> & Hs). destruct st1 as [s1 h1].
    simpl in Hs, Hh. subst s1. destruct perr as [perr|]; simpl.
    + eexists _, _, _. split; [reflexivity|]. simpl.
      split; [rewrite Hh, <- !app_assoc; simpl; reflexivity|].
      right. eexists. split; [filt Hsg Hpub|]. simpl.
      exists (Some perr). split; [filt Hsg Hpub|]. done.
    + destruct (subscribe_spec env (Subscriptions (cfg (session st)))
                  {| session := session st; history := h1 |})
        as (o2 & st2 & Hrun2 & _ & (evs & Hh2 & Hev) & _).
      apply subscribe_effect_filters in Hev as [Hev1 Hev2].
      rewrite Hrun2. simpl in Hh2.
      destruct o2 as [e|]; simpl;
        eexists _, _, _; (split; [reflexivity|]); simpl;
        (split; [rewrite Hh2, Hh, <- !app_assoc; simpl; reflexivity|]);
        right; eexists; (split; [filt Hsg Hpub; by rewrite ?filter_app, Hev1|]);
        simpl; exists None;
        (split; [filt Hsg Hpub; by rewrite ?filter_app, Hev2|]);
        simpl; eexists _, _, _; (split; [exact Hrun2|]); done.
  - (* the store answers with a wrapper *)
    destruct (storev2.UnwrapInto wrapper) as [uerr|stored] eqn:Hunwrap.
    { destruct Hcase as (Hpub & -> & Hs); simpl.
      eexists _, _, _; (split; [reflexivity|]); simpl.
      split; [rewrite Hh, <- !app_assoc; simpl; reflexivity|].
      right; eexists; (split; [filt Hsg Hpub|]); simpl.
      rewrite Hunwrap. split; [filt Hsg Hpub|done]. }
    destruct (corev3.Metadata stored) as [meta|] eqn:Hmeta.
    2:{ subst o1. simpl. eexists _, _, _. split; [reflexivity|].
        split; [rewrite Hh, <- !app_assoc; simpl; reflexivity|].
        right. eexists. split; [filt Hsg Hsg|]. simpl.
        by rewrite Hunwrap, Hmeta. }
    destruct Hcase as (perr & Hpub & -> & Hs). destruct st1 as [s1 h1].
    simpl in Hs, Hh. destruct perr as [perr|]; simpl.
    + subst s1. eexists _, _, _. split; [reflexivity|]. simpl.
      split; [rewrite Hh, <- !app_assoc; simpl; reflexivity|].
      right. eexists. split; [filt Hsg Hpub|]. simpl.
      rewrite Hunwrap, Hmeta.
      exists (Some perr). split; [filt Hsg Hpub|]. done.
    + match goal with |- context [subscribe env ?l ?stx] =>
        destruct (subscribe_spec env l stx)
          as (o2 & st2 & Hrun2 & _ & (evs & Hh2 & Hev) & _)
      end.
      apply subscribe_effect_filters in Hev as [Hev1 Hev2].
      rewrite Hrun2. simpl in Hh2.
      destruct o2 as [e|]; simpl;
        eexists _, _, _; (split; [reflexivity|]); simpl;
        (split; [rewrite Hh2, Hh, <- !app_assoc; simpl; reflexivity|]);
        right; eexists; (split; [filt Hsg Hpub; by rewrite ?filter_app, Hev1|]);
        simpl; rewrite Hunwrap, Hmeta; exists None;
        (split; [filt Hsg Hpub; by rewrite ?filter_app, Hev2|]);
        simpl; subst s1; simpl in Hrun2;
        eexists _, _, _; (split; [exact Hrun2|]); done.
Qed.

End StartFacts.

Lemma elem_of_filter_singleton {A} (P : A -> Prop) `{!forall x, Decision (P x)}
    (l : list A) (x y : A) :
  filter P l = [y] -> x ∈ l -> P x -> x = y.
Proof.
  intros Hf Hx HP.
  assert (Hin : x ∈ filter P l) by (by apply list_elem_of_filter).
  rewrite Hf in Hin. by apply list_elem_of_singleton in Hin.
Qed.

Lemma elem_of_filter_nil {A} (P : A -> Prop) `{!forall x, Decision (P x)}
    (l : list A) (x : A) :
  filter P l = [] -> x ∈ l -> P x -> False.
Proof.
  intros Hf Hx HP.
  assert (Hin : x ∈ filter P l) by (by apply list_elem_of_filter).
  rewrite Hf in Hin. by apply elem_of_nil in Hin.
Qed.

(** C5: when the store answers the [Get] of [Start] with a wrapper that
    unwraps to a stored entity config with metadata, [Start] hands one
    event to the bus, an [Update] on the entity config topic of the
    agent that carries the stored entity, without its [managed_by] label
    exactly when the value of the label is ["sensu-agent"]; and when
    that publication succeeds the subscriptions of the session are
    those of the stored entity, and it is to them that [Start]
    subscribes.  (When the publication fails [Start] returns before it
    replaces the list.) *)
Theorem Start_adopts_stored_config `{imports : Imports} (env : Collaborators)
    (st st' : State) (o : Outcome (option error))
    (namespace name storeName : string) (wrapper : storev2.Wrapper)
    (stored : corev3.EntityConfig) (meta : corev2.ObjectMeta) :
  Start env st = (o, st') ->
  EStoreGet namespace name storeName (inr wrapper) ∈ effects_since st st' ->
  storev2.UnwrapInto wrapper = inr stored ->
  corev3.Metadata stored = Some meta ->
  exists published perr,
    corev3.EntityClass published = corev3.EntityClass stored /\
    corev3.Subscriptions published = corev3.Subscriptions stored /\
    corev3.Deregister published = corev3.Deregister stored /\
    (corev2.Labels meta !! ManagedByLabel = Some "sensu-agent" ->
     corev3.Metadata published =
       Some {| corev2.Name := corev2.Name meta;
               corev2.Namespace := corev2.Namespace meta;
               corev2.Labels := delete ManagedByLabel (corev2.Labels meta) |}) /\
    (corev2.Labels meta !! ManagedByLabel <> Some "sensu-agent" ->
     corev3.Metadata published = Some meta) /\
    filter is_publish (effects_since st st') =
      [EPublish
         (EntityConfigTopic (Namespace (cfg (session st)))
            (AgentName (cfg (session st))))
         (MWatchEvent {| store.Entity := Some published;
                         store.Action := store.WatchUpdate |})
         perr] /\
    (perr = None ->
     Subscriptions (cfg (session st')) = corev3.Subscriptions stored /\
     exists before o1 st1,
       subscribe env (corev3.Subscriptions stored)
         {| session :=
              set_Subscriptions (corev3.Subscriptions stored) (session st);
            history := before |} = (Done o1, st1) /\
       o = Done o1 /\ session st' = session st1).
Proof.
  intros Hrun Hget Hunwrap Hmeta.
  destruct (Start_cases env st)
    as (o' & st'' & effects & Hrun' & Hh & [(Hsg & _) | (res & Hsg & Hcase)]);
    rewrite Hrun in Hrun'; injection Hrun' as <- <-;
    rewrite (effects_since_app _ _ _ Hh) in *.
  { destruct (elem_of_filter_nil _ _ _ Hsg Hget I). }
  pose proof (elem_of_filter_singleton _ _ _ _ Hsg Hget I) as Heq.
  injection Heq as _ _ _ <-.
  rewrite Hunwrap, Hmeta in Hcase. destruct Hcase as (perr & Hpub & Hcont).
  assert (Hlabel :
    default "" (corev2.Labels meta !! ManagedByLabel) = "sensu-agent"
    <-> corev2.Labels meta !! ManagedByLabel = Some "sensu-agent").
  { destruct (corev2.Labels meta !! ManagedByLabel); simpl;
      split; congruence. }
  eexists _, perr. split; [|split; [|split; [|split; [|split; [|split]]]]];
    [..|exact Hpub|].
  - by case_bool_decide.
  - by case_bool_decide.
  - by case_bool_decide.
  - intros Hl. apply Hlabel in Hl. by rewrite bool_decide_eq_true_2.
  - intros Hl. rewrite bool_decide_eq_false_2; [done|]. by rewrite Hlabel.
  - intros ->. simpl in Hcont.
    assert (Hsubs : corev3.Subscriptions
                      (if bool_decide
                            (default "" (corev2.Labels meta !! ManagedByLabel)
                             = "sensu-agent")
                       then strip_managed_by stored meta else stored)
                    = corev3.Subscriptions stored) by (by case_bool_decide).
    rewrite Hsubs in Hcont.
    destruct Hcont as (before & o1 & st1 & Hsub & -> & Hs).
    split; [|by exists before, o1, st1].
    match type of Hsub with subscribe _ ?l ?stx = _ =>
      destruct (subscribe_spec env l stx) as (o2 & st2 & Hsub' & (Hcfg & _) & _)
    end.
    rewrite Hsub in Hsub'. injection Hsub' as <- <-.
    by rewrite Hs, Hcfg.
Qed.

(** C6: when the store answers the [Get] of [Start] with a not-found
    error, [Start] publishes one event, a [Create] on the entity config
    topic of the agent whose entity has the not-found name and the agent
    class; the error is not the result of [Start], which is that of the
    publication or of the subscriptions that follow.  Any other error of
    the [Get] is the result of [Start], and nothing is published. *)
Theorem Start_entity_config_not_found `{imports : Imports}
    (env : Collaborators) (st st' : State) (o : Outcome (option error))
    (namespace name storeName : string) (err : error) :
  Start env st = (o, st') ->
  EStoreGet namespace name storeName (inl err) ∈ effects_since st st' ->
  match err with
  | ErrNotFound _ =>
      exists perr,
        filter is_publish (effects_since st st') =
          [EPublish
             (EntityConfigTopic (Namespace (cfg (session st)))
                (AgentName (cfg (session st))))
             (MWatchEvent
                {| store.Entity := Some
                     {| corev3.Metadata := Some
                          {| corev2.Name := EntityNotFound;
                             corev2.Namespace := Namespace (cfg (session st));
                             corev2.Labels := ∅ |};
                        corev3.EntityClass := EntityAgentClass;
                        corev3.Subscriptions := [];
                        corev3.Deregister := false |};
                   store.Action := store.WatchCreate |})
             perr] /\
        match perr with
        | Some perr => o = Done (Some perr)
        | None =>
            exists before o1 st1,
              subscribe env (Subscriptions (cfg (session st)))
                {| session := session st; history := before |}
                = (Done o1, st1) /\
              o = Done o1 /\ session st' = session st1
        end
  | _ => o = Done (Some err) /\ filter is_publish (effects_since st st') = []
  end.
Proof.
  intros Hrun Hget.
  destruct (Start_cases env st)
    as (o' & st'' & effects & Hrun' & Hh & [(Hsg & _) | (res & Hsg & Hcase)]);
    rewrite Hrun in Hrun'; injection Hrun' as <- <-;
    rewrite (effects_since_app _ _ _ Hh) in *.
  { destruct (elem_of_filter_nil _ _ _ Hsg Hget I). }
  pose proof (elem_of_filter_singleton _ _ _ _ Hsg Hget I) as Heq.
  injection Heq as _ _ _ <-.
  destruct err; try (destruct Hcase; by split).
  destruct Hcase as (perr & Hpub & Hcont). exists perr.
  split; [exact Hpub|]. destruct perr; [apply Hcont|exact Hcont].
Qed.

Section StartExamples.
Import Sample.

(** The second scenario of the specification: the agent reports [disk],
    the store holds [net] and [ram] and the label of the agent. *)
Lemma Start_adopts_stored_config_witness :
  let wrapper := {| storev2.UnwrapInto := inr stored_config |} in
  let meta :=
    {| corev2.Name := "node-1"; corev2.Namespace := "default";
       corev2.Labels := {[ "sensu.io/managed_by" := "sensu-agent" ]} |} in
  let env := store_answering (inr wrapper) in
  let st := start (new_session ["disk"]) in
  let run := Start env st in
  exists published perr,
    corev3.EntityClass published = corev3.EntityClass stored_config /\
    corev3.Subscriptions published = corev3.Subscriptions stored_config /\
    corev3.Deregister published = corev3.Deregister stored_config /\
    (corev2.Labels meta !! ManagedByLabel = Some "sensu-agent" ->
     corev3.Metadata published =
       Some {| corev2.Name := corev2.Name meta;
               corev2.Namespace := corev2.Namespace meta;
               corev2.Labels := delete ManagedByLabel (corev2.Labels meta) |}) /\
    (corev2.Labels meta !! ManagedByLabel <> Some "sensu-agent" ->
     corev3.Metadata published = Some meta) /\
    filter is_publish (effects_since st run.2) =
      [EPublish
         (EntityConfigTopic (Namespace (cfg (session st)))
            (AgentName (cfg (session st))))
         (MWatchEvent {| store.Entity := Some published;
                         store.Action := store.WatchUpdate |})
         perr] /\
    (perr = None ->
     Subscriptions (cfg (session run.2)) = corev3.Subscriptions stored_config /\
     exists before o1 st1,
       subscribe env (corev3.Subscriptions stored_config)
         {| session :=
              set_Subscriptions (corev3.Subscriptions stored_config)
                (session st);
            history := before |} = (Done o1, st1) /\
       run.1 = Done o1 /\ session run.2 = session st1).
Proof.
  intros wrapper meta env st run.
  refine (Start_adopts_stored_config env st run.2 run.1
            "default" "node-1" "entity_configs" wrapper stored_config meta
            _ _ _ _).
  - apply surjective_pairing.
  - apply (list_elem_of_lookup_2 _ 4). vm_compute. reflexivity.
  - reflexivity.
  - reflexivity.
Defined.

(** What the scenario gives: the label is gone from the published
    entity, and the session subscribes to [net] and [ram], not to [disk]. *)
Example Start_stored_config_scenario :
  let env := store_answering (inr {| storev2.UnwrapInto := inr stored_config |}) in
  let run := Start env (start (new_session ["disk"])) in
  run.1 = Done None /\
  Subscriptions (cfg (session run.2)) = ["net"; "ram"] /\
  dom (subscriptionsMap (session run.2)) = topics "default" ["net"; "ram"] /\
  filter is_publish (history run.2) =
    [EPublish "sensu:entity-config:default:node-1"
       (MWatchEvent
          {| store.Entity := Some
               {| corev3.Metadata := Some
                    {| corev2.Name := "node-1"; corev2.Namespace := "default";
                       corev2.Labels := ∅ |};
                  corev3.EntityClass := "agent";
                  corev3.Subscriptions := ["net"; "ram"];
                  corev3.Deregister := false |};
             store.Action := store.WatchUpdate |})
       None].
Proof.
  split; [|split; [|split]].
  - vm_compute. reflexivity.
  - vm_compute. reflexivity.
  - apply (bool_decide_unpack _). vm_compute. reflexivity.
  - vm_compute. reflexivity.
Qed.

(** The stored entity config is found, but its publication fails:
    [Start] returns the error of the bus before it replaces the list, so
    the session keeps the list of the agent, and subscribes to no check
    topic, neither of the stored list nor of its own. *)
Lemma Start_publish_fails_counterexample :
  let wrapper := {| storev2.UnwrapInto := inr stored_config |} in
  let run := Start (publish_failing (inr wrapper)) (start (new_session ["disk"])) in
  EStoreGet "default" "node-1" "entity_configs" (inr wrapper) ∈ history run.2 /\
  run.1 = Done (Some (ErrorString "bus closed")) /\
  Subscriptions (cfg (session run.2)) = ["disk"] /\
  Subscriptions (cfg (session run.2)) <> corev3.Subscriptions stored_config /\
  subscriptionsMap (session run.2) = ∅ /\
  Forall (fun e => match e with
                   | ESubscribe topic _ _ _ =>
                       topic = "sensu:entity-config:default:node-1"
                   | _ => True
                   end) (history run.2).
Proof.
  split; [|split; [|split; [|split; [|split]]]].
  - apply (list_elem_of_lookup_2 _ 4). vm_compute. reflexivity.
  - vm_compute. reflexivity.
  - vm_compute. reflexivity.
  - vm_compute. congruence.
  - vm_compute. reflexivity.
  - vm_compute. repeat constructor.
Qed.

(** A stored entity config without metadata: [Start] reads the labels
    through the nil pointer and panics, after the [Get] and before any
    publication. *)
Example Start_stored_config_without_metadata :
  let stored :=
    {| corev3.Metadata := None;
       corev3.EntityClass := "agent";
       corev3.Subscriptions := ["net"; "ram"];
       corev3.Deregister := false |} in
  let env := store_answering (inr {| storev2.UnwrapInto := inr stored |}) in
  let run := Start env (start (new_session ["disk"])) in
  run.1 = Panic /\
  filter is_publish (history run.2) = [] /\
  Subscriptions (cfg (session run.2)) = ["disk"].
Proof.
  split; [|split]; vm_compute; reflexivity.
Qed.

(** A stored wrapper that does not unwrap: [Start] returns the error,
    publishes nothing and keeps the list of the agent. *)
Example Start_stored_config_unwrap_fails :
  let env :=
    store_answering
      (inr {| storev2.UnwrapInto := inl (ErrorString "unknown encoding") |}) in
  let run := Start env (start (new_session ["disk"])) in
  run.1 = Done (Some (ErrorString "unknown encoding")) /\
  filter is_publish (history run.2) = [] /\
  Subscriptions (cfg (session run.2)) = ["disk"] /\
  subscriptionsMap (session run.2) = ∅.
Proof.
  split; [|split; [|split]]; vm_compute; reflexivity.
Qed.

(** The first scenario of the specification: no stored entity config. *)
Lemma Start_entity_config_not_found_witness :
  let st := start (new_session ["disk"; "cpu"]) in
  let run := Start reliable st in
  exists perr,
    filter is_publish (effects_since st run.2) =
      [EPublish
         (EntityConfigTopic (Namespace (cfg (session st)))
            (AgentName (cfg (session st))))
         (MWatchEvent
            {| store.Entity := Some
                 {| corev3.Metadata := Some
                      {| corev2.Name := EntityNotFound;
                         corev2.Namespace := Namespace (cfg (session st));
                         corev2.Labels := ∅ |};
                    corev3.EntityClass := EntityAgentClass;
                    corev3.Subscriptions := [];
                    corev3.Deregister := false |};
               store.Action := store.WatchCreate |})
         perr] /\
    match perr with
    | Some perr => run.1 = Done (Some perr)
    | None =>
        exists before o1 st1,
          subscribe reliable (Subscriptions (cfg (session st)))
            {| session := session st; history := before |}
            = (Done o1, st1) /\
          run.1 = Done o1 /\ session run.2 = session st1
    end.
Proof.
  intros st run.
  refine (Start_entity_config_not_found reliable st run.2 run.1
            "default" "node-1" "entity_configs" (ErrNotFound "key not found")
            _ _).
  - apply surjective_pairing.
  - apply (list_elem_of_lookup_2 _ 4). vm_compute. reflexivity.
Defined.

(** A store that is down: [Start] returns its error, publishes nothing
    and subscribes to no check topic. *)
Example Start_store_down :
  let env := store_answering (inl (ErrInternal "etcdserver: no leader")) in
  let run := Start env (start (new_session ["disk"; "cpu"])) in
  run.1 = Done (Some (ErrInternal "etcdserver: no leader")) /\
  filter is_publish (history run.2) = [] /\
  subscriptionsMap (session run.2) = ∅.
Proof.
  split; [|split]; vm_compute; reflexivity.
Qed.

End StartExamples.
(** * Further properties *)

(** ** [diff] on arbitrary lists *)

Section DiffMore.

Lemma diff_loop_same (l added removed : list string) :
  diff_loop l l added removed = (added, removed).
Proof.
  revert added removed. induction l as [|x l IH]; intros added removed.
  - simp diff_loop. by rewrite !app_nil_r.
  - simp diff_loop. rewrite Compare_refl. simpl. apply IH.
Qed.

Lemma diff_loop_conserves (old new added removed : list string) :
  old ++ (diff_loop old new added removed).1 ++ removed
    ≡ₚ new ++ (diff_loop old new added removed).2 ++ added.
Proof.
  funelim (diff_loop old new added removed); simpl.
  - rewrite app_nil_r. solve_Permutation.
  - rewrite app_nil_r. solve_Permutation.
  - apply Compare_eq in Heq as ->. by f_equiv.
  - rewrite <- H. solve_Permutation.
  - rewrite H. solve_Permutation.
Qed.

Lemma diff_loop_sublists (old new added removed : list string) :
  exists A R,
    diff_loop old new added removed = (added ++ A, removed ++ R) /\
    A `sublist_of` new /\ R `sublist_of` old.
Proof.
  funelim (diff_loop old new added removed).
  - exists new, []. by rewrite app_nil_r.
  - exists [], (s :: l). by rewrite app_nil_r.
  - destruct H as (A & R & -> & HA & HR). exists A, R.
    split; [done|]. split; by apply sublist_cons.
  - destruct H as (A & R & -> & HA & HR). exists A, (o :: R).
    rewrite <- app_assoc. split; [done|]. split; [done|]. by apply sublist_skip.
  - destruct H as (A & R & -> & HA & HR). exists (n :: A), R.
    rewrite <- app_assoc. split; [done|]. split; [|done]. by apply sublist_skip.
Qed.

Lemma diff_loop_swap (old new added removed : list string) :
  diff_loop new old removed added =
    ((diff_loop old new added removed).2, (diff_loop old new added removed).1).
Proof.
  funelim (diff_loop old new added removed).
  - destruct new; by simp diff_loop.
  - by simp diff_loop.
  - simp diff_loop. apply Compare_eq in Heq as ->. rewrite Compare_refl.
    simpl. rewrite H. done.
  - simp diff_loop. pose proof Heq as Hgt. apply Compare_Gt_Lt in Hgt.
    rewrite Hgt. simpl. rewrite H. done.
  - simp diff_loop. pose proof Heq as Hlt. apply Compare_Gt_Lt in Hlt.
    rewrite Hlt. simpl. rewrite H. done.
Qed.

End DiffMore.

(** X1: comparing a list with itself reports nothing, whatever the list
    (sorted or not, with or without repeated names). *)
Theorem diff_same (l : list string) : diff l l = ([], []).
Proof. apply diff_loop_same. Qed.

(** X2: [diff] loses and invents nothing: on any two lists, the old names
    with the added ones are, up to order, the new names with the removed
    ones. *)
Theorem diff_conserves (old new : list string) :
  old ++ (diff old new).1 ≡ₚ new ++ (diff old new).2.
Proof.
  pose proof (diff_loop_conserves old new [] []) as H.
  by rewrite !app_nil_r in H.
Qed.

(** X3: exchanging the two lists exchanges the two results. *)
Theorem diff_swap (old new : list string) :
  diff new old = ((diff old new).2, (diff old new).1).
Proof. apply diff_loop_swap. Qed.

(** X4: on any two lists, the added names are names of the new list in
    the order of the new list, and the removed names are names of the old
    list in the order of the old list. *)
Theorem diff_sublists (old new : list string) :
  (diff old new).1 `sublist_of` new /\ (diff old new).2 `sublist_of` old.
Proof.
  unfold diff. destruct (diff_loop_sublists old new [] []) as (A & R & -> & HA & HR).
  done.
Qed.

(** ** [removeEmptySubscriptions] and [sortSubscriptions] *)

Lemma removeEmptySubscriptions_filter (l : list string) :
  removeEmptySubscriptions l = filter (fun x => x <> "") l.
Proof.
  induction l as [|x l IH]; simpl; [done|].
  rewrite filter_cons, IH. by destruct (decide (x <> "")).
Qed.

Lemma sortSubscriptions_nonempty_perm (L : list string) :
  sortSubscriptions L ≡ₚ filter (fun x => x <> "") L.
Proof.
  unfold sortSubscriptions. rewrite <- removeEmptySubscriptions_filter.
  destruct (StringsAreSorted _); [done|apply sort_Strings_perm].
Qed.

(** X5: [sortSubscriptions] only drops the empty names and reorders: its
    result holds every non-empty name as often as the list does (a
    repeated name stays repeated). *)
Theorem sortSubscriptions_permutation (L : list string) :
  sortSubscriptions L ≡ₚ filter (fun x => x <> "") L.
Proof.
  unfold sortSubscriptions. rewrite <- removeEmptySubscriptions_filter.
  destruct (StringsAreSorted _); [done|apply sort_Strings_perm].
Qed.
(** ** [subscribe] and [unsubscribe]: handles *)

Section HandleFacts.
Context `{imports : Imports} (env : Collaborators).

(** The handles of the loop of [subscribe]: an entry of the map is never
    changed, a handle is asked of the bus only for a topic that has none,
    and every handle the bus returns is recorded under its topic. *)
Lemma subscribe_loop_handles agent subs st :
  exists o st' evs,
    subscribe_loop env agent subs st = (Done o, st') /\
    history st' = history st ++ evs /\
    subscriptionsMap (session st) ⊆ subscriptionsMap (session st') /\
    (forall t c r res, ESubscribe t c r res ∈ evs ->
       subscriptionsMap (session st) !! t = None /\
       forall h, res = inr h -> subscriptionsMap (session st') !! t = Some h) /\
    (forall t h, subscriptionsMap (session st') !! t = Some h ->
       subscriptionsMap (session st) !! t = Some h \/
       exists c, ESubscribe t c SessionReceiver (inr h) ∈ evs).
Proof.
  revert st. induction subs as [|sub rest IH]; intros st; simpl.
  - exists None, st, []. rewrite app_nil_r.
    split; [done|]. split; [done|]. split; [done|]. split.
    + intros t c r res Hin. by apply elem_of_nil in Hin.
    + intros t h Hth. by left.
  - destruct (decide (sub = "")) as [->|Hne]; [apply IH|].
    mstep.
    destruct (subscriptionsMap (session st)
                !! SubscriptionTopic (Namespace (cfg (session st))) sub)
      as [known|] eqn:Hl; mstep.
    + match goal with |- context [subscribe_loop env agent rest ?st1] =>
        destruct (IH st1) as (o & st' & evs & Hrun & Hh & Hsub & Hev & Hnew)
      end.
      simpl in *. exists o, st'. eexists. split; [done|].
      split; [by rewrite Hh, <- app_assoc|]. split; [done|]. split.
      * intros t c r res Hin. apply elem_of_cons in Hin as [Hin|Hin]; [done|].
        by apply (Hev t c r res).
      * intros t h Hth. destruct (Hnew t h Hth) as [?|(c & Hc)]; [by left|].
        right. exists c. by apply elem_of_cons; right.
    + destruct (bus_Subscribe env _ _ agent SessionReceiver) as [err|h0] eqn:Hs;
        mstep.
      * eexists _, _, _. split; [reflexivity|]. simpl.
        split; [by rewrite <- !app_assoc|]. split; [done|]. split.
        -- intros t c r res Hin.
           repeat (apply elem_of_cons in Hin as [Hin|Hin]; [try done|]);
             [|by apply elem_of_nil in Hin].
           injection Hin as -> -> -> ->. split; [done|]. done.
        -- intros t h Hth. by left.
      * match goal with |- context [subscribe_loop env agent rest ?st1] =>
          destruct (IH st1) as (o & st' & evs & Hrun & Hh & Hsub & Hev & Hnew)
        end.
        simpl in *. exists o, st'. eexists. split; [done|].
        split; [by rewrite Hh, <- !app_assoc|].
        assert (Hins : subscriptionsMap (session st) ⊆
                       <[SubscriptionTopic (Namespace (cfg (session st))) sub := h0]>
                         (subscriptionsMap (session st))).
        { by apply insert_subseteq. }
        split; [by etrans|]. split.
        -- intros t c r res Hin.
           apply elem_of_cons in Hin as [Hin|Hin]; [done|].
           apply elem_of_cons in Hin as [Hin|Hin].
           ++ injection Hin as -> -> -> ->. split; [done|].
              intros h [= <-].
              eapply lookup_weaken; [|exact Hsub]. apply lookup_insert_eq.
           ++ destruct (Hev t c r res Hin) as [Hnone Hsome]. split; [|done].
              destruct (decide (SubscriptionTopic (Namespace (cfg (session st))) sub = t))
                as [<-|Hd]; [by rewrite lookup_insert_eq in Hnone|].
              by rewrite lookup_insert_ne in Hnone.
        -- intros t h Hth. destruct (Hnew t h Hth) as [Hold|(c & Hc)].
           ++ destruct (decide (SubscriptionTopic (Namespace (cfg (session st))) sub = t))
                as [<-|Hd].
              ** rewrite lookup_insert_eq in Hold. injection Hold as <-.
                 right. exists agent. apply elem_of_cons; right.
                 apply list_elem_of_here.
              ** rewrite lookup_insert_ne in Hold by done. by left.
           ++ right. exists c. by do 2 (apply elem_of_cons; right).
Qed.

(** Once the session has a handle for every name of the list, the loop
    of [subscribe] asks nothing of the bus. *)
Lemma subscribe_loop_known agent subs st :
  (forall x, x ∈ subs -> x <> "" ->
     is_Some (subscriptionsMap (session st)
                !! SubscriptionTopic (Namespace (cfg (session st))) x)) ->
  exists st' evs,
    subscribe_loop env agent subs st = (Done None, st') /\
    session st' = session st /\
    history st' = history st ++ evs /\
    Forall (fun e => is_log e = true) evs.
Proof.
  revert st. induction subs as [|sub rest IH]; intros st Hknown; simpl.
  - exists st, []. by rewrite app_nil_r.
  - assert (Hrest : forall st1, session st1 = session st ->
              forall x, x ∈ rest -> x <> "" ->
                is_Some (subscriptionsMap (session st1)
                  !! SubscriptionTopic (Namespace (cfg (session st1))) x)).
    { intros st1 -> x Hx. apply Hknown. by apply elem_of_cons; right. }
    destruct (decide (sub = "")) as [->|Hne]; [by apply IH, Hrest|].
    mstep.
    destruct (Hknown sub (list_elem_of_here _ _) Hne) as [h ->]. mstep.
    match goal with |- context [subscribe_loop env agent rest ?st1] =>
      destruct (IH st1 (Hrest st1 eq_refl)) as (st' & evs & Hrun & Hs & Hh & Hev)
    end.
    simpl in *. exists st'. eexists. split; [done|]. split; [done|].
    split; [by rewrite Hh, <- app_assoc|]. by constructor.
Qed.

End HandleFacts.

Lemma log_no_subscribe (evs : list Effect) :
  Forall (fun e => is_log e = true) evs -> filter is_subscribe evs = [].
Proof.
  induction 1 as [|e evs He _ IH]; [done|].
  rewrite filter_cons, IH. by destruct e.
Qed.

(** X6: whatever the bus answers, [subscribe] changes no entry of the
    subscription map, asks the bus only for topics that have no handle,
    and records every handle the bus returns under its topic: a handle
    in the map afterwards was there before or was returned by the bus in
    this call. *)
Theorem subscribe_records_handles `{imports : Imports} (env : Collaborators)
    (subs : list string) (st : State) :
  exists o st',
    subscribe env subs st = (Done o, st') /\
    subscriptionsMap (session st) ⊆ subscriptionsMap (session st') /\
    (forall t c r res, ESubscribe t c r res ∈ effects_since st st' ->
       subscriptionsMap (session st) !! t = None /\
       forall h, res = inr h -> subscriptionsMap (session st') !! t = Some h) /\
    (forall t h, subscriptionsMap (session st') !! t = Some h ->
       subscriptionsMap (session st) !! t = Some h \/
       exists c, ESubscribe t c SessionReceiver (inr h) ∈ effects_since st st').
Proof.
  unfold subscribe. mstep.
  match goal with |- context [subscribe_loop env ?agent subs ?st1] =>
    destruct (subscribe_loop_handles env agent subs st1)
      as (o & st' & evs & Hrun & Hh & Hsub & Hev & Hnew)
  end.
  simpl in *. exists o, st'. split; [done|]. split; [done|].
  rewrite <- app_assoc in Hh. rewrite (effects_since_app _ _ _ Hh).
  split.
  - intros t c r res Hin. apply elem_of_cons in Hin as [Hin|Hin]; [done|].
    by apply (Hev t c r res).
  - intros t h Hth. destruct (Hnew t h Hth) as [?|(c & Hc)]; [by left|].
    right. exists c. by apply elem_of_cons; right.
Qed.

(** X7: [subscribe] is idempotent: after a call that succeeded, the same
    call again succeeds without asking anything of the bus and leaves the
    session as it is. *)
Theorem subscribe_twice `{imports : Imports} (env : Collaborators)
    (subs : list string) (st st1 : State) :
  subscribe env subs st = (Done None, st1) ->
  exists st2,
    subscribe env subs st1 = (Done None, st2) /\
    session st2 = session st1 /\
    filter is_subscribe (effects_since st1 st2) = [].
Proof.
  intros Hfirst.
  destruct (subscribe_spec env subs st)
    as (o & st1' & Hrun & (Hcfg & _) & _ & Hdom & _).
  rewrite Hfirst in Hrun. injection Hrun as <- <-.
  specialize (Hdom eq_refl).
  unfold subscribe. mstep.
  match goal with |- context [subscribe_loop env ?agent subs ?stx] =>
    destruct (subscribe_loop_known env agent subs stx)
      as (st2 & evs & Hrun2 & Hs & Hh & Hev)
  end.
  { simpl. intros x Hx Hne. apply (elem_of_dom (D:=gset string)).
    rewrite Hdom, Hcfg. apply elem_of_union_r, elem_of_topics.
    exists x. split; [|done]. by apply removeEmptySubscriptions_elem. }
  simpl in *. exists st2. split; [done|]. split; [done|].
  rewrite <- app_assoc in Hh. rewrite (effects_since_app _ _ _ Hh).
  simpl. rewrite filter_cons. simpl. by apply log_no_subscribe.
Qed.
Section CancelFacts.
Context `{imports : Imports} (env : Collaborators).

Lemma unsubscribe_cancel_loop_handles subs st :
  exists st' evs,
    unsubscribe_cancel_loop env subs st = (Done tt, st') /\
    history st' = history st ++ evs /\
    subscriptionsMap (session st') ⊆ subscriptionsMap (session st) /\
    (forall t h, subscriptionsMap (session st) !! t = Some h ->
       subscriptionsMap (session st') !! t = None -> ECancel h None ∈ evs) /\
    (forall h err, ECancel h err ∈ evs ->
       exists x, x ∈ subs /\
         subscriptionsMap (session st)
           !! SubscriptionTopic (Namespace (cfg (session st))) x = Some h) /\
    Forall (fun e => is_log e = true \/ is_cancel e = true) evs.
Proof.
  revert st. induction subs as [|sub rest IH]; intros st; simpl.
  - exists st, []. rewrite app_nil_r.
    split; [done|]. split; [done|]. split; [done|]. split; [|split; [|done]].
    + intros t h Hs Hn. congruence.
    + intros h err Hin. by apply elem_of_nil in Hin.
  - mstep.
    destruct (subscriptionsMap (session st)
                !! SubscriptionTopic (Namespace (cfg (session st))) sub)
      as [known|] eqn:Hl; mstep.
    + destruct (subscription_Cancel env (history st) known) as [err|] eqn:Hc;
        mstep;
        match goal with |- context [unsubscribe_cancel_loop env rest ?st1] =>
          destruct (IH st1) as (st' & evs & Hrun & Hh & Hsub & Hrem & Hcalled & Hkinds)
        end; simpl in *; exists st'; eexists; (split; [done|]).
      * split; [by rewrite Hh, <- !app_assoc|]. split; [done|].
        split; [|split].
        -- intros t h Hs Hn. do 2 (apply elem_of_cons; right). eauto.
        -- intros h err' Hin. apply elem_of_cons in Hin as [Hin|Hin].
           ++ injection Hin as -> ->. exists sub. split; [apply list_elem_of_here|done].
           ++ apply elem_of_cons in Hin as [Hin|Hin]; [done|].
              destruct (Hcalled h err' Hin) as (x & Hx & Hlx).
              exists x. split; [by apply elem_of_cons; right|done].
        -- repeat (constructor; [auto|]). done.
      * split; [by rewrite Hh, <- !app_assoc|].
        split; [etrans; [exact Hsub|apply delete_subseteq]|].
        split; [|split].
        -- intros t h Hs Hn.
           destruct (decide (SubscriptionTopic (Namespace (cfg (session st))) sub = t))
             as [<-|Hd].
           ++ rewrite Hl in Hs. injection Hs as ->. apply list_elem_of_here.
           ++ do 2 (apply elem_of_cons; right). apply (Hrem t h); [|done].
              by rewrite lookup_delete_ne.
        -- intros h err' Hin. apply elem_of_cons in Hin as [Hin|Hin].
           ++ injection Hin as -> ->. exists sub. split; [apply list_elem_of_here|done].
           ++ apply elem_of_cons in Hin as [Hin|Hin]; [done|].
              destruct (Hcalled h err' Hin) as (x & Hx & Hlx).
              exists x. split; [by apply elem_of_cons; right|].
              eapply lookup_weaken; [exact Hlx|apply delete_subseteq].
        -- repeat (constructor; [auto|]). done.
    + match goal with |- context [unsubscribe_cancel_loop env rest ?st1] =>
        destruct (IH st1) as (st' & evs & Hrun & Hh & Hsub & Hrem & Hcalled & Hkinds)
      end; simpl in *; exists st'; eexists; (split; [done|]).
      split; [by rewrite Hh, <- !app_assoc|]. split; [done|].
      split; [|split].
      * intros t h Hs Hn. apply elem_of_cons; right. eauto.
      * intros h err' Hin. apply elem_of_cons in Hin as [Hin|Hin]; [done|].
        destruct (Hcalled h err' Hin) as (x & Hx & Hlx).
        exists x. split; [by apply elem_of_cons; right|done].
      * constructor; auto.
Qed.

End CancelFacts.

Lemma unsubscribe_handles `{imports : Imports} (env : Collaborators)
    (subs : list string) (st : State) :
  exists st' evs,
    unsubscribe env subs st = (Done tt, st') /\
    history st' = history st ++ evs /\
    subscriptionsMap (session st') ⊆ subscriptionsMap (session st) /\
    (forall t h, subscriptionsMap (session st) !! t = Some h ->
       subscriptionsMap (session st') !! t = None -> ECancel h None ∈ evs) /\
    (forall h err, ECancel h err ∈ evs ->
       exists x, x ∈ subs /\
         subscriptionsMap (session st)
           !! SubscriptionTopic (Namespace (cfg (session st))) x = Some h).
Proof.
  destruct (unsubscribe_cancel_loop_handles env subs st)
    as (st1 & evs & Hrun & Hh & Hsub & Hrem & Hcalled & _).
  unfold unsubscribe. erewrite bind_Done by exact Hrun.
  erewrite bind_Done by reflexivity.
  assert (Hring : exists st' ring,
    unsubscribe_ring_loop env subs st1 = (Done tt, st') /\
    session st' = session st1 /\ history st' = history st1 ++ ring /\
    Forall (fun e => is_cancel e = false) ring).
  { destruct (unsubscribe_ring_loop_cleanup env subs st1)
      as (st' & ring & Hr & Hs & Hhr & Hc).
    exists st', ring. repeat split; try done.
    eapply Forall_impl; [exact (ring_cleanup_effects _ _ _ _ Hc)|].
    intros e [He | ->]; [by destruct e|done]. }
  assert (Hgoal : forall st' ring,
    session st' = session st1 -> history st' = history st1 ++ ring ->
    Forall (fun e => is_cancel e = false) ring ->
    history st' = history st ++ evs ++ ring /\
    subscriptionsMap (session st') ⊆ subscriptionsMap (session st) /\
    (forall t h, subscriptionsMap (session st) !! t = Some h ->
       subscriptionsMap (session st') !! t = None ->
       ECancel h None ∈ evs ++ ring) /\
    (forall h err, ECancel h err ∈ evs ++ ring ->
       exists x, x ∈ subs /\
         subscriptionsMap (session st)
           !! SubscriptionTopic (Namespace (cfg (session st))) x = Some h)).
  { intros st' ring Hs Hhr Hnc. rewrite Hs.
    rewrite Hh, <- app_assoc in Hhr.
    split; [done|]. split; [done|]. split.
    - intros t h Ht Hn. apply elem_of_app. left. eauto.
    - intros h err Hin. apply elem_of_app in Hin as [Hin|Hin]; [eauto|].
      rewrite Forall_forall in Hnc. by specialize (Hnc _ Hin). }
  destruct (ringPool (session st1)).
  - destruct (deregister (session st1)); simpl.
    + destruct Hring as (st' & ring & Hr & Hs & Hhr & Hnc).
      exists st', (evs ++ ring). split; [done|]. by apply (Hgoal st' ring).
    + exists st1, (evs ++ []). split; [done|]. apply (Hgoal st1 []); auto.
      by rewrite app_nil_r.
  - exists st1, (evs ++ []). split; [done|]. apply (Hgoal st1 []); auto.
    by rewrite app_nil_r.
Qed.

(** X8: [unsubscribe] adds and changes no entry of the subscription map;
    it calls [Cancel] only on the handle the map holds for the topic of a
    listed name, and it forgets an entry only after [Cancel] succeeded on
    its handle (a failed [Cancel] keeps the entry). *)
Theorem unsubscribe_forgets_cancelled `{imports : Imports}
    (env : Collaborators) (subs : list string) (st : State) :
  exists st',
    unsubscribe env subs st = (Done tt, st') /\
    subscriptionsMap (session st') ⊆ subscriptionsMap (session st) /\
    (forall t h, subscriptionsMap (session st) !! t = Some h ->
       subscriptionsMap (session st') !! t = None ->
       ECancel h None ∈ effects_since st st') /\
    (forall h err, ECancel h err ∈ effects_since st st' ->
       exists x, x ∈ subs /\
         subscriptionsMap (session st)
           !! SubscriptionTopic (Namespace (cfg (session st))) x = Some h).
Proof.
  destruct (unsubscribe_handles env subs st)
    as (st' & evs & Hrun & Hh & Hsub & Hrem & Hcalled).
  exists st'. by rewrite (effects_since_app _ _ _ Hh).
Qed.

(** X9: with a bus whose [Subscribe] and [Cancel] succeed, [subscribe]
    followed by [unsubscribe] of the same names leaves no handle for
    their topics: the keys of the map are the keys before without the
    topics of the names. *)
Theorem subscribe_unsubscribe `{imports : Imports} (env : Collaborators)
    (subs : list string) (st : State) :
  subscribe_never_fails env -> cancel_never_fails env ->
  exists st1 st2,
    subscribe env subs st = (Done None, st1) /\
    unsubscribe env subs st1 = (Done tt, st2) /\
    dom (subscriptionsMap (session st2)) =
      dom (subscriptionsMap (session st))
        ∖ topics (Namespace (cfg (session st))) subs.
Proof.
  intros Hsub Hcan.
  destruct (subscribe_spec env subs st)
    as (o & st1 & Hrun1 & (Hcfg & _) & _ & Hdom1 & Hok).
  rewrite (Hok Hsub) in *. specialize (Hdom1 eq_refl).
  destruct (unsubscribe_spec env subs st1) as (st2 & Hrun2 & _ & Hdom2).
  exists st1, st2. split; [done|]. split; [done|].
  rewrite (Hdom2 Hcan), Hdom1, Hcfg. apply set_eq. intros t.
  rewrite !elem_of_difference, elem_of_union, !elem_of_topics.
  split; [|tauto].
  intros [[Hin | (x & Hx & ->)] Hn]; [done|].
  destruct Hn. exists x. split; [|done].
  by apply removeEmptySubscriptions_elem in Hx as [? _].
Qed.
(** ** Reconciliation: order, repetitions and empty names *)

Lemma sortSubscriptions_sort (l : list string) :
  sortSubscriptions l = sort_Strings (removeEmptySubscriptions l).
Proof.
  apply sort_Strings_unique; [|apply sortSubscriptions_sorted].
  unfold sortSubscriptions.
  destruct (StringsAreSorted _); [done|apply sort_Strings_perm].
Qed.

Lemma sortSubscriptions_Permutation (l l' : list string) :
  l ≡ₚ l' -> sortSubscriptions l = sortSubscriptions l'.
Proof.
  intros Hp. rewrite (sortSubscriptions_sort l').
  apply sort_Strings_unique; [|apply sortSubscriptions_sorted].
  rewrite sortSubscriptions_nonempty_perm, removeEmptySubscriptions_filter.
  by rewrite Hp.
Qed.

Lemma sortSubscriptions_idem (l : list string) :
  sortSubscriptions (sortSubscriptions l) = sortSubscriptions l.
Proof.
  apply sortSubscriptions_fixed; [apply sortSubscriptions_sorted|].
  rewrite sortSubscriptions_elem. tauto.
Qed.

Lemma sortSubscriptions_strictly (l : list string) :
  NoDup (filter (fun x => x <> "") l) -> strictly_sorted (sortSubscriptions l).
Proof.
  intros Hnd. apply sorted_NoDup_strictly; [apply sortSubscriptions_sorted|].
  by rewrite sortSubscriptions_nonempty_perm.
Qed.

(** X10: an entity config that lists the names of the session in another
    order changes nothing: the reconciliation asks nothing of the bus,
    writes no log line and keeps the subscription map; only the list of
    the session is stored sorted. *)
Theorem reconcile_reordered `{imports : Imports} (env : Collaborators)
    (new : list string) (st : State) :
  new ≡ₚ Subscriptions (cfg (session st)) ->
  reconcile env new st =
    (Done tt,
     {| session := set_Subscriptions (sortSubscriptions new) (session st);
        history := history st |}).
Proof.
  intros Hp. unfold reconcile. erewrite bind_Done by reflexivity.
  rewrite <- (sortSubscriptions_Permutation _ _ Hp).
  unfold diff. rewrite diff_loop_same.
  reflexivity.
Qed.

Lemma reconcile_settles `{imports : Imports} (env : Collaborators)
    (new : list string) (st : State) :
  let namespace := Namespace (cfg (session st)) in
  let nonempty := filter (fun x : string => x <> "") in
  subscribe_never_fails env -> cancel_never_fails env ->
  Inj (=) (=) (SubscriptionTopic namespace) ->
  NoDup (nonempty (Subscriptions (cfg (session st)))) ->
  dom (subscriptionsMap (session st))
    = topics namespace (nonempty (Subscriptions (cfg (session st)))) ->
  NoDup (nonempty new) ->
  exists st',
    reconcile env new st = (Done tt, st') /\
    Subscriptions (cfg (session st')) = sortSubscriptions new /\
    dom (subscriptionsMap (session st')) = topics namespace (nonempty new).
Proof.
  intros namespace nonempty Hsub Hcan Hinj Hold Hdom Hnew.
  assert (Htopics : forall l,
    topics namespace (sortSubscriptions l) = topics namespace (nonempty l)).
  { intros l. apply set_eq. intros t. rewrite !elem_of_topics.
    split; intros (x & Hx & ->); exists x; (split; [|done]).
    - apply sortSubscriptions_elem in Hx. apply list_elem_of_filter. tauto.
    - apply list_elem_of_filter in Hx. apply sortSubscriptions_elem. tauto. }
  set (old' := sortSubscriptions (Subscriptions (cfg (session st)))).
  set (st0 := {| session := set_Subscriptions old' (session st);
                 history := history st |}).
  assert (Heq : reconcile env new st
                = reconcile env (sortSubscriptions new) st0).
  { unfold reconcile. erewrite !bind_Done by reflexivity. simpl.
    fold old'.
    rewrite (sortSubscriptions_idem new).
    unfold old'. rewrite (sortSubscriptions_idem (Subscriptions (cfg (session st)))).
    destruct (diff _ _) as [added removed].
    erewrite (bind_Done (modify _) _ st) by reflexivity.
    erewrite (bind_Done (modify _) _ st0) by reflexivity.
    reflexivity. }
  destruct (reconcile_spec env (sortSubscriptions new) st0)
    as (st' & Hrun & Hsubs & Hns & Hinv); try done; simpl.
  - by apply sortSubscriptions_strictly.
  - unfold old'. rewrite sortSubscriptions_elem. tauto.
  - unfold subscribed_to. simpl. unfold old'. by rewrite Htopics.
  - by apply sortSubscriptions_strictly.
  - rewrite sortSubscriptions_elem. tauto.
  - exists st'. rewrite Heq. split; [done|]. split; [done|].
    unfold subscribed_to in Hinv. rewrite Hinv, Hns. simpl. apply Htopics.
Qed.

(** X11: the reconciliation does its own sorting and drops the empty
    names itself: for lists in any order, with empty names, whose
    non-empty names are not repeated, and a bus whose [Subscribe] and
    [Cancel] succeed, a session subscribed to the topics of the non-empty
    names of its list is afterwards subscribed to the topics of the
    non-empty names of the new list. *)
Theorem reconcile_any_order `{imports : Imports} (env : Collaborators)
    (new : list string) (st : State) :
  let namespace := Namespace (cfg (session st)) in
  let nonempty := filter (fun x : string => x <> "") in
  subscribe_never_fails env -> cancel_never_fails env ->
  Inj (=) (=) (SubscriptionTopic namespace) ->
  NoDup (nonempty (Subscriptions (cfg (session st)))) ->
  dom (subscriptionsMap (session st))
    = topics namespace (nonempty (Subscriptions (cfg (session st)))) ->
  NoDup (nonempty new) ->
  exists st',
    reconcile env new st = (Done tt, st') /\
    Subscriptions (cfg (session st')) = sortSubscriptions new /\
    dom (subscriptionsMap (session st')) = topics namespace (nonempty new).
Proof. apply reconcile_settles. Qed.
(** ** The sender: frames *)

Section SenderMore.
Context `{imports : Imports} (env : Collaborators).

Lemma unsubscribe_effects subs st :
  exists st' evs,
    unsubscribe env subs st = (Done tt, st') /\
    history st' = history st ++ evs /\
    same_frame (session st) (session st') /\
    Forall (fun e => reconcile_effect e = true) evs.
Proof.
  destruct (unsubscribe_cancel_loop_handles env subs st)
    as (st1 & evs & Hrun & Hh & _ & _ & _ & Hkinds).
  destruct (unsubscribe_cancel_loop_spec env subs st) as (st1' & Hrun' & Hfr & _).
  rewrite Hrun in Hrun'. injection Hrun' as <-.
  assert (Hk : Forall (fun e => reconcile_effect e = true) evs).
  { eapply Forall_impl; [exact Hkinds|]. intros e [He|He]; by destruct e. }
  unfold unsubscribe. erewrite bind_Done by exact Hrun.
  erewrite bind_Done by reflexivity.
  destruct (ringPool (session st1)); [|by exists st1, evs].
  destruct (deregister (session st1)); simpl; [|by exists st1, evs].
  destruct (unsubscribe_ring_loop_cleanup env subs st1)
    as (st' & ring & Hr & Hs & Hhr & Hc).
  exists st', (evs ++ ring). split; [done|].
  split; [by rewrite Hhr, Hh, <- app_assoc|]. split; [by rewrite Hs|].
  apply Forall_app. split; [done|].
  eapply Forall_impl; [exact (ring_cleanup_effects _ _ _ _ Hc)|].
  intros e [He | ->]; [by destruct e|done].
Qed.

Lemma reconcile_effects (new : list string) st :
  exists st' evs,
    reconcile env new st = (Done tt, st') /\
    history st' = history st ++ evs /\
    Marshal (cfg (session st')) = Marshal (cfg (session st)) /\
    deregister (session st') = deregister (session st) /\
    Forall (fun e => reconcile_effect e = true) evs.
Proof.
  unfold reconcile. erewrite bind_Done by reflexivity.
  destruct (diff _ _) as [added removed].
  erewrite bind_Done by reflexivity.
  set (st0 := {| session := _; history := history st |}).
  assert (exists st1 evs1,
    when (bool_decide (0 < length added)%nat)
      (log DebugLevel "found %d new subscription(s): %v" >>
       subscribe env added >> ret tt) st0 = (Done tt, st1) /\
    history st1 = history st0 ++ evs1 /\
    same_frame (session st0) (session st1) /\
    Forall (fun e => reconcile_effect e = true) evs1)
    as (st1 & evs1 & Hrun1 & Hh1 & Hfr1 & Hk1).
  { unfold when. destruct (bool_decide (0 < length added)%nat); cbv beta iota.
    - erewrite bind_Done by reflexivity.
      match goal with |- context [bind (subscribe env ?l) _ ?stx] =>
        destruct (subscribe_spec env l stx)
          as (o & st1 & Hrun & Hfr & (evs & Hh & Hev) & _)
      end.
      erewrite bind_Done by exact Hrun. exists st1. eexists.
      split; [done|]. simpl in Hh.
      split; [by rewrite Hh, <- app_assoc|]. split; [done|].
      constructor; [done|].
      eapply Forall_impl; [exact Hev|]. by intros [].
    - exists st0, []. rewrite app_nil_r.
      split; [done|]. split; [done|]. split; [apply same_frame_refl|constructor]. }
  erewrite bind_Done by exact Hrun1.
  assert (exists st2 evs2,
    when (bool_decide (0 < length removed)%nat)
      (log DebugLevel "found %d subscription(s) to unsubscribe from: %v" >>
       unsubscribe env removed) st1 = (Done tt, st2) /\
    history st2 = history st1 ++ evs2 /\
    same_frame (session st1) (session st2) /\
    Forall (fun e => reconcile_effect e = true) evs2)
    as (st2 & evs2 & Hrun2 & Hh2 & Hfr2 & Hk2).
  { unfold when. destruct (bool_decide (0 < length removed)%nat); cbv beta iota.
    - erewrite bind_Done by reflexivity.
      match goal with |- context [unsubscribe env ?l ?stx] =>
        destruct (unsubscribe_effects l stx) as (st2 & evs & Hrun & Hh & Hfr & Hev)
      end.
      exists st2. eexists. split; [done|]. simpl in Hh.
      split; [by rewrite Hh, <- app_assoc|]. split; [done|].
      by constructor.
    - exists st1, []. rewrite app_nil_r.
      split; [done|]. split; [done|]. split; [apply same_frame_refl|constructor]. }
  exists st2, (evs1 ++ evs2). split; [done|].
  split; [by rewrite Hh2, Hh1, <- app_assoc|].
  destruct Hfr1 as (Hc1 & _ & Hd1), Hfr2 as (Hc2 & _ & Hd2).
  split; [by rewrite Hc2, Hc1|]. split; [by rewrite Hd2, Hd1|].
  by apply Forall_app.
Qed.

Lemma reconcile_no_send evs :
  Forall (fun e => reconcile_effect e = true) evs -> filter is_send evs = [].
Proof.
  induction 1 as [|e evs He _ IH]; [done|].
  rewrite filter_cons, IH. by destruct e.
Qed.

(** A turn whose effects are written out and hold no frame. *)
Ltac quiet_turn :=
  mstep; eexists _, _, _; (split; [reflexivity|]); simpl;
  (split;
   [match goal with
    | |- history ?st = history ?st ++ _ => symmetry; apply app_nil_r
    | |- _ => rewrite <- ?app_assoc; reflexivity
    end|]);
  (split; [done|]); done.

Lemma sender_select_frames (sel : Select) st :
  exists turn st' evs,
    sender_select env sel st = (turn, st') /\
    history st' = history st ++ evs /\
    filter is_send evs = [] /\
    forall msg, turn = Done (Frame msg) -> frame_source sel (session st) msg.
Proof.
  destruct sel as [[[w|r|]|]|[[w|r|]|]|]; simpl.
  - (* a watch event *)
    unfold sender_entity_update.
    destruct (store.Action w) eqn:Hact; try by quiet_turn.
    all: destruct (store.Entity w) as [entity|] eqn:Hent; [|by quiet_turn].
    all: destruct (corev3.Metadata entity) as [meta|] eqn:Hmeta;
      [|by quiet_turn].
    all: unfold deref; erewrite bind_Done by reflexivity;
      erewrite bind_Done by reflexivity;
      destruct (decide (corev3.EntityClass entity <> EntityAgentClass))
        as [Hclass|Hclass].
    1,3: mstep; destruct (WrapResource _) as [werr|wrapper]; [by quiet_turn|];
      mstep; destruct (storev2_CreateOrUpdate env _ _ wrapper) as [cerr|];
      by quiet_turn.
    all: apply dec_stable in Hclass;
      erewrite bind_Done by reflexivity;
      erewrite bind_Done by reflexivity; simpl;
      destruct (Marshal (cfg (session st)) (PEntityConfig entity))
        as [merr|payload] eqn:Hm; [by quiet_turn|];
      match goal with |- context [bind (reconcile env ?l) _ ?stx] =>
        destruct (reconcile_effects l stx) as (st1 & evs & Hrun & Hh & _ & _ & Hk)
      end;
      erewrite bind_Done by exact Hrun;
      apply reconcile_no_send in Hk; simpl in Hh;
      unfold when; destruct (bool_decide _); mstep;
      eexists _, _, _; (split; [reflexivity|]); simpl;
      (split; [rewrite Hh, <- !app_assoc; reflexivity|]);
      (split; [rewrite ?filter_cons, ?filter_app, ?Hk; simpl;
               rewrite ?filter_cons, ?filter_app, ?Hk; done|]);
      intros msg [= <-]; exists entity; simpl; repeat split; congruence.
  - by quiet_turn.
  - by quiet_turn.
  - mstep. destruct (ctx_Err env (history st)); by quiet_turn.
  - by quiet_turn.
  - mstep. destruct (Marshal (cfg (session st)) (PCheckRequest r))
      as [merr|payload] eqn:Hm; [by quiet_turn|].
    mstep. eexists _, _, [ ]. split; [reflexivity|]. simpl.
    split; [by rewrite app_nil_r|]. split; [done|]. by intros msg [= <-].
  - by quiet_turn.
  - mstep. destruct (ctx_Err env (history st)); by quiet_turn.
  - by quiet_turn.
Qed.

End SenderMore.

(** X12: a turn of the sender sends at most one frame.  A frame comes
    from a watch event that is not a deletion and carries an entity of
    the agent class, with type [EntityConfig], or from a check request,
    with the check request type; its payload is what [Marshal] gives.
    After a frame the loop goes on exactly when the transport took it. *)
Theorem sender_turn_frame `{imports : Imports} (env : Collaborators)
    (sel : Select) (st : State) :
  exists o st',
    sender_turn env sel st = (o, st') /\
    (filter is_send (effects_since st st') = [] \/
     exists msg err,
       filter is_send (effects_since st st') = [ESend msg err] /\
       frame_source sel (session st) msg /\
       o = Done (bool_decide (err = None))).
Proof.
  destruct (sender_select_frames env sel st)
    as (turn & st1 & evs & Hrun & Hh & Hns & Hsrc).
  unfold sender_turn, bind at 1. rewrite Hrun.
  destruct turn as [[ | |msg]|].
  - exists (Done true), st1. split; [done|]. left.
    by rewrite (effects_since_app _ _ _ Hh).
  - exists (Done false), st1. split; [done|]. left.
    by rewrite (effects_since_app _ _ _ Hh).
  - specialize (Hsrc msg eq_refl). mstep.
    destruct (conn_Send env _ msg) as [err|] eqn:Hsend.
    + assert (Hfilter : forall tail,
        filter is_send tail = [] ->
        filter is_send
          (evs ++ ELog DebugLevel "session - sending message"
               :: ESend msg (Some err) :: tail) = [ESend msg (Some err)]).
      { intros tail Ht. rewrite filter_app, Hns. simpl.
        rewrite !filter_cons. simpl. by rewrite Ht. }
      destruct (ctx_Err env _).
      * eexists _, _. split; [reflexivity|]. right.
        exists msg, (Some err). split; [|done].
        erewrite effects_since_app; [apply (Hfilter [])|]; [done|].
        simpl. by rewrite Hh, <- !app_assoc.
      * destruct err; mstep; eexists _, _; (split; [reflexivity|]); right;
          eexists msg, (Some _); (split; [|done]);
          (erewrite effects_since_app;
           [apply Hfilter|simpl; rewrite Hh, <- !app_assoc; reflexivity]);
          done.
    + eexists _, _. split; [reflexivity|]. right.
      exists msg, None. split; [|done].
      erewrite effects_since_app;
        [|simpl; rewrite Hh, <- !app_assoc; reflexivity].
      rewrite filter_app, Hns. simpl. by rewrite !filter_cons.
  - exists Panic, st1. split; [done|]. left.
    by rewrite (effects_since_app _ _ _ Hh).
Qed.
(** ** The sender: entities of another class *)

(** X13: a watch event (not a deletion) whose entity is not of the agent
    class is not forwarded and not reconciled: the turn goes on with the
    session as it was, sends no frame, asks nothing of the bus, and
    writes the entity back to the store with the agent class (once, when
    the entity can be wrapped). *)
Theorem sender_coerces_class `{imports : Imports} (env : Collaborators)
    (w : store.WatchEventEntityConfig) (entity : corev3.EntityConfig)
    (meta : corev2.ObjectMeta) (st : State) :
  store.Action w <> store.WatchDelete ->
  store.Action w <> store.WatchUnknown ->
  store.Entity w = Some entity ->
  corev3.Metadata entity = Some meta ->
  corev3.EntityClass entity <> EntityAgentClass ->
  let coerced := set_EntityClass EntityAgentClass entity in
  exists st',
    sender_turn env (EntityUpdate (Some (VWatchEvent w))) st = (Done true, st') /\
    session st' = session st /\
    Forall (fun e => is_log e = true \/ is_store_update e = true \/
                     exists labels, e = ECounterInc sessionErrorCounterName labels)
      (effects_since st st') /\
    (exists updates,
       filter is_store_update (effects_since st st') = updates /\
       match WrapResource coerced with
       | inl _ => updates = []
       | inr _ => exists err, updates = [EStoreCreateOrUpdate coerced err]
       end).
Proof.
  intros Hdel Hunk Hent Hmeta Hclass coerced.
  assert (Hsel : exists st' evs,
    sender_select env (EntityUpdate (Some (VWatchEvent w))) st
      = (Done Continue, st') /\
    session st' = session st /\ history st' = history st ++ evs /\
    Forall (fun e => is_log e = true \/ is_store_update e = true \/
                     exists labels, e = ECounterInc sessionErrorCounterName labels)
      evs /\
    match WrapResource coerced with
    | inl _ => filter is_store_update evs = []
    | inr _ => exists err, filter is_store_update evs
                           = [EStoreCreateOrUpdate coerced err]
    end).
  { simpl. unfold sender_entity_update. rewrite Hent, Hmeta.
    destruct (store.Action w); try done.
    all: unfold deref; erewrite bind_Done by reflexivity;
      erewrite bind_Done by reflexivity;
      destruct (decide (corev3.EntityClass entity <> EntityAgentClass));
        [|done];
      mstep; fold coerced;
      destruct (WrapResource coerced) as [werr|wrapper]; mstep;
      [eexists _, _; split; [reflexivity|]; simpl; split; [done|];
       split; [by rewrite <- !app_assoc|]; split; [|done];
       repeat (constructor; [by left|]); constructor|];
      destruct (storev2_CreateOrUpdate env _ coerced wrapper) as [cerr|];
      mstep; eexists _, _; (split; [reflexivity|]); simpl; (split; [done|]);
      (split; [by rewrite <- !app_assoc|]);
      (split; [|by eexists]);
      repeat (constructor; [first [by left | by right; left | by right; right; eexists]|]);
      constructor. }
  destruct Hsel as (st' & evs & Hsel & Hs & Hh & Hk & Hup).
  exists st'. unfold sender_turn. erewrite bind_Done by exact Hsel.
  split; [done|]. split; [done|]. rewrite (effects_since_app _ _ _ Hh).
  split; [done|]. eexists. split; [reflexivity|].
  destruct (WrapResource coerced); [done|]. done.
Qed.
(** ** [Start]: effects and subscriptions *)

Section StartMore.
Context `{imports : Imports} (env : Collaborators).

Lemma Start_entity_config_effects st :
  exists o st' evs,
    Start_entity_config env st = (o, st') /\
    history st' = history st ++ evs /\
    Forall (fun e => start_effect e = true) evs.
Proof.
  unfold Start_entity_config. mstep.
  destruct (storev2_Get env _ _ _ _) as [err|wrapper].
  - destruct err; mstep;
      try (eexists _, _, _; split; [reflexivity|]; simpl;
           split; [rewrite <- ?app_assoc; reflexivity|];
           repeat constructor).
    destruct (bus_Publish env _ _ _); mstep;
      eexists _, _, _; (split; [reflexivity|]); simpl;
      (split; [rewrite <- ?app_assoc; reflexivity|]); repeat constructor.
  - mstep. destruct (storev2.UnwrapInto wrapper) as [err|stored]; mstep.
    { eexists _, _, _. split; [reflexivity|]. simpl.
      split; [rewrite <- ?app_assoc; reflexivity|]. repeat constructor. }
    destruct (corev3.Metadata stored) as [meta|]; mstep.
    2:{ eexists _, _, _. split; [reflexivity|]. simpl.
        split; [rewrite <- ?app_assoc; reflexivity|]. repeat constructor. }
    destruct (bus_Publish env _ _ _); mstep;
      eexists _, _, _; (split; [reflexivity|]); simpl;
      (split; [rewrite <- ?app_assoc; reflexivity|]); repeat constructor.
Qed.

End StartMore.

#[local] Arguments subscribe : simpl never.
#[local] Arguments Start_entity_config : simpl never.

Lemma Start_shape `{imports : Imports} (env : Collaborators) (st : State) :
  exists o st' mid,
    Start env st = (o, st') /\
    effects_since st st' =
      EGaugeInc sessionCounterName [Namespace (cfg (session st))]
        :: mid ++
           match o with
           | Done (Some _) => [ECounterInc sessionErrorCounterName ["ErrStart"]]
           | _ => []
           end /\
    Forall (fun e => start_effect e = true) mid.
Proof.
  unfold Start, Start_body. mstep.
  destruct (bus_Subscribe env _ _ _ EntityConfigReceiver) as [err|sub]; mstep.
  { eexists _, _, [_; _; _; _]. split; [reflexivity|]. split.
    - erewrite effects_since_app; [|simpl; rewrite <- ?app_assoc; reflexivity].
      reflexivity.
    - repeat constructor. }
  match goal with |- context [Start_entity_config env ?st0] =>
    destruct (Start_entity_config_effects env st0)
      as (o1 & st1 & evs1 & Hrun & Hh & Hk);
    rewrite Hrun
  end.
  simpl in Hh. rewrite <- ?app_assoc in Hh. simpl in Hh.
  destruct o1 as [[err|]|]; simpl.
  - eexists _, _, ([_; _; _] ++ evs1). split; [reflexivity|]. split.
    + erewrite effects_since_app;
        [|simpl; rewrite Hh, <- ?app_assoc; simpl; reflexivity].
      reflexivity.
    + repeat (constructor; [done|]). done.
  - destruct (subscribe_spec env (Subscriptions (cfg (session st1))) st1)
      as (o2 & st2 & Hrun2 & _ & (evs2 & Hh2 & Hk2) & _).
    rewrite Hrun2.
    assert (Hk2' : Forall (fun e => start_effect e = true) evs2).
    { eapply Forall_impl; [exact Hk2|]. by intros []. }
    destruct o2 as [err|]; simpl;
      eexists _, _, ([_; _; _] ++ evs1 ++ evs2); (split; [reflexivity|]);
      (split;
       [erewrite effects_since_app;
          [|simpl; rewrite Hh2, Hh, <- ?app_assoc; simpl; reflexivity];
        simpl; rewrite <- ?app_assoc, ?app_nil_r; reflexivity
       |repeat (constructor; [done|]); by apply Forall_app]).
  - eexists _, _, ([_; _; _] ++ evs1). split; [reflexivity|]. split.
    + erewrite effects_since_app;
        [|simpl; rewrite Hh, <- ?app_assoc; simpl; reflexivity].
      simpl. by rewrite app_nil_r.
    + repeat (constructor; [done|]). done.
Qed.

(** X14: in every run of [Start] the first effect is the increment of
    the sessions gauge of the namespace; the session error counter is
    incremented (once, with the label [ErrStart], as the last effect)
    exactly when [Start] returns an error; and between the two [Start]
    only logs, draws identifiers, subscribes, asks the store and
    publishes: it cancels nothing, sends no frame and writes nothing to
    the store. *)
Theorem Start_effects `{imports : Imports} (env : Collaborators) (st : State) :
  exists o st' mid,
    Start env st = (o, st') /\
    effects_since st st' =
      EGaugeInc sessionCounterName [Namespace (cfg (session st))]
        :: mid ++
           match o with
           | Done (Some _) => [ECounterInc sessionErrorCounterName ["ErrStart"]]
           | _ => []
           end /\
    Forall (fun e => start_effect e = true) mid.
Proof. apply Start_shape. Qed.

Lemma Start_handles `{imports : Imports} (env : Collaborators)
    (st st' : State) :
  Start env st = (Done None, st') ->
  Namespace (cfg (session st')) = Namespace (cfg (session st)) /\
  dom (subscriptionsMap (session st')) =
    dom (subscriptionsMap (session st))
      ∪ topics (Namespace (cfg (session st)))
          (removeEmptySubscriptions (Subscriptions (cfg (session st')))).
Proof.
  intros Hrun.
  assert (Hcont : forall perr subs s,
    Namespace (cfg s) = Namespace (cfg (session st)) ->
    Subscriptions (cfg s) = subs ->
    subscriptionsMap s = subscriptionsMap (session st) ->
    Start_continues env perr subs s st (Done None) st' ->
    Namespace (cfg (session st')) = Namespace (cfg (session st)) /\
    dom (subscriptionsMap (session st')) =
      dom (subscriptionsMap (session st))
        ∪ topics (Namespace (cfg (session st)))
            (removeEmptySubscriptions (Subscriptions (cfg (session st'))))).
  { intros perr subs s Hns Hsubs Hmap Hc. destruct perr as [perr|].
    { by destruct Hc. }
    destruct Hc as (before & o1 & st1 & Hsub & [= <-] & Hs).
    match type of Hsub with subscribe _ ?l ?stx = _ =>
      destruct (subscribe_spec env l stx)
        as (o2 & st2 & Hsub' & (Hcfg & _) & _ & Hdom & _)
    end.
    rewrite Hsub in Hsub'. injection Hsub' as <- <-.
    specialize (Hdom eq_refl). simpl in Hcfg, Hdom.
    rewrite Hs, Hcfg, Hdom, Hmap, Hns, Hsubs. done. }
  destruct (Start_cases env st)
    as (o' & st'' & effects & Hrun' & _ & [(_ & _ & err & Herr) | (res & _ & Hcase)]);
    rewrite Hrun in Hrun'; injection Hrun' as <- <-; [done|].
  destruct res as [[m| | | |]|wrapper]; try by destruct Hcase.
  - destruct Hcase as (perr & _ & Hc).
    eapply Hcont; [| | |exact Hc]; reflexivity.
  - destruct (storev2.UnwrapInto wrapper) as [err|stored]; [by destruct Hcase|].
    destruct (corev3.Metadata stored) as [meta|]; [|done].
    destruct Hcase as (perr & _ & Hc).
    eapply Hcont; [| | |exact Hc]; reflexivity.
Qed.

(** X15: when [Start] succeeds, the session holds a handle for the check
    topic of every non-empty name of its subscription list (the list of
    the agent, or the stored one that replaced it), and for no other
    topic than those it had before. *)
Theorem Start_subscribes `{imports : Imports} (env : Collaborators)
    (st st' : State) :
  Start env st = (Done None, st') ->
  Namespace (cfg (session st')) = Namespace (cfg (session st)) /\
  dom (subscriptionsMap (session st')) =
    dom (subscriptionsMap (session st))
      ∪ topics (Namespace (cfg (session st)))
          (removeEmptySubscriptions (Subscriptions (cfg (session st')))).
Proof. apply Start_handles. Qed.

(** X16: [Start] and the reconciliation compose.  After a successful
    [Start] of a session that had no subscription, with a bus whose
    [Subscribe] and [Cancel] succeed, the reconciliation with a new list
    leaves the session subscribed to exactly the topics of the non-empty
    names of the new list, provided neither list repeats a non-empty
    name (in any order, with or without empty names). *)
Theorem Start_then_reconcile `{imports : Imports} (env : Collaborators)
    (new : list string) (st st1 : State) :
  let namespace := Namespace (cfg (session st)) in
  let nonempty := filter (fun x : string => x <> "") in
  Start env st = (Done None, st1) ->
  subscriptionsMap (session st) = ∅ ->
  subscribe_never_fails env -> cancel_never_fails env ->
  Inj (=) (=) (SubscriptionTopic namespace) ->
  NoDup (nonempty (Subscriptions (cfg (session st1)))) ->
  NoDup (nonempty new) ->
  exists st2,
    reconcile env new st1 = (Done tt, st2) /\
    Subscriptions (cfg (session st2)) = sortSubscriptions new /\
    dom (subscriptionsMap (session st2)) = topics namespace (nonempty new).
Proof.
  intros namespace nonempty Hstart Hempty Hsub Hcan Hinj Hold Hnew.
  destruct (Start_handles env st st1 Hstart) as (Hns & Hdom).
  rewrite Hempty, dom_empty_L, (left_id_L ∅ (∪)) in Hdom.
  rewrite removeEmptySubscriptions_filter in Hdom.
  destruct (reconcile_settles env new st1) as (st2 & Hrun & Hsubs & Hd);
    rewrite ?Hns; try done.
  exists st2. by rewrite Hns in Hd.
Qed.
(** ** The whole session: the event handler and the receiver *)

Section WholeFacts.
Context `{imports : Imports} `{event_imports : EventImports}
        (sur : Surroundings).

Lemma wbind_Done {A B} (c : W A) (k : A -> W B) st a st' :
  c st = (Done a, st') -> wbind c k st = k a st'.
Proof. intros H. unfold wbind. by rewrite H. Qed.

Lemma publications_app (t1 t2 : list SessionEffect) :
  publications (t1 ++ t2) = publications t1 ++ publications t2.
Proof. apply omap_app. Qed.

Lemma publications_quiet (t : list SessionEffect) :
  Forall quiet t -> publications t = [].
Proof.
  induction 1 as [|e t [_ He] _ IH]; [done|].
  destruct e as [[]| | | | | |]; try done; exact IH.
Qed.

Lemma handler_run_ret {A} n tops (o : Outcome A) st :
  handler_run n tops (fun st => (o, st)) st.
Proof.
  exists o, st, []. rewrite app_nil_r.
  split; [done|]. split; [done|]. split; [done|]. split; [done|].
  split; [simpl; lia|]. done.
Qed.

Lemma handler_run_weaken {A} n m tops (c : W A) st :
  (n <= m)%nat -> handler_run n tops c st -> handler_run m tops c st.
Proof.
  intros Hle (o & st' & evs & Hrun & Hs & Ht & Hk & Hlen & Htop).
  exists o, st', evs. repeat (split; [done|]). split; [lia|done].
Qed.

Lemma lift_publish_run tops topic msg st :
  topic ∈ tops ->
  handler_run 1 tops (lift sur (fun env => publish env topic msg)) st.
Proof.
  intros Hin. unfold handler_run, lift, publish, bind, ask, emit, ret. simpl.
  eexists _, _, _. split; [reflexivity|]. simpl. split; [done|].
  split; [reflexivity|]. split; [by repeat constructor|].
  split; [done|]. by repeat constructor.
Qed.

Lemma handler_run_bind {A B} n tops (c : W A) (k : A -> W B) st :
  handler_run 0 tops c st ->
  (forall a st, handler_run n tops (k a) st) ->
  handler_run n tops (wbind c k) st.
Proof.
  intros (o & st1 & evs1 & Hrun1 & Hs1 & Ht1 & Hk1 & Hlen1 & _) Hk.
  assert (Hp1 : publications evs1 = []).
  { destruct (publications evs1); [done|simpl in Hlen1; lia]. }
  unfold handler_run, wbind. rewrite Hrun1. destruct o as [a|].
  - destruct (Hk a st1) as (o & st' & evs & Hrun & Hs & Ht & Hk2 & Hlen & Htop).
    exists o, st', (evs1 ++ evs). split; [done|]. split; [congruence|].
    split; [by rewrite Ht, Ht1, <- app_assoc|].
    split; [by apply Forall_app|]. by rewrite publications_app, Hp1.
  - exists Panic, st1, evs1. repeat (split; [done|]).
    rewrite Hp1. split; [simpl; lia|done].
Qed.

Lemma wemit_run n tops (e : SessionEffect) st :
  quiet e -> handler_run n tops (wemit e) st.
Proof.
  intros [He Hq]. exists (Done tt), (snd (wemit e st)), [e].
  split; [done|]. split; [done|]. split; [done|].
  split; [by repeat constructor|].
  rewrite (publications_quiet [e]); [|by repeat constructor].
  split; [simpl; lia|done].
Qed.

Lemma wask_run {A} n tops (f : list SessionEffect -> A) st :
  handler_run n tops (wask f) st.
Proof. apply (handler_run_ret n tops (Done (f (trace st)))). Qed.

Lemma wget_run n tops st : handler_run n tops wget st.
Proof. apply (handler_run_ret n tops (Done (session_of st))). Qed.

Lemma wret_run {A} n tops (a : A) st : handler_run n tops (wret a) st.
Proof. apply (handler_run_ret n tops (Done a)). Qed.

Lemma wderef_run {A} n tops (p : option A) st :
  handler_run n tops (wderef p) st.
Proof.
  destruct p as [a|].
  - apply (handler_run_ret n tops (Done a)).
  - apply (handler_run_ret n tops Panic).
Qed.

Lemma handleKeepalive_run payload st :
  handler_run 1 [TopicKeepalive; TopicKeepaliveRaw; TopicEventRaw]
    (lift sur (fun env => handleKeepalive env payload)) st.
Proof.
  set (tops := [_; _; _]).
  assert (Hq : forall o : Outcome (option error),
    exists o' st' evs,
      (o, {| session_of := session_of st;
             trace := trace st ++ (Base <$> []) |}) = (o', st') /\
      session_of st' = session_of st /\
      trace st' = trace st ++ evs /\
      Forall (fun e => receiver_effect e = true) evs /\
      (length (publications evs) <= 1)%nat /\
      Forall (fun p => p.1 ∈ tops) (publications evs)).
  { intros o. eexists o, _, []. split; [reflexivity|]. simpl.
    repeat (split; [done|]). split; [lia|done]. }
  unfold handler_run, lift, handleKeepalive. mstep.
  destruct (Unmarshal _ _) as [err|keepalive]; [apply Hq|].
  destruct (Validate keepalive); [apply Hq|].
  destruct (_ =? _)%Z; [apply Hq|].
  destruct (corev2.Event_Entity keepalive); [|apply Hq].
  eexists _, _, _. split; [reflexivity|]. simpl. split; [done|].
  split; [reflexivity|]. split; [by repeat constructor|].
  split; [done|]. repeat constructor.
Qed.

Lemma handleEvent_run payload st :
  handler_run 1 [TopicKeepalive; TopicKeepaliveRaw; TopicEventRaw]
    (handleEvent sur payload) st.
Proof.
  set (tops := [_; _; _]).
  assert (Hraw : forall msg st,
    handler_run 1 tops
      (lift sur (fun env => publish env TopicEventRaw msg)) st).
  { intros. apply lift_publish_run. subst tops. set_solver. }
  assert (Hkeep : forall msg st,
    handler_run 1 tops
      (lift sur (fun env => publish env TopicKeepaliveRaw msg)) st).
  { intros. apply lift_publish_run. subst tops. set_solver. }
  assert (Hobs : forall label st,
    handler_run 0 tops (observe label (length payload)) st).
  { intros. by apply wemit_run. }
  unfold handleEvent. apply handler_run_bind; [apply wget_run|].
  intros s st1.
  destruct (Unmarshal _ _) as [err|event]; [apply wret_run|].
  destruct (Validate event); [apply wret_run|].
  apply handler_run_bind; [apply wderef_run|]. intros entity st2.
  destruct (HasCheck _).
  - apply handler_run_bind.
    { destruct (HasMetrics _); apply Hobs. }
    intros _ st3. apply handler_run_bind; [apply wderef_run|].
    intros check st4. destruct (decide _); [apply Hkeep|apply Hraw].
  - apply handler_run_bind; [|intros; apply Hraw].
    destruct (HasMetrics _); [apply Hobs|apply wret_run].
Qed.

Lemma Handle_run msgType payload st :
  handler_run
    (if bool_decide (msgType = MessageTypeKeepalive)
        || bool_decide (msgType = MessageTypeEvent) then 1 else 0)
    [TopicKeepalive; TopicKeepaliveRaw; TopicEventRaw]
    (Handle (newSessionHandler sur) msgType payload) st.
Proof.
  unfold Handle, newSessionHandler.
  destruct (decide (msgType = MessageTypeEvent)) as [->|Hne].
  - rewrite lookup_insert_eq.
    rewrite (bool_decide_eq_true_2 (MessageTypeEvent = MessageTypeEvent)),
      orb_true_r by done.
    apply handleEvent_run.
  - rewrite lookup_insert_ne by done.
    rewrite (bool_decide_eq_false_2 _ Hne), orb_false_r.
    destruct (decide (msgType = MessageTypeKeepalive)) as [->|Hne'].
    + rewrite lookup_insert_eq.
      rewrite (bool_decide_eq_true_2 (MessageTypeKeepalive = MessageTypeKeepalive))
        by done.
      apply handleKeepalive_run.
    + rewrite lookup_insert_ne, lookup_empty by done.
      rewrite (bool_decide_eq_false_2 _ Hne'). apply wret_run.
Qed.

Lemma wlog_run n tops level msg st : handler_run n tops (wlog level msg) st.
Proof. by apply wemit_run. Qed.

Lemma wcounter_inc_run n tops name labels st :
  handler_run n tops (wcounter_inc name labels) st.
Proof. by apply wemit_run. Qed.

Lemma receiver_turn_run r st :
  handler_run (if handled r then 1 else 0)
    [TopicKeepalive; TopicKeepaliveRaw; TopicEventRaw] (receiver_turn sur r) st.
Proof.
  set (tops := [_; _; _]). unfold receiver_turn.
  apply handler_run_bind; [apply wask_run|]. intros [|] st1; [apply wret_run|].
  destruct r as [err|msg].
  - apply handler_run_bind; [apply wask_run|].
    intros [|] st2; [apply wret_run|].
    apply handler_run_bind; [|intros; apply wret_run].
    destruct err;
      (apply handler_run_bind;
        [apply wcounter_inc_run|intros; apply wlog_run]).
  - simpl. set (n := if bool_decide _ || bool_decide _ then 1%nat else 0%nat).
    unfold handler_run. unfold wbind at 1.
    destruct (Handle_run (transport.Type_ msg) (transport.Payload msg) st1)
      as (o & st2 & evs & Hrun & Hs & Ht & Hk & Hlen & Htop).
    fold n in Hlen. rewrite Hrun.
    assert (Hrest : forall (c : W bool),
      (forall st, handler_run 0 tops c st) ->
      exists o' st' evs',
        c st2 = (o', st') /\ session_of st' = session_of st1 /\
        trace st' = trace st1 ++ evs' /\
        Forall (fun e => receiver_effect e = true) evs' /\
        (length (publications evs') <= n)%nat /\
        Forall (fun p => p.1 ∈ tops) (publications evs')).
    { intros c Hc.
      destruct (Hc st2) as (o' & st' & evs' & Hrun' & Hs' & Ht' & Hk' & Hlen' & _).
      assert (Hp : publications evs' = []).
      { destruct (publications evs'); [done|simpl in Hlen'; lia]. }
      exists o', st', (evs ++ evs'). split; [done|]. split; [congruence|].
      split; [by rewrite Ht', Ht, <- app_assoc|].
      split; [by apply Forall_app|].
      by rewrite publications_app, Hp, app_nil_r. }
    destruct o as [[err|]|].
    + apply Hrest. intros st3.
      apply handler_run_bind; [apply wask_run|].
      intros [|] st4; [apply wret_run|].
      apply handler_run_bind; [apply wlog_run|]. intros _ st5.
      apply handler_run_bind; [|intros; apply wret_run].
      destruct err; try apply wret_run.
      apply handler_run_bind; [apply wask_run|].
      intros [|] st6; [apply wret_run|].
      apply handler_run_bind; [apply wcounter_inc_run|]. intros _ st7.
      apply handler_run_bind; [apply wlog_run|]. intros _ st8.
      by apply wemit_run.
    + apply (Hrest (wret true)). intros; apply wret_run.
    + apply (Hrest (fun st => (Panic, st))). intros; apply handler_run_ret.
Qed.

Lemma receiver_turn_receive_error err st :
  exists st', receiver_turn sur (inl err) st = (Done false, st').
Proof.
  unfold receiver_turn, wbind, wask, wret, wcounter_inc, wlog, wemit. simpl.
  destruct (session_ctx_Err sur (trace st)) eqn:Hctx; simpl; [by eexists|].
  rewrite Hctx. destruct err; simpl; by eexists.
Qed.

Lemma receiver_loop_run received st :
  handler_run (length (filter (fun r => handled r = true) received))
    [TopicKeepalive; TopicKeepaliveRaw; TopicEventRaw]
    (receiver_loop sur received) st.
Proof.
  set (tops := [_; _; _]).
  revert st. induction received as [|r rest IH]; intros st; simpl.
  { apply wret_run. }
  destruct (receiver_turn_run r st)
    as (o & st1 & evs1 & Hrun1 & Hs1 & Ht1 & Hk1 & Hlen1 & Htop1).
  unfold handler_run, wbind. rewrite Hrun1.
  assert (Hcount : length (filter (fun r => handled r = true) (r :: rest))
    = ((if handled r then 1 else 0)
       + length (filter (fun r => handled r = true) rest))%nat).
  { rewrite filter_cons. by destruct (handled r). }
  rewrite Hcount.
  destruct o as [[|]|].
  - destruct (IH st1) as (o & st' & evs & Hrun & Hs & Ht & Hk & Hlen' & Htop).
    exists o, st', (evs1 ++ evs). split; [done|]. split; [congruence|].
    split; [by rewrite Ht, Ht1, <- app_assoc|].
    split; [by apply Forall_app|]. rewrite publications_app, length_app.
    split; [lia|by apply Forall_app].
  - exists (Done false), st1, evs1. repeat (split; [done|]). split; [lia|done].
  - exists Panic, st1, evs1. repeat (split; [done|]). split; [lia|done].
Qed.

Lemma receiver_loop_receive_error msgs err rest st :
  receiver_loop sur (msgs ++ inl err :: rest) st
  = receiver_loop sur (msgs ++ [inl err]) st /\
  (receiver_loop sur (msgs ++ inl err :: rest) st).1 <> Done true.
Proof.
  revert st. induction msgs as [|m msgs IH]; intros st; simpl.
  - destruct (receiver_turn_receive_error err st) as (st' & Hrun).
    unfold wbind. by rewrite Hrun.
  - unfold wbind. destruct (receiver_turn sur m st) as [[[|]|] st1]; auto.
Qed.

Lemma receiver_loop_goes_on msgs st :
  (forall t, session_ctx_Err sur t = false) ->
  (forall t, handler_ctx_Err sur t = false) ->
  (receiver_loop sur (inr <$> msgs) st).1 <> Done false.
Proof.
  intros Hctx Hhctx. revert st.
  induction msgs as [|m msgs IH]; intros st; simpl; [done|].
  unfold wbind at 1. destruct (receiver_turn sur (inr m) st) as [o st1] eqn:Hturn.
  assert (Ho : o <> Done false).
  { revert Hturn. unfold receiver_turn, wbind, wask, wret, wlog, wemit.
    rewrite Hctx. simpl.
    destruct (Handle _ _ _ _) as [[[e|]|] st2]; [| |by intros [= <- _]..].
    - rewrite Hhctx. simpl.
      destruct e; simpl; rewrite ?Hhctx; simpl; by intros [= <- _].
    - by intros [= <- _]. }
  destruct o as [[|]|]; [apply IH|done|done].
Qed.

End WholeFacts.

(** X17: the receiver only reads and publishes.  Whatever the transport
    delivers, the receiver leaves the session as it was; its effects are
    log lines, error counters, observations of event sizes, publications
    and the start of [Stop]; it publishes at most once for each message
    of the keepalive or event type, nothing for a message of another
    type or a receive error, and only on the keepalive topic, the raw
    keepalive topic or the raw event topic. *)
Theorem receiver_publishes `{imports : Imports} `{event_imports : EventImports}
    (sur : Surroundings) (received : list (error + transport.Message))
    (st : Whole) :
  exists o st' evs,
    receiver sur received st = (o, st') /\
    session_of st' = session_of st /\
    trace st' = trace st ++ evs /\
    Forall (fun e => receiver_effect e = true) evs /\
    (length (publications evs)
       <= length (filter (fun r => handled r = true) received))%nat /\
    Forall (fun p => p.1 ∈ [TopicKeepalive; TopicKeepaliveRaw; TopicEventRaw])
      (publications evs).
Proof.
  destruct (receiver_loop_run sur received st)
    as (o & st1 & evs & Hrun & Hs & Ht & Hk & Hlen & Htop).
  unfold receiver. rewrite Hrun.
  assert (Hlog : forall o' : Outcome bool,
    exists st' evs',
      (o', (wlog InfoLevel "shutting down agent session: stopping receiver"
              st1).2) = (o', st') /\
      session_of st' = session_of st /\
      trace st' = trace st ++ evs' /\
      Forall (fun e => receiver_effect e = true) evs' /\
      (length (publications evs')
         <= length (filter (fun r => handled r = true) received))%nat /\
      Forall (fun p => p.1 ∈ [TopicKeepalive; TopicKeepaliveRaw; TopicEventRaw])
        (publications evs')).
  { intros o'. eexists _, (evs ++ [_]). split; [reflexivity|]. simpl.
    split; [done|]. split; [by rewrite Ht, <- app_assoc|].
    split; [apply Forall_app; by repeat constructor|].
    by rewrite publications_app, app_nil_r. }
  destruct o as [[|]|].
  - by exists (Done true), st1, evs.
  - exists (Done false). apply Hlog.
  - exists Panic. apply Hlog.
Qed.

(** X18: the receiver stops at the first receive error: what the
    transport would deliver after it is never handled, and the receiver
    does not go back to waiting for a message. *)
Theorem receiver_stops_at_receive_error `{imports : Imports}
    `{event_imports : EventImports} (sur : Surroundings)
    (msgs rest : list (error + transport.Message)) (err : error) (st : Whole) :
  receiver sur (msgs ++ inl err :: rest) st
  = receiver sur (msgs ++ [inl err]) st /\
  (receiver sur (msgs ++ inl err :: rest) st).1 <> Done true.
Proof.
  destruct (receiver_loop_receive_error sur msgs err rest st) as [Heq Hne].
  unfold receiver. rewrite Heq in *.
  split; [done|].
  by destruct (receiver_loop sur (msgs ++ [inl err]) st) as [[[|]|] st1].
Qed.

(** X19: an error of a handler does not end the receiver.  While the
    contexts are not done, the receiver does not return on messages,
    whatever their handling gives: not for a message without handler, a
    payload that does not decode, an invalid event or a failed
    publication, and not for an internal error of the store either. *)
Theorem receiver_survives_handler_errors `{imports : Imports}
    `{event_imports : EventImports} (sur : Surroundings)
    (msgs : list transport.Message) (st : Whole) :
  (forall t, session_ctx_Err sur t = false) ->
  (forall t, handler_ctx_Err sur t = false) ->
  (receiver sur (inr <$> msgs) st).1 <> Done false.
Proof.
  intros Hctx Hhctx.
  pose proof (receiver_loop_goes_on sur msgs st Hctx Hhctx) as Hne.
  unfold receiver.
  by destruct (receiver_loop sur (inr <$> msgs) st) as [[[|]|] st1].
Qed.
(** ** The whole session: [stop] *)

Section StopFacts.
Context `{imports : Imports} `{event_imports : EventImports}
        (sur : Surroundings).

Lemma cancelled_app (t1 t2 : list SessionEffect) :
  cancelled (t1 ++ t2) = cancelled t1 ++ cancelled t2.
Proof. apply omap_app. Qed.

Lemma stop_cancel_loop_run subs st :
  exists st' evs,
    stop_cancel_loop sur subs st = (Done tt, st') /\
    session_of st' = session_of st /\
    trace st' = trace st ++ evs /\
    Forall (fun e => is_cancel_loop_effect e = true) evs /\
    cancelled evs = subs.
Proof.
  revert st. induction subs as [|sub rest IH]; intros st; simpl.
  { exists st, []. by rewrite app_nil_r. }
  unfold wbind at 1. unfold lift, cancel. mstep.
  set (err := subscription_Cancel _ _ _).
  set (st1 := {| session_of := session_of st;
                 trace := trace st ++ [Base (ECancel sub err)] |}).
  destruct err as [e|] eqn:Herr; unfold wbind, wlog, wemit, wret; simpl.
  - match goal with |- context [stop_cancel_loop sur rest ?stx] =>
      destruct (IH stx) as (st' & evs & Hrun & Hs & Ht & Hk & Hc)
    end.
    exists st', (Base (ECancel sub (Some e)) :: Base (ELog ErrorLevel
      "unable to unsubscribe from message bus") :: evs).
    split; [done|]. split; [done|]. simpl in Ht.
    split; [by rewrite Ht, <- !app_assoc|].
    split; [by repeat constructor|]. simpl. by rewrite <- Hc.
  - match goal with |- context [stop_cancel_loop sur rest ?stx] =>
      destruct (IH stx) as (st' & evs & Hrun & Hs & Ht & Hk & Hc)
    end.
    exists st', (Base (ECancel sub None) :: evs).
    split; [done|]. split; [done|]. simpl in Ht.
    split; [by rewrite Ht, <- !app_assoc|].
    split; [by repeat constructor|]. simpl. by rewrite <- Hc.
Qed.

Lemma unsubscribe_run (env : Collaborators) subs st :
  exists st' evs,
    unsubscribe env subs st = (Done tt, st') /\
    history st' = history st ++ evs /\
    same_frame (session st) (session st') /\
    subscriptionsMap (session st') ⊆ subscriptionsMap (session st) /\
    (forall h err, ECancel h err ∈ evs ->
       exists x, x ∈ subs /\
         subscriptionsMap (session st)
           !! SubscriptionTopic (Namespace (cfg (session st))) x = Some h) /\
    (cancel_never_fails env ->
       dom (subscriptionsMap (session st')) =
         dom (subscriptionsMap (session st))
           ∖ topics (Namespace (cfg (session st))) subs) /\
    Forall (fun e => reconcile_effect e = true) evs.
Proof.
  destruct (unsubscribe_handles env subs st)
    as (st' & evs & Hrun & Hh & Hsub & _ & Hcalled).
  destruct (unsubscribe_spec env subs st) as (st1 & Hrun1 & Hfr & Hdom).
  destruct (unsubscribe_effects env subs st)
    as (st2 & evs2 & Hrun2 & Hh2 & _ & Hk).
  rewrite Hrun in Hrun1, Hrun2. injection Hrun1 as <-. injection Hrun2 as <-.
  rewrite Hh in Hh2. apply app_inv_head in Hh2 as <-.
  by exists st', evs.
Qed.

Lemma stop_body_run entitySubscriptions st :
  let s := session_of st in
  let namespace := Namespace (cfg s) in
  exists st' head loop evs,
    stop_body sur entitySubscriptions st = (Done tt, st') /\
    trace st' = trace st ++ head ++ loop ++ (Base <$> evs) /\
    same_frame s (session_of st') /\
    subscriptionsMap (session_of st') ⊆ subscriptionsMap s /\
    (* the head: the transport and the gauge *)
    filter (fun e => is_transport e = true) head =
      EClosed (conn_Closed sur (trace st))
        :: (if conn_Closed sur (trace st) then []
            else [ESendCloseMessage
                    (conn_SendCloseMessage sur
                       (trace st ++ [EClosed false]))]) /\
    filter (fun e => is_gauge e = true) head =
      [EGaugeDec sessionCounterName [namespace]] /\
    cancelled head = [] /\
    (* the loop over the entity config subscriptions *)
    Forall (fun e => is_cancel_loop_effect e = true) loop /\
    cancelled loop = entitySubscriptions /\
    (* the check subscriptions *)
    (forall h err, ECancel h err ∈ evs ->
       exists x, x ∈ Subscriptions (cfg s) /\
         subscriptionsMap s !! SubscriptionTopic namespace x = Some h) /\
    ((forall t, cancel_never_fails (collaborators sur t)) ->
       dom (subscriptionsMap (session_of st')) =
         dom (subscriptionsMap s) ∖ topics namespace (Subscriptions (cfg s))) /\
    Forall (fun e => reconcile_effect e = true) evs.
Proof.
  intros s namespace. unfold stop_body.
  erewrite wbind_Done by reflexivity. simpl.
  erewrite wbind_Done by reflexivity.
  set (closed := conn_Closed sur (trace st)).
  set (st1 := {| session_of := session_of st;
                 trace := trace st ++ [EClosed closed] |}).
  assert (Hclose : exists st2 more,
    (if negb closed then
       let** err := wask (conn_SendCloseMessage sur) in
       wemit (ESendCloseMessage err) >>>
       match err with
       | Some _ =>
           wcounter_inc websocketErrorCounterName ["send"; "SendCloseMessage"] >>>
           wlog WarnLevel
             "unexpected error while sending a close message to the agent"
       | None => wret tt
       end
     else wret tt) st1 = (Done tt, st2) /\
    session_of st2 = session_of st /\
    trace st2 = trace st1 ++ more /\
    filter (fun e => is_transport e = true) more =
      (if closed then []
       else [ESendCloseMessage
               (conn_SendCloseMessage sur (trace st ++ [EClosed false]))]) /\
    filter (fun e => is_gauge e = true) more = [] /\
    cancelled more = []).
  { destruct closed; simpl.
    - exists st1, []. by rewrite app_nil_r.
    - unfold wbind, wask, wemit, wcounter_inc, wlog, wemit, wret. simpl.
      destruct (conn_SendCloseMessage sur _); simpl.
      + eexists _, [_; _; _]. split; [reflexivity|]. simpl.
        split; [done|]. split; [by rewrite <- !app_assoc|]. done.
      + eexists _, [_]. split; [reflexivity|]. simpl. done. }
  destruct Hclose as (st2 & more & Hrun2 & Hs2 & Ht2 & Htr2 & Hg2 & Hc2).
  erewrite wbind_Done by exact Hrun2.
  erewrite wbind_Done by reflexivity.
  erewrite wbind_Done by reflexivity.
  match goal with |- context [wbind (stop_cancel_loop sur _) _ ?stx] =>
    set (st3 := stx);
    destruct (stop_cancel_loop_run entitySubscriptions stx)
      as (st4 & loop & Hrun4 & Hs4 & Ht4 & Hk4 & Hc4)
  end.
  erewrite wbind_Done by exact Hrun4.
  erewrite wbind_Done by reflexivity.
  unfold lift.
  match goal with |- context [unsubscribe ?env ?subs ?stx] =>
    destruct (unsubscribe_run env subs stx)
      as (bst & evs & Hrun & Hh & Hfr & Hsub & Hcalled & Hdom & Hk)
  end.
  rewrite Hrun. simpl in *.
  assert (Hs : session_of st4 = s) by (rewrite Hs4; simpl; exact Hs2).
  rewrite Hs in *.
  eexists _, (EClosed closed :: more
              ++ [EGaugeDec sessionCounterName [namespace]]), loop, evs.
  split; [reflexivity|]. simpl.
  split.
  { rewrite Hh, Ht4. subst st3. simpl. rewrite Ht2. subst st1. simpl.
    rewrite Hs2. fold s namespace. by rewrite <- !app_assoc. }
  split; [done|]. split; [done|].
  split.
  { rewrite filter_cons. simpl. rewrite filter_app, Htr2. f_equal.
    by rewrite app_nil_r. }
  split.
  { rewrite filter_cons. simpl. by rewrite filter_app, Hg2. }
  split.
  { change (EClosed closed :: more ++ [EGaugeDec sessionCounterName [namespace]])
      with ([EClosed closed] ++ more ++ [EGaugeDec sessionCounterName [namespace]]).
    by rewrite !cancelled_app, Hc2. }
  split; [done|]. split; [done|]. split; [done|]. split; [|done].
  intros Hcan. apply Hdom, Hcan.
Qed.

Lemma filter_quiet {A} (P : A -> Prop) `{forall x, Decision (P x)}
    (l : list A) :
  Forall (fun x => ~ P x) l -> filter P l = [].
Proof.
  induction 1 as [|x l Hx _ IH]; [done|].
  by rewrite filter_cons, decide_False, IH.
Qed.

Lemma cancel_loop_no_transport loop :
  Forall (fun e => is_cancel_loop_effect e = true) loop ->
  filter (fun e => is_transport e = true) loop = [] /\
  filter (fun e => is_gauge e = true) loop = [].
Proof.
  intros Hk. split; apply filter_quiet; (eapply Forall_impl; [exact Hk|]);
    by intros [[]| | | | | |].
Qed.

Lemma unsubscribe_no_transport (evs : list Effect) :
  Forall (fun e => reconcile_effect e = true) evs ->
  filter (fun e => is_transport e = true) (Base <$> evs) = [] /\
  filter (fun e => is_gauge e = true) (Base <$> evs) = [].
Proof.
  intros Hk. split; apply filter_quiet; apply Forall_fmap;
    (eapply Forall_impl; [exact Hk|]); by intros [].
Qed.

Lemma cancelled_base (evs : list Effect) (h : Subscription) :
  h ∈ cancelled (Base <$> evs) -> exists err, ECancel h err ∈ evs.
Proof.
  induction evs as [|e evs IH]; simpl; [by intros ?%elem_of_nil|].
  intros Hin.
  assert (Hcase : (exists err, e = ECancel h err) \/ h ∈ cancelled (Base <$> evs)).
  { destruct e; try (by right).
    apply elem_of_cons in Hin as [->|Hin]; [left; by eexists|by right]. }
  destruct Hcase as [[err ->]|Hrest].
  - exists err. apply elem_of_cons. by left.
  - destruct (IH Hrest) as [err Herr]. exists err. apply elem_of_cons. by right.
Qed.

Lemma stop_run entitySubscriptions st :
  let s := session_of st in
  let namespace := Namespace (cfg s) in
  let closed := conn_Closed sur (trace st) in
  exists st' body handles cerr,
    stop sur entitySubscriptions st = (Done tt, st') /\
    same_frame s (session_of st') /\
    subscriptionsMap (session_of st') ⊆ subscriptionsMap s /\
    trace st' = trace st ++ body ++
      EClose cerr ::
        match cerr with
        | Some _ =>
            [Base (ECounterInc websocketErrorCounterName
                     ["close"; "CloseSession"]);
             Base (ELog ErrorLevel "error closing session")]
        | None => []
        end /\
    filter (fun e => is_transport e = true) body =
      EClosed closed
        :: (if closed then []
            else [ESendCloseMessage
                    (conn_SendCloseMessage sur
                       (trace st ++ [EClosed false]))]) /\
    filter (fun e => is_gauge e = true) body =
      [EGaugeDec sessionCounterName [namespace]] /\
    cancelled body = entitySubscriptions ++ handles /\
    (forall h, h ∈ handles ->
       exists x, x ∈ Subscriptions (cfg s) /\
         subscriptionsMap s !! SubscriptionTopic namespace x = Some h) /\
    ((forall t, cancel_never_fails (collaborators sur t)) ->
       dom (subscriptionsMap (session_of st')) =
         dom (subscriptionsMap s) ∖ topics namespace (Subscriptions (cfg s))).
Proof.
  intros s namespace closed.
  destruct (stop_body_run entitySubscriptions st)
    as (st1 & head & loop & evs & Hrun & Ht & Hfr & Hsub & Htr & Hg & Hc
        & Hk & Hcl & Hcalled & Hdom & Hkinds).
  destruct (cancel_loop_no_transport loop Hk) as [Htl Hgl].
  destruct (unsubscribe_no_transport evs Hkinds) as [Hte Hge].
  unfold stop. rewrite Hrun.
  unfold stop_close, wbind, wask, wemit, wcounter_inc, wlog, wemit, wret. simpl.
  set (cerr := conn_Close sur (trace st1)).
  assert (Hsame : forall st2 : Whole,
    session_of st2 = session_of st1 ->
    same_frame s (session_of st2) /\
    subscriptionsMap (session_of st2) ⊆ subscriptionsMap s /\
    ((forall t, cancel_never_fails (collaborators sur t)) ->
       dom (subscriptionsMap (session_of st2)) =
         dom (subscriptionsMap s) ∖ topics namespace (Subscriptions (cfg s)))).
  { by intros st2 ->. }
  assert (Hbody :
    filter (fun e => is_transport e = true) (head ++ loop ++ (Base <$> evs)) =
      EClosed closed
        :: (if closed then []
            else [ESendCloseMessage
                    (conn_SendCloseMessage sur
                       (trace st ++ [EClosed false]))]) /\
    filter (fun e => is_gauge e = true) (head ++ loop ++ (Base <$> evs)) =
      [EGaugeDec sessionCounterName [namespace]] /\
    cancelled (head ++ loop ++ (Base <$> evs))
      = entitySubscriptions ++ cancelled (Base <$> evs) /\
    (forall h, h ∈ cancelled (Base <$> evs) ->
       exists x, x ∈ Subscriptions (cfg s) /\
         subscriptionsMap s !! SubscriptionTopic namespace x = Some h)).
  { rewrite !filter_app, Htr, Hg, Htl, Hgl, Hte, Hge, !app_nil_r.
    rewrite !cancelled_app, Hc, Hcl.
    split; [done|]. split; [done|]. split; [done|].
    intros h Hin. destruct (cancelled_base evs h Hin) as [err Herr]. eauto. }
  destruct Hbody as (Hb1 & Hb2 & Hb3 & Hb4).
  destruct (Hsame st1 eq_refl) as (H1 & H2 & H3).
  assert (Hfin : forall (cerr : option error) st2 tail,
    session_of st2 = session_of st1 ->
    trace st2 = (trace st1 ++ [EClose cerr]) ++ tail ->
    same_frame s (session_of st2) /\
    subscriptionsMap (session_of st2) ⊆ subscriptionsMap s /\
    trace st2 = trace st ++ (head ++ loop ++ (Base <$> evs))
                  ++ EClose cerr :: tail /\
    filter (fun e => is_transport e = true) (head ++ loop ++ (Base <$> evs)) =
      EClosed closed
        :: (if closed then []
            else [ESendCloseMessage
                    (conn_SendCloseMessage sur
                       (trace st ++ [EClosed false]))]) /\
    filter (fun e => is_gauge e = true) (head ++ loop ++ (Base <$> evs)) =
      [EGaugeDec sessionCounterName [namespace]] /\
    cancelled (head ++ loop ++ (Base <$> evs))
      = entitySubscriptions ++ cancelled (Base <$> evs) /\
    (forall h, h ∈ cancelled (Base <$> evs) ->
       exists x, x ∈ Subscriptions (cfg s) /\
         subscriptionsMap s !! SubscriptionTopic namespace x = Some h) /\
    ((forall t, cancel_never_fails (collaborators sur t)) ->
       dom (subscriptionsMap (session_of st2)) =
         dom (subscriptionsMap s) ∖ topics namespace (Subscriptions (cfg s)))).
  { intros c st2 tail Hs2 Ht2. rewrite Hs2.
    split; [exact H1|]. split; [exact H2|].
    split; [by rewrite Ht2, Ht, <- !app_assoc|]. done. }
  destruct cerr as [e|] eqn:Hcerr; simpl.
  - eexists _, (head ++ loop ++ (Base <$> evs)),
      (cancelled (Base <$> evs)), (Some e).
    split; [reflexivity|]. apply Hfin; [done|]. simpl.
    by rewrite <- !app_assoc.
  - eexists _, (head ++ loop ++ (Base <$> evs)),
      (cancelled (Base <$> evs)), None.
    split; [reflexivity|]. apply Hfin; [done|]. simpl.
    by rewrite app_nil_r.
Qed.

End StopFacts.

(** X20: [stop] always closes the transport, exactly once and after
    everything else.  Whatever fails, [stop] returns; on the transport
    it asks whether the connection is closed, sends the close message
    only when it is not (so at most once), and calls [Close] last; it
    sends no frame; and it decrements the sessions gauge of the
    namespace exactly once. *)
Theorem stop_closes_transport `{imports : Imports}
    `{event_imports : EventImports} (sur : Surroundings)
    (entitySubscriptions : list Subscription) (st : Whole) :
  let closed := conn_Closed sur (trace st) in
  exists st' cerr,
    stop sur entitySubscriptions st = (Done tt, st') /\
    same_frame (session_of st) (session_of st') /\
    filter (fun e => is_transport e = true) (trace_since st st') =
      EClosed closed
        :: (if closed then []
            else [ESendCloseMessage
                    (conn_SendCloseMessage sur
                       (trace st ++ [EClosed false]))])
        ++ [EClose cerr] /\
    filter (fun e => is_gauge e = true) (trace_since st st') =
      [EGaugeDec sessionCounterName [Namespace (cfg (session_of st))]].
Proof.
  intros closed.
  destruct (stop_run sur entitySubscriptions st)
    as (st' & body & handles & cerr & Hrun & Hfr & _ & Ht & Htr & Hg & _).
  exists st', cerr. split; [done|]. split; [done|].
  unfold trace_since. rewrite Ht, drop_app_length.
  rewrite !filter_app, Htr, Hg.
  rewrite !filter_cons. simpl. by destruct cerr.
Qed.

(** X21: [stop] calls [Cancel] on every entity config subscription that
    the channel delivers, in order and also after a failed [Cancel];
    after them only on handles that the session holds for the check
    topics of its subscription list; and it adds no handle. *)
Theorem stop_cancels `{imports : Imports} `{event_imports : EventImports}
    (sur : Surroundings) (entitySubscriptions : list Subscription)
    (st : Whole) :
  let s := session_of st in
  exists st' handles,
    stop sur entitySubscriptions st = (Done tt, st') /\
    subscriptionsMap (session_of st') ⊆ subscriptionsMap s /\
    cancelled (trace_since st st') = entitySubscriptions ++ handles /\
    forall h, h ∈ handles ->
      exists x, x ∈ Subscriptions (cfg s) /\
        subscriptionsMap s
          !! SubscriptionTopic (Namespace (cfg s)) x = Some h.
Proof.
  intros s.
  destruct (stop_run sur entitySubscriptions st)
    as (st' & body & handles & cerr & Hrun & _ & Hsub & Ht & _ & _ & Hc & Hh & _).
  exists st', handles. split; [done|]. split; [done|]. split; [|done].
  unfold trace_since. rewrite Ht, drop_app_length.
  rewrite cancelled_app, Hc. by destruct cerr; rewrite app_nil_r.
Qed.

(** X22: with a bus whose [Cancel] succeeds, [stop] leaves no handle
    behind: when the session holds handles only for check topics of its
    subscription list, its subscription map is empty after [stop]. *)
Theorem stop_forgets_subscriptions `{imports : Imports}
    `{event_imports : EventImports} (sur : Surroundings)
    (entitySubscriptions : list Subscription) (st : Whole) :
  let s := session_of st in
  (forall t, cancel_never_fails (collaborators sur t)) ->
  dom (subscriptionsMap s)
    ⊆ topics (Namespace (cfg s)) (Subscriptions (cfg s)) ->
  exists st',
    stop sur entitySubscriptions st = (Done tt, st') /\
    subscriptionsMap (session_of st') = ∅.
Proof.
  intros s Hcan Hdom.
  destruct (stop_run sur entitySubscriptions st)
    as (st' & body & handles & cerr & Hrun & _ & _ & _ & _ & _ & _ & _ & Hd).
  exists st'. split; [done|]. apply dom_empty_iff_L.
  rewrite (Hd Hcan). set_solver.
Qed.
(** ** A whole life of a session: [Start], then [stop] *)

(** X23: [Start] and [stop] balance.  When [Start] succeeds on a session
    without handles and the [Cancel] of the bus succeeds, [stop] leaves
    the subscription map empty again (also when the list of the session
    has empty names or was replaced by the stored one), and over both
    the sessions gauge of the namespace is incremented once and
    decremented once. *)
Theorem Start_then_stop `{imports : Imports} `{event_imports : EventImports}
    (sur : Surroundings) (entitySubscriptions : list Subscription)
    (st st1 : Whole) :
  let namespace := Namespace (cfg (session_of st)) in
  lift sur (fun env => Start env) st = (Done None, st1) ->
  subscriptionsMap (session_of st) = ∅ ->
  (forall t, cancel_never_fails (collaborators sur t)) ->
  exists st2,
    stop sur entitySubscriptions st1 = (Done tt, st2) /\
    subscriptionsMap (session_of st2) = ∅ /\
    filter (fun e => is_gauge e = true) (trace_since st st2) =
      [Base (EGaugeInc sessionCounterName [namespace]);
       EGaugeDec sessionCounterName [namespace]].
Proof.
  intros namespace Hstart Hempty Hcan. unfold lift in Hstart.
  set (bst := {| session := session_of st; history := [] |}) in Hstart.
  destruct (Start (collaborators sur (trace st)) bst) as [o bst1] eqn:Hrun.
  injection Hstart as -> <-. simpl.
  destruct (Start_handles _ _ _ Hrun) as (Hns & Hdom).
  destruct (Start_shape (collaborators sur (trace st)) bst)
    as (o & bst1' & mid & Hrun' & Hev & Hmid).
  rewrite Hrun in Hrun'. injection Hrun' as <- <-.
  unfold effects_since, bst in Hev. simpl in Hev, Hns, Hdom.
  change (drop 0 (history bst1)) with (history bst1) in Hev.
  rewrite app_nil_r in Hev.
  match goal with |- context [stop sur _ ?stx] =>
    destruct (stop_run sur entitySubscriptions stx)
      as (st2 & body & handles & cerr & Hstop & _ & _ & Ht & _ & Hg & _ & _ & Hd)
  end.
  simpl in *. exists st2. split; [done|]. split.
  - apply dom_empty_iff_L. rewrite (Hd Hcan), Hdom, Hempty, Hns.
    apply set_eq. intros t.
    rewrite elem_of_difference, elem_of_union, !elem_of_topics.
    split; [|by intros ?%elem_of_empty].
    intros [[Hin | (x & Hx & ->)] Hn];
      [rewrite dom_empty_L in Hin; by apply elem_of_empty in Hin|].
    destruct Hn. exists x. split; [|done].
    by apply removeEmptySubscriptions_elem in Hx as [? _].
  - unfold trace_since. rewrite Ht, <- app_assoc, drop_app_length.
    assert (Hq : filter (fun e => is_gauge e = true) (Base <$> mid) = []).
    { apply filter_quiet, Forall_fmap.
      eapply Forall_impl; [exact Hmid|]. by intros []. }
    assert (Htail : filter (fun e => is_gauge e = true)
      (EClose cerr
         :: match cerr with
            | Some _ =>
                [Base (ECounterInc websocketErrorCounterName
                         ["close"; "CloseSession"]);
                 Base (ELog ErrorLevel "error closing session")]
            | None => []
            end) = []).
    { by destruct cerr. }
    rewrite Hev, fmap_cons, <- app_comm_cons, filter_cons.
    rewrite !filter_app, Hq, Hg, Htail, Hns. by fold namespace.
Qed.
(** * The command [init] *)

Module cmd_facts.
Import cmd.

Lemma wrap64_small (z : Z) :
  (- 2 ^ 63 <= z < 2 ^ 63)%Z -> wrap64 z = z.
Proof.
  unfold wrap64.
  change (2 ^ 64)%Z with 18446744073709551616%Z.
  change (2 ^ 63)%Z with 9223372036854775808%Z.
  intros H. rewrite Z.mod_small; lia.
Qed.

Lemma scaled_timeout (t : Z) :
  (0 < t < 2 ^ 63)%Z ->
  let t' := if (t <? 1 * time_Second)%Z then Duration_mul t time_Second else t in
  (time_Second <= t')%Z /\
  ((time_Second <= t)%Z -> t' = t) /\
  ((t < time_Second)%Z -> t' = (t * time_Second)%Z).
Proof.
  intros Ht. unfold time_Second, Duration_mul in *.
  change (1 * 1000000000)%Z with 1000000000%Z.
  change (2 ^ 63)%Z with 9223372036854775808%Z in Ht.
  destruct (t <? 1000000000)%Z eqn:Hlt; simpl.
  - apply Z.ltb_lt in Hlt. rewrite wrap64_small.
    + lia.
    + change (2 ^ 63)%Z with 9223372036854775808%Z. lia.
  - apply Z.ltb_ge in Hlt. lia.
Qed.

Ltac inner_case x :=
  lazymatch x with
  | context [match ?y with _ => _ end] => inner_case y
  | _ => destruct x eqn:?
  end.

Ltac RunE_cases :=
  unfold RunE, initializeStore, initializeDevModeStore, initConfig_Validate;
  simpl;
  repeat (match goal with
          | |- context [match ?x with _ => _ end] => inner_case x
          end; simpl).

End cmd_facts.

(** X24: a positive timeout always gives the store at least one second.
    Whatever positive duration the flag holds, every call of the
    command to the store runs under a timeout of at least one second:
    the duration itself when it is at least one second, and below one
    second its count of nanoseconds taken as seconds. *)
Theorem RunE_timeout (out : cmd.Outside) (viper : cmd.Flags) (e : cmd.InitEffect) :
  (0 < cmd.flagTimeout viper < 2 ^ 63)%Z ->
  e ∈ (cmd.RunE out viper).2 ->
  forall timeout,
    (exists c err, e = cmd.EDevModeClient timeout c err) \/
    (exists c err, e = cmd.ESeedCluster timeout c err) ->
    (time_Second <= timeout)%Z /\
    ((time_Second <= cmd.flagTimeout viper)%Z ->
     timeout = cmd.flagTimeout viper) /\
    ((cmd.flagTimeout viper < time_Second)%Z ->
     timeout = (cmd.flagTimeout viper * time_Second)%Z).
Proof.
  intros Ht Hin timeout Hcase.
  pose proof (cmd_facts.scaled_timeout _ Ht) as Hscaled. cbv zeta in Hscaled.
  unfold cmd.RunE, cmd.initializeStore, cmd.initializeDevModeStore in Hin.
  cbv zeta in Hin.
  set (scaled := if (cmd.flagTimeout viper <? 1 * time_Second)%Z
                 then _ else _) in *.
  assert (Hgoal : timeout = scaled).
  { revert Hin. clearbody scaled. clear Hscaled Ht.
    cmd_facts.RunE_cases;
      rewrite ?elem_of_app, ?elem_of_cons, ?elem_of_nil;
      intros Hin;
      destruct Hcase as [(c & err & ->)|(c & err & ->)];
      intuition congruence. }
  by rewrite Hgoal.
Qed.

(** X25: an API key does not replace the credentials.  Without the
    questionnaire, when the user name or the password is empty the
    command fails before it touches the store or asks anything,
    whatever the API key. *)
Theorem RunE_requires_credentials (out : cmd.Outside) (viper : cmd.Flags) :
  cmd.flagInteractive viper = false ->
  cmd.flagInitAdminUsername viper = "" \/ cmd.flagInitAdminPassword viper = "" ->
  exists err, cmd.RunE out viper = (Some err, []).
Proof.
  intros Hi Hempty. unfold cmd.RunE. rewrite Hi.
  destruct (cmd.setupErr out); [by eexists|].
  destruct (_ && _); [by eexists|]. cbv zeta.
  unfold cmd.initConfig_Validate. simpl.
  destruct Hempty as [-> | ->]; simpl; rewrite ?orb_true_r; by eexists.
Qed.

(** X26: outside the dev mode the command reaches no store.  It opens
    no client, seeds nothing and logs nothing; without the questionnaire
    and with both credentials it then reports success as soon as the
    setup and the check of the etcd configuration pass. *)
Theorem RunE_store_only_in_dev_mode (out : cmd.Outside) (viper : cmd.Flags) :
  cmd.flagDevMode viper = false ->
  Forall (fun e => e = cmd.ESurveyAsk) (cmd.RunE out viper).2 /\
  (cmd.setupErr out = None ->
   cmd.anyConfig out {| cmd.UseEmbeddedClient := false |} = false ->
   cmd.flagInteractive viper = false ->
   cmd.flagInitAdminUsername viper <> "" ->
   cmd.flagInitAdminPassword viper <> "" ->
   cmd.RunE out viper = (None, [])).
Proof.
  intros Hdev. split.
  - unfold cmd.RunE, cmd.initializeStore. cbv zeta. simpl. rewrite Hdev.
    cmd_facts.RunE_cases; simplify_eq; by repeat constructor.
  - intros Hsetup Hany Hi Hu Hp.
    unfold cmd.RunE, cmd.initializeStore, cmd.initConfig_Validate.
    rewrite Hsetup, Hi, Hdev. simpl. rewrite Hany. simpl.
    by rewrite !bool_decide_eq_false_2.
Qed.

(** X27: what the command does with the errors of the seeding.  An
    error that is [ErrAlreadyInitialized] is returned as it is, or not
    at all with the flag that ignores it, and is never logged; any other
    error of the seeding is wrapped, logged and returned; and nothing
    but the returned error is ever logged. *)
Theorem RunE_already_initialized (out : cmd.Outside) (viper : cmd.Flags) :
  let res := (cmd.RunE out viper).1 in
  let effects := (cmd.RunE out viper).2 in
  (forall err, cmd.ELoggerError err ∈ effects ->
     res = Some err /\ cmd.errors_Is err cmd.ErrAlreadyInitialized = false) /\
  (forall timeout c err,
     cmd.ESeedCluster timeout c (Some err) ∈ effects ->
     if cmd.errors_Is err cmd.ErrAlreadyInitialized
     then res = (if cmd.flagIgnoreAlreadyInitialized viper
                 then None else Some err)
     else exists msg,
       res = Some (cmd.Wrap msg err) /\
       cmd.ELoggerError (cmd.Wrap msg err) ∈ effects).
Proof.
  intros res effects. subst res effects. split.
  - intros err. cmd_facts.RunE_cases;
      rewrite ?elem_of_app, ?elem_of_cons, ?elem_of_nil;
      intros Hin; simplify_eq/=; intuition (simplify_eq/=; done).
  - intros timeout c err. cmd_facts.RunE_cases;
      rewrite ?elem_of_app, ?elem_of_cons, ?elem_of_nil;
      intros Hin; simplify_eq/=;
      try (intuition (simplify_eq/=; done)).
    all: repeat (destruct Hin as [Hin|Hin]); simplify_eq/=; try congruence;
      try done.
    all: eexists; split; [reflexivity|]; set_solver.
Qed.
(** * Examples of the further properties *)

Section MoreExamples.
Import Sample SampleSession.

Lemma subscribe_twice_witness :
  let st := start (new_session ["cpu"; "disk"]) in
  let st1 := (subscribe reliable ["cpu"; "disk"] st).2 in
  exists st2,
    subscribe reliable ["cpu"; "disk"] st1 = (Done None, st2) /\
    session st2 = session st1 /\
    filter is_subscribe (effects_since st1 st2) = [].
Proof.
  refine (subscribe_twice reliable ["cpu"; "disk"]
            (start (new_session ["cpu"; "disk"])) _ _).
  vm_compute. reflexivity.
Defined.

Lemma subscribe_unsubscribe_witness :
  let st := start (new_session ["cpu"]) in
  exists st1 st2,
    subscribe reliable ["cpu"; "disk"] st = (Done None, st1) /\
    unsubscribe reliable ["cpu"; "disk"] st1 = (Done tt, st2) /\
    dom (subscriptionsMap (session st2)) =
      dom (subscriptionsMap (session st))
        ∖ topics (Namespace (cfg (session st))) ["cpu"; "disk"].
Proof.
  refine (subscribe_unsubscribe reliable ["cpu"; "disk"]
            (start (new_session ["cpu"])) _ _).
  - intros h topic consumer r. eexists. reflexivity.
  - intros h sub. reflexivity.
Defined.

Lemma reconcile_reordered_witness :
  let st := start (new_session ["disk"; "cpu"]) in
  reconcile reliable ["cpu"; "disk"] st =
    (Done tt,
     {| session := set_Subscriptions (sortSubscriptions ["cpu"; "disk"])
                     (session st);
        history := history st |}).
Proof.
  refine (reconcile_reordered reliable ["cpu"; "disk"]
            (start (new_session ["disk"; "cpu"])) _).
  simpl. apply perm_swap.
Defined.

Lemma reconcile_any_order_witness :
  let st := start (new_session [""]) in
  exists st',
    reconcile reliable ["b"; ""; "a"] st = (Done tt, st') /\
    Subscriptions (cfg (session st')) = sortSubscriptions ["b"; ""; "a"] /\
    dom (subscriptionsMap (session st'))
      = topics "default" (filter (fun x : string => x <> "") ["b"; ""; "a"]).
Proof.
  refine (reconcile_any_order reliable ["b"; ""; "a"]
            (start (new_session [""])) _ _ (SubscriptionTopic_inj _) _ _ _).
  - intros h topic consumer r. eexists. reflexivity.
  - intros h sub. reflexivity.
  - apply (bool_decide_unpack _). vm_compute. reflexivity.
  - apply (bool_decide_unpack _). vm_compute. reflexivity.
  - apply (bool_decide_unpack _). vm_compute. reflexivity.
Defined.

Lemma sender_coerces_class_witness :
  let st := start (new_session ["cpu"]) in
  let coerced := set_EntityClass "agent" proxy_entity in
  exists st',
    sender_turn reliable (EntityUpdate (Some (VWatchEvent proxy_update))) st
      = (Done true, st') /\
    session st' = session st /\
    Forall (fun e => is_log e = true \/ is_store_update e = true \/
                     exists labels, e = ECounterInc sessionErrorCounterName labels)
      (effects_since st st') /\
    (exists updates,
       filter is_store_update (effects_since st st') = updates /\
       exists err, updates = [EStoreCreateOrUpdate coerced err]).
Proof.
  refine (sender_coerces_class reliable proxy_update proxy_entity proxy_meta
            (start (new_session ["cpu"])) _ _ _ _ _).
  - simpl. congruence.
  - simpl. congruence.
  - reflexivity.
  - reflexivity.
  - simpl. congruence.
Defined.

Lemma Start_subscribes_witness :
  let st := start (new_session ["cpu"; ""]) in
  let st' := (Start reliable st).2 in
  Namespace (cfg (session st')) = Namespace (cfg (session st)) /\
  dom (subscriptionsMap (session st')) =
    dom (subscriptionsMap (session st))
      ∪ topics (Namespace (cfg (session st)))
          (removeEmptySubscriptions (Subscriptions (cfg (session st')))).
Proof.
  refine (Start_subscribes reliable (start (new_session ["cpu"; ""])) _ _).
  vm_compute. reflexivity.
Defined.

Lemma Start_then_reconcile_witness :
  let st := start (new_session ["cpu"; ""]) in
  let st1 := (Start reliable st).2 in
  exists st2,
    reconcile reliable ["disk"; "cpu"; ""] st1 = (Done tt, st2) /\
    Subscriptions (cfg (session st2)) = sortSubscriptions ["disk"; "cpu"; ""] /\
    dom (subscriptionsMap (session st2))
      = topics (Namespace (cfg (session st)))
          (filter (fun x : string => x <> "") ["disk"; "cpu"; ""]).
Proof.
  refine (Start_then_reconcile reliable ["disk"; "cpu"; ""]
            (start (new_session ["cpu"; ""])) _ _ _ _ _
            (SubscriptionTopic_inj _) _ _).
  - vm_compute. reflexivity.
  - reflexivity.
  - intros h topic consumer r. eexists. reflexivity.
  - intros h sub. reflexivity.
  - apply (bool_decide_unpack _). vm_compute. reflexivity.
  - apply (bool_decide_unpack _). vm_compute. reflexivity.
Defined.

Lemma receiver_survives_handler_errors_witness :
  (receiver surroundings
     (inr <$> [transport.NewMessage "ping" [];
               transport.NewMessage "event" [];
               transport.NewMessage "keepalive" [Byte.x00]])
     (whole (new_session ["cpu"]))).1 <> Done false.
Proof.
  refine (receiver_survives_handler_errors surroundings _ _ _ _).
  - intros t. reflexivity.
  - intros t. reflexivity.
Defined.

Lemma stop_forgets_subscriptions_witness :
  let s := set_subscriptionsMap {[ "sensu:check:default:cpu" := 7%N ]}
             (new_session ["cpu"; "disk"]) in
  exists st',
    stop surroundings [3%N] (whole s) = (Done tt, st') /\
    subscriptionsMap (session_of st') = ∅.
Proof.
  refine (stop_forgets_subscriptions surroundings [3%N] (whole _) _ _).
  - intros t h sub. reflexivity.
  - apply (bool_decide_unpack _). vm_compute. reflexivity.
Defined.

Lemma Start_then_stop_witness :
  let st := whole (new_session ["cpu"; ""]) in
  let st1 := (lift surroundings (fun env => Start env) st).2 in
  exists st2,
    stop surroundings [3%N] st1 = (Done tt, st2) /\
    subscriptionsMap (session_of st2) = ∅ /\
    filter (fun e => is_gauge e = true) (trace_since st st2) =
      [Base (EGaugeInc sessionCounterName ["default"]);
       EGaugeDec sessionCounterName ["default"]].
Proof.
  refine (Start_then_stop surroundings [3%N]
            (whole (new_session ["cpu"; ""])) _ _ _ _).
  - vm_compute. reflexivity.
  - reflexivity.
  - intros t h sub. reflexivity.
Defined.

Lemma RunE_timeout_witness :
  let viper := flags true 1500000000 "secret" in
  (time_Second <= 1500000000)%Z /\
  ((time_Second <= cmd.flagTimeout viper)%Z ->
   1500000000%Z = cmd.flagTimeout viper) /\
  ((cmd.flagTimeout viper < time_Second)%Z ->
   1500000000%Z = (cmd.flagTimeout viper * time_Second)%Z).
Proof.
  refine (RunE_timeout initialized (flags true 1500000000 "secret")
            (cmd.ESeedCluster 1500000000 _ _) _ _ 1500000000 _).
  - simpl. lia.
  - apply (list_elem_of_lookup_2 _ 1). vm_compute. reflexivity.
  - right. eexists _, _. reflexivity.
Defined.

(** Below one second the count of nanoseconds is taken as seconds: a
    flag of 5 (nanoseconds) seeds the store under five seconds. *)
Example RunE_timeout_scaled :
  (cmd.RunE initialized (flags true 5 "secret")).2 !! 1%nat
  = Some (cmd.ESeedCluster 5000000000
            {| cmd.AdminUsername := "admin";
               cmd.AdminPassword := "secret";
               cmd.AdminAPIKey := "00000000-0000-0000-0000-000000000000" |}
            (Some cmd.ErrAlreadyInitialized)).
Proof. vm_compute. reflexivity. Qed.

Lemma RunE_requires_credentials_witness :
  exists err, cmd.RunE initialized (flags true 5000000000 "") = (Some err, []).
Proof.
  refine (RunE_requires_credentials initialized (flags true 5000000000 "") _ _).
  - reflexivity.
  - right. reflexivity.
Defined.

Lemma RunE_store_only_in_dev_mode_witness :
  let viper := flags false 5000000000 "secret" in
  Forall (fun e => e = cmd.ESurveyAsk) (cmd.RunE initialized viper).2 /\
  (cmd.setupErr initialized = None ->
   cmd.anyConfig initialized {| cmd.UseEmbeddedClient := false |} = false ->
   cmd.flagInteractive viper = false ->
   cmd.flagInitAdminUsername viper <> "" ->
   cmd.flagInitAdminPassword viper <> "" ->
   cmd.RunE initialized viper = (None, [])).
Proof.
  refine (RunE_store_only_in_dev_mode initialized
            (flags false 5000000000 "secret") _).
  reflexivity.
Defined.

End MoreExamples.
